(** * darktable: src/common/metadata.c

    A shallow embedding of the metadata mutation engine: the attribute
    registry, the before/after diff, the three list semantics (set, add,
    remove), the undo replay and the public setters, followed by the
    properties of these functions.

    Conventions of the embedding.
    - A C string ([char *]) is a [string]; the terminating NUL is implicit.
      A pointer that may be NULL is an [option].
    - A [GList *] of strings is a [list (option string)]; a node pointer into
      a list is the index of the node, NULL is [None].
    - Dereferencing NULL is a crash: functions that can do so return
      [option], and [None] is the crash.
    - The SQL statements are embedded by their meaning on tables held as
      lists of rows. An integer column holds any integer; a column read with
      [sqlite3_column_int], like a text read with [atoi], gives an [int]. *)

From Stdlib Require Import ZArith String Ascii.
From stdpp Require Import base option numbers list strings gmap.

Local Open Scope string_scope.
Local Open Scope list_scope.

(** ** The C library functions the file calls *)

Module CLib.

(** [strcmp]: only the sign of the result is specified by C. *)
Fixpoint strcmp (s1 s2 : string) : Z :=
  match s1, s2 with
  | EmptyString, EmptyString => 0
  | EmptyString, String _ _ => -1
  | String _ _, EmptyString => 1
  | String c1 r1, String c2 r2 =>
      if Ascii.eqb c1 c2 then strcmp r1 r2
      else if (N_of_ascii c1 <? N_of_ascii c2)%N then -1 else 1
  end%Z.

(** [strncmp]: compares at most [n] characters. *)
Fixpoint strncmp (s1 s2 : string) (n : nat) : Z :=
  match n with
  | O => 0
  | S n' =>
      match s1, s2 with
      | EmptyString, EmptyString => 0
      | EmptyString, String _ _ => -1
      | String _ _, EmptyString => 1
      | String c1 r1, String c2 r2 =>
          if Ascii.eqb c1 c2 then strncmp r1 r2 n'
          else if (N_of_ascii c1 <? N_of_ascii c2)%N then -1 else 1
      end
  end%Z.

Definition strlen (s : string) : nat := String.length s.

(** [g_strcmp0]: [strcmp] that accepts NULL, NULL sorting first. *)
Definition g_strcmp0 (a b : option string) : Z :=
  match a, b with
  | None, None => 0
  | None, Some _ => -1
  | Some _, None => 1
  | Some x, Some y => strcmp x y
  end%Z.

(** [g_strdup]: a copy, NULL for NULL. *)
Definition g_strdup (s : option string) : option string := s.

Definition isspace (c : ascii) : bool :=
  let n := N_of_ascii c in ((n =? 32) || ((9 <=? n) && (n <=? 13)))%N.

Definition isdigit (c : ascii) : bool :=
  let n := N_of_ascii c in ((48 <=? n) && (n <=? 57))%N.

Definition digit_value (c : ascii) : Z := Z.of_N (N_of_ascii c) - 48.

Fixpoint skip_spaces (s : string) : string :=
  match s with
  | String c r => if isspace c then skip_spaces r else s
  | EmptyString => s
  end.

Fixpoint atoi_digits (s : string) (acc : Z) : Z :=
  match s with
  | String c r => if isdigit c then atoi_digits r (10 * acc + digit_value c) else acc
  | EmptyString => acc
  end.

(** The number a text denotes for [strtol] in base 10: leading white space,
    an optional sign, then the decimal digits. *)
Definition decimal_value (s : string) : Z :=
  match skip_spaces s with
  | String c r =>
      if Ascii.eqb c "-" then (- atoi_digits r 0)%Z
      else if Ascii.eqb c "+" then atoi_digits r 0
      else atoi_digits (String c r) 0
  | EmptyString => 0%Z
  end.

(** Conversions between [uint32_t] and [int]. *)
Definition to_uint32 (z : Z) : Z := (z mod 2 ^ 32)%Z.
Definition to_int32 (z : Z) : Z :=
  let u := (z mod 2 ^ 32)%Z in if (u <? 2 ^ 31)%Z then u else (u - 2 ^ 32)%Z.

(** [strtol (s, NULL, 10)]: a number outside the range of [long] (64 bits)
    is replaced by [LONG_MIN] or [LONG_MAX]. *)
Definition strtol (s : string) : Z :=
  Z.max (- 2 ^ 63) (Z.min (2 ^ 63 - 1) (decimal_value s)).

(** [atoi]: the C library computes [(int) strtol (s, NULL, 10)], so the
    result is an [int]: "4294967297" gives 1 and "2147483648" gives
    -2147483648. *)
Definition atoi (s : string) : Z := to_int32 (strtol s).

Definition digit_char (d : N) : ascii := ascii_of_N (48 + d).

Fixpoint print_N_go (fuel : nat) (n : N) (acc : string) : string :=
  match fuel with
  | O => acc
  | S f =>
      let acc' := String (digit_char (n mod 10)) acc in
      if (n / 10 =? 0)%N then acc' else print_N_go f (n / 10)%N acc'
  end.

(** The decimal digits of [n]; a number has at most [log2 n + 1] of them. *)
Definition print_N (n : N) : string :=
  print_N_go (S (N.to_nat (N.log2 n))) n "".

(** [printf("%d", z)]. *)
Definition print_d (z : Z) : string :=
  match z with
  | Z0 => "0"
  | Zpos p => print_N (Npos p)
  | Zneg p => String "-" (print_N (Npos p))
  end.

(** [printf("%u", z)] for a [uint32_t] argument. *)
Definition print_u (z : Z) : string := print_N (Z.to_N (z mod 2 ^ 32)).

(** [g_strrstr (s, ".")] followed by [+ 1]: the text after the last dot,
    NULL when there is no dot. *)
Fixpoint after_last_dot (s : string) : option string :=
  match s with
  | EmptyString => None
  | String c r =>
      match after_last_dot r with
      | Some t => Some t
      | None => if Ascii.eqb c "." then Some r else None
      end
  end.

End CLib.

Import CLib.

(** ** Key/value lists

    The before and after lists of an image hold key, value, key, value, ...;
    every element is a [char *]. *)

Abbreviation gpointer := (option string).
Abbreviation GList := (list (option string)).

(** A key/value list written as pairs, and its layout as a [GList]. *)
Abbreviation snapshot := (list (string * string)).

Fixpoint flat (s : snapshot) : GList :=
  match s with
  | [] => []
  | (k, v) :: r => Some k :: Some v :: flat r
  end.

(** [i->data && !g_strcmp0(i->data, data)] *)
Definition key_matches (d data : gpointer) : bool :=
  match d with
  | Some _ => (g_strcmp0 d data =? 0)%Z
  | None => false
  end.

(** The loop of [_list_find_custom], started at the node of index [i]: the
    body steps to the next node and the loop header steps once more, so only
    every second node is compared. *)
Fixpoint _list_find_from (i : nat) (l : GList) (data : gpointer) : option nat :=
  match l with
  | [] => None
  | d :: tl =>
      if key_matches d data then Some i
      else match tl with
           | [] => None
           | _ :: tl' => _list_find_from (S (S i)) tl' data
           end
  end.

Definition _list_find_custom (l : GList) (data : gpointer) : option nat :=
  _list_find_from 0 l data.

(** [g_strcmp0(same2->data, v)] as a truth value, when [same_key] is set;
    [same2] is the node after [same_key] and is dereferenced. *)
Definition different_value_at (l : GList) (same_key : option nat) (v : gpointer)
  : option bool :=
  match same_key with
  | Some i => same2 ← l !! S i; Some (negb (g_strcmp0 same2 v =? 0)%Z)
  | None => Some false
  end.

(** [!value[0]] *)
Definition is_empty_value (value : gpointer) : option bool :=
  match value with
  | Some EmptyString => Some true
  | Some _ => Some false
  | None => None
  end.

(** [atoi(data)] on a list element. *)
Definition atoi_data (d : gpointer) : option Z := atoi <$> d.

(** [_get_tb_removed_metadata_string_values]. The result stands for the text
    "k1,k2,...": the list of the numbers printed, the empty list for NULL. *)
Fixpoint _get_tb_removed_metadata_string_values (before after : GList)
  : option (list Z) :=
  match before with
  | [] => Some []
  | bdata :: b2 =>
      match b2 with
      | [] => None
      | value :: rest =>
          let same_key := _list_find_custom after bdata in
          different_value ← different_value_at after same_key value;
          remove ← (if bool_decide (same_key = None) then Some true
                    else if (different_value : bool) then Some true
                    else is_empty_value value);
          entry ← (if (remove : bool) then k ← atoi_data bdata; Some [k] else Some []);
          tl ← _get_tb_removed_metadata_string_values rest after;
          Some (entry ++ tl)
      end
  end.

(** [_get_tb_added_metadata_string_values]. The result stands for the text
    "(id,k1,'v1'),(id,k2,'v2'),...": the list of the rows written, the value
    being the text that the quoted and escaped literal denotes. *)
Fixpoint _get_tb_added_metadata_string_values (imgid : Z) (before after : GList)
  : option (list (Z * Z * string)) :=
  match after with
  | [] => Some []
  | adata :: a2 =>
      match a2 with
      | [] => None
      | value :: rest =>
          let same_key := _list_find_custom before adata in
          different_value ← different_value_at before same_key value;
          add ← (if bool_decide (same_key = None) || (different_value : bool)
                 then negb <$> is_empty_value value
                 else Some false);
          entry ← (if (add : bool) then k ← atoi_data adata; v ← value; Some [(imgid, k, v)]
                   else Some []);
          tl ← _get_tb_added_metadata_string_values imgid before rest;
          Some (entry ++ tl)
      end
  end.

(** [_metadata_add_metadata_to_list]: [list] is [*list]. *)
Fixpoint _metadata_add_metadata_to_list (list metadata : GList) : option GList :=
  match metadata with
  | [] => Some list
  | mdata :: m2 =>
      match m2 with
      | [] => None
      | m2data :: rest =>
          let same_key := _list_find_custom list mdata in
          different_value ← different_value_at list same_key m2data;
          match same_key with
          | Some i =>
              _metadata_add_metadata_to_list
                (if (different_value : bool) then <[S i := g_strdup m2data]> list else list)
                rest
          | None =>
              _metadata_add_metadata_to_list
                (list ++ [g_strdup mdata; g_strdup m2data]) rest
          end
      end
  end.

(** [_metadata_remove_metadata_from_list]: [metadata] is a plain list of keys.
    Unlinking [same_key] moves [same2] to its index; [same2] is then
    dereferenced. *)
Fixpoint _metadata_remove_metadata_from_list (list metadata : GList) : option GList :=
  match metadata with
  | [] => Some list
  | mdata :: rest =>
      match _list_find_custom list mdata with
      | Some i =>
          _ ← list !! S i;
          _metadata_remove_metadata_from_list (delete i (delete i list)) rest
      | None => _metadata_remove_metadata_from_list list rest
      end
  end.

(** ** The diff in the words of the specification *)

Module DiffSpec.

(** The value of the first pair with key [k]. *)
Fixpoint first_value (k : string) (s : snapshot) : option string :=
  match s with
  | [] => None
  | (k', v) :: r => if String.eqb k' k then Some v else first_value k r
  end.

(** A pair of [before] is marked when [after] has no pair with its key, or
    the matched value differs, or the matched value is empty. *)
Definition marked_for_removal (after : snapshot) (p : string * string) : bool :=
  match first_value p.1 after with
  | None => true
  | Some v' => negb (String.eqb v' p.2) || String.eqb v' ""
  end.

(** A pair of [after] is inserted when its value is not empty and [before]
    has no pair with its key or the matched value differs. *)
Definition emits_insertion (before : snapshot) (p : string * string) : bool :=
  negb (String.eqb p.2 "") &&
  match first_value p.1 before with
  | None => true
  | Some v' => negb (String.eqb v' p.2)
  end.

Definition removals (before after : snapshot) : list Z :=
  (fun p => atoi p.1) <$> List.filter (marked_for_removal after) before.

Definition insertions (imgid : Z) (before after : snapshot) : list (Z * Z * string) :=
  (fun p => (imgid, atoi p.1, p.2)) <$> List.filter (emits_insertion before) after.

(** Merging one pair: the first pair with the key gets the value, a key that
    is absent is appended. *)
Fixpoint overwrite_first (k v : string) (s : snapshot) : snapshot :=
  match s with
  | [] => []
  | (k', v') :: r => if String.eqb k' k then (k', v) :: r else (k', v') :: overwrite_first k v r
  end.

Definition merge_pair (s : snapshot) (p : string * string) : snapshot :=
  match first_value p.1 s with
  | Some _ => overwrite_first p.1 p.2 s
  | None => s ++ [p]
  end.

Definition merge (before payload : snapshot) : snapshot :=
  fold_left merge_pair payload before.

(** Removing the first pair with key [k]. *)
Fixpoint remove_first (k : string) (s : snapshot) : snapshot :=
  match s with
  | [] => []
  | (k', v') :: r => if String.eqb k' k then r else (k', v') :: remove_first k r
  end.

End DiffSpec.

(** ** The registry of attribute definitions *)

(** [dt_metadata_t] (declared in common/metadata.h): the fields as this file
    uses them. [key] is a [uint32_t]; [internal], [visible] and [priv] are C
    truth values ([gboolean], an [int]) and [display_order] is an integer.
    Every entry carries a tag name. *)
Module md.
Record t := mk {
  key : Z;
  tagname : string;
  name : string;
  internal : Z;
  visible : Z;
  priv : Z;
  display_order : Z
}.
Definition set_key (k : Z) (m : t) : t :=
  mk k (tagname m) (name m) (internal m) (visible m) (priv m) (display_order m).
End md.

Abbreviation dt_metadata_t := md.t.

(** What the file takes from other parts of the program: macros and enum
    values of headers, and calls into the selection and image modules. *)
Class Externals := {
  (** the macro [dt_is_valid_imgid] *)
  dt_is_valid_imgid : Z → bool;
  (** the flag bit [DT_METADATA_FLAG_IMPORTED] *)
  DT_METADATA_FLAG_IMPORTED : Z;
  (** the images [dt_act_on_get_images(TRUE, TRUE, FALSE)] returns *)
  dt_act_on_get_images : list Z;
  (** the result of [dt_image_get_xmp_mode()] and the value
      [DT_WRITE_XMP_NEVER] *)
  dt_image_get_xmp_mode : Z;
  DT_WRITE_XMP_NEVER : Z
}.

(** A row of [main.meta_data]: id, key, value; the value column may be NULL. *)
Abbreviation meta_row := (Z * Z * option string)%type.

Inductive dt_undo_type_t := DT_UNDO_METADATA | DT_UNDO_OTHER (n : nat).
Inductive dt_undo_action_t := DT_ACTION_UNDO | DT_ACTION_REDO.
Inductive dt_signal_t := DT_SIGNAL_MOUSE_OVER_IMAGE_CHANGE.

#[global] Instance dt_undo_type_t_eq_dec : EqDecision dt_undo_type_t.
Proof. solve_decision. Defined.
#[global] Instance dt_undo_action_t_eq_dec : EqDecision dt_undo_action_t.
Proof. solve_decision. Defined.

Record dt_undo_metadata_t := mk_undo {
  imgid : Z;
  before : GList;
  after : GList
}.

(** What the undo module is told, in order. *)
Inductive undo_call :=
  | dt_undo_start_group (type : dt_undo_type_t)
  | dt_undo_record (type : dt_undo_type_t) (data : list dt_undo_metadata_t)
  | dt_undo_end_group.

(** The state the file works on: its static [_metadata_list], the two tables,
    the configuration, the calls made to the undo module and the signals
    raised. *)
Record state := mk_state {
  _metadata_list : list dt_metadata_t;
  data_meta_data : list dt_metadata_t;
  main_meta_data : list meta_row;
  conf : gmap string Z;
  undo_calls : list undo_call;
  signals : list dt_signal_t
}.

Definition with_metadata_list (l : list dt_metadata_t) (st : state) : state :=
  mk_state l (data_meta_data st) (main_meta_data st) (conf st) (undo_calls st) (signals st).
Definition with_data_meta_data (t : list dt_metadata_t) (st : state) : state :=
  mk_state (_metadata_list st) t (main_meta_data st) (conf st) (undo_calls st) (signals st).
Definition with_main_meta_data (t : list meta_row) (st : state) : state :=
  mk_state (_metadata_list st) (data_meta_data st) t (conf st) (undo_calls st) (signals st).
Definition with_conf (c : gmap string Z) (st : state) : state :=
  mk_state (_metadata_list st) (data_meta_data st) (main_meta_data st) c (undo_calls st) (signals st).
Definition undo_call_add (c : undo_call) (st : state) : state :=
  mk_state (_metadata_list st) (data_meta_data st) (main_meta_data st) (conf st)
           (undo_calls st ++ [c]) (signals st).
Definition signal_raise (s : dt_signal_t) (st : state) : state :=
  mk_state (_metadata_list st) (data_meta_data st) (main_meta_data st) (conf st)
           (undo_calls st) (signals st ++ [s]).

(** *** The SQL statements *)

Module Sql.

(** Modelled from the spec: the table [data.meta_data] and its schema are
    not in this file. The store assigns the id of a new definition (here one
    more than the largest id) and rejects a tag name that is already there;
    the statement's result is not looked at by the caller. *)
Definition fresh_key (t : list dt_metadata_t) : Z :=
  (1 + foldr (λ r acc, Z.max (md.key r) acc) 0 t)%Z.

Definition has_tagname (tag : string) (t : list dt_metadata_t) : bool :=
  existsb (λ r, String.eqb (md.tagname r) tag) t.

(** [INSERT INTO data.meta_data (key, tagname, ...) VALUES (NULL, ?1, ...)] *)
Definition insert_definition (m : dt_metadata_t) (t : list dt_metadata_t)
  : list dt_metadata_t :=
  if has_tagname (md.tagname m) t then t
  else t ++ [md.set_key (fresh_key t) m].

(** [SELECT key FROM data.meta_data WHERE tagname = ?1]: the first row. *)
Definition select_key (tag : string) (t : list dt_metadata_t) : option Z :=
  md.key <$> List.find (λ r, String.eqb (md.tagname r) tag) t.

(** Modelled from the spec: the schema of [main.meta_data] is not in this
    file either; the table is a list of rows (id, key, value) without
    constraints. [DELETE FROM main.meta_data WHERE id = imgid AND key IN (keys)]
    keeps the order of the rows that stay. *)
Definition delete_keys (imgid : Z) (keys : list Z) (t : list meta_row) : list meta_row :=
  List.filter (λ r : meta_row, negb ((r.1.1 =? imgid)%Z && bool_decide (r.1.2 ∈ keys))) t.

(** [INSERT INTO main.meta_data (id, key, value) VALUES rows]: the new rows
    go to the end of the table. *)
Definition insert_rows (rows : list (Z * Z * string)) (t : list meta_row) : list meta_row :=
  t ++ ((λ r : Z * Z * string, (r.1.1, r.1.2, Some r.2)) <$> rows).

(** [SELECT key, value FROM main.meta_data WHERE id = ?1], in table order. *)
Definition select_id (imgid : Z) (t : list meta_row) : list (Z * option string) :=
  (λ r : meta_row, (r.1.2, r.2)) <$> List.filter (λ r : meta_row, (r.1.1 =? imgid)%Z) t.

End Sql.

(** *** Registry functions *)

(** [dt_conf_get_int] on a key that is not set is taken to give 0. *)
Definition dt_conf_get_int (c : gmap string Z) (setting : string) : Z :=
  default 0%Z (c !! setting).

(** [dt_metadata_get_tag_subkey] *)
Definition dt_metadata_get_tag_subkey (tagname : string) : option string :=
  after_last_dot tagname.

(** The text of ["plugins/lighttable/metadata/%s_flag"]; the C library prints
    a NULL string argument as "(null)". *)
Definition flag_setting (metadata_name : option string) : string :=
  "plugins/lighttable/metadata/" +:+ default "(null)" metadata_name +:+ "_flag".

Section externals.
Context `{Externals}.

Definition _set_default_import_flag (metadata : dt_metadata_t) (st : state) : state :=
  let setting := flag_setting (dt_metadata_get_tag_subkey (md.tagname metadata)) in
  if bool_decide (is_Some (conf st !! setting)) then st
  else with_conf (<[setting := DT_METADATA_FLAG_IMPORTED]> (conf st)) st.

(** [dt_metadata_add_metadata]: the new state, the definition as the call
    leaves it, and the result. *)
Definition dt_metadata_add_metadata (metadata : dt_metadata_t) (st : state)
  : state * dt_metadata_t * bool :=
  let st1 := with_data_meta_data (Sql.insert_definition metadata (data_meta_data st)) st in
  match Sql.select_key (md.tagname metadata) (data_meta_data st1) with
  | Some k =>
      let metadata' := md.set_key (to_uint32 k) metadata in
      let st2 := with_metadata_list (metadata' :: _metadata_list st1) st1 in
      (_set_default_import_flag metadata' st2, metadata', true)
  | None => (st1, metadata, false)
  end.

Definition dt_metadata_get_list (st : state) : list dt_metadata_t := _metadata_list st.

(** [dt_metadata_get_metadata_by_tagname] *)
Fixpoint dt_metadata_get_metadata_by_tagname (l : list dt_metadata_t)
    (tagname : option string) : option dt_metadata_t :=
  match l with
  | [] => None
  | metadata :: iter =>
      if (g_strcmp0 (Some (md.tagname metadata)) tagname =? 0)%Z then Some metadata
      else dt_metadata_get_metadata_by_tagname iter tagname
  end.

(** The loop of [dt_metadata_get_keyid]; [result] starts as [(uint32_t)-1]. *)
Fixpoint get_keyid_loop (l : list dt_metadata_t) (k : string) (result : Z) : Z :=
  match l with
  | [] => result
  | metadata :: iter =>
      if (strncmp k (md.tagname metadata) (strlen (md.tagname metadata)) =? 0)%Z
      then md.key metadata
      else get_keyid_loop iter k result
  end.

(** [dt_metadata_get_keyid] *)
Definition dt_metadata_get_keyid (l : list dt_metadata_t) (k : option string) : Z :=
  match k with
  | None => to_uint32 (-1)
  | Some k => get_keyid_loop l k (to_uint32 (-1))
  end.

(** ** Reading and writing an image's rows *)

(** [_bulk_remove_metadata]; a NULL text is the empty list. *)
Definition _bulk_remove_metadata (imgid : Z) (metadata_list : list Z)
    (t : list meta_row) : list meta_row :=
  if dt_is_valid_imgid imgid && negb (bool_decide (metadata_list = []))
  then Sql.delete_keys imgid metadata_list t
  else t.

(** [_bulk_add_metadata] *)
Definition _bulk_add_metadata (metadata_list : list (Z * Z * string))
    (t : list meta_row) : list meta_row :=
  if negb (bool_decide (metadata_list = [])) then Sql.insert_rows metadata_list t
  else t.

(** [_pop_undo_execute] *)
Definition _pop_undo_execute (imgid : Z) (before after : GList)
    (t : list meta_row) : option (list meta_row) :=
  tobe_removed_list ← _get_tb_removed_metadata_string_values before after;
  tobe_added_list ← _get_tb_added_metadata_string_values imgid before after;
  Some (_bulk_add_metadata tobe_added_list
          (_bulk_remove_metadata imgid tobe_removed_list t)).

(** The loop of [_pop_undo]: the table and [*imgs]. *)
Fixpoint _pop_undo_loop (data : list dt_undo_metadata_t) (action : dt_undo_action_t)
    (t : list meta_row) (imgs : list Z) : option (list meta_row * list Z) :=
  match data with
  | [] => Some (t, imgs)
  | undometadata :: list =>
      let before' := if bool_decide (action = DT_ACTION_UNDO)
                     then after undometadata else before undometadata in
      let after' := if bool_decide (action = DT_ACTION_UNDO)
                    then before undometadata else after undometadata in
      t' ← _pop_undo_execute (imgid undometadata) before' after' t;
      _pop_undo_loop list action t' (imgid undometadata :: imgs)
  end.

(** [_pop_undo]: the new state and [*imgs]. *)
Definition _pop_undo (type : dt_undo_type_t) (data : list dt_undo_metadata_t)
    (action : dt_undo_action_t) (imgs : list Z) (st : state)
  : option (state * list Z) :=
  if bool_decide (type = DT_UNDO_METADATA) then
    '(t, imgs') ← _pop_undo_loop data action (main_meta_data st) imgs;
    Some (signal_raise DT_SIGNAL_MOUSE_OVER_IMAGE_CHANGE (with_main_meta_data t st), imgs')
  else Some (st, imgs).

(** [dt_metadata_get_list_id]: the key is read with [sqlite3_column_int] and
    printed with "%d", a NULL value is read as the empty string. *)
Definition dt_metadata_get_list_id (imgid : Z) (t : list meta_row) : GList :=
  if negb (dt_is_valid_imgid imgid) then []
  else flat ((λ r : Z * option string, (print_d (to_int32 r.1), default "" r.2))
               <$> Sql.select_id imgid t).

(** [_cleanup_metadata_value] *)
Fixpoint strip_trailing_spaces (s : string) : string :=
  match s with
  | EmptyString => EmptyString
  | String c r =>
      match strip_trailing_spaces r with
      | EmptyString => if Ascii.eqb c " " then EmptyString else String c EmptyString
      | r' => String c r'
      end
  end.

Fixpoint skip_leading_spaces (s : string) : string :=
  match s with
  | String c r => if Ascii.eqb c " " then skip_leading_spaces r else s
  | EmptyString => s
  end.

Definition _cleanup_metadata_value (value : option string) : string :=
  match value with
  | Some (String _ _ as v) => skip_leading_spaces (strip_trailing_spaces v)
  | _ => ""
  end.

(** ** The mutation engine *)

Definition DT_MA_SET : Z := 0.
Definition DT_MA_ADD : Z := 1.
Definition DT_MA_REMOVE : Z := 2.

(** The [switch] of [_metadata_execute]: the after list of one image. *)
Definition metadata_after (action : Z) (before metadata : GList) : option GList :=
  if (action =? DT_MA_SET)%Z then Some (g_strdup <$> metadata)
  else if (action =? DT_MA_ADD)%Z then
    _metadata_add_metadata_to_list (g_strdup <$> before) metadata
  else if (action =? DT_MA_REMOVE)%Z then
    _metadata_remove_metadata_from_list (g_strdup <$> before) metadata
  else Some (g_strdup <$> before).

(** [_metadata_execute]: the table and [*undo]. *)
Fixpoint _metadata_execute (imgs : list Z) (metadata : GList)
    (undo : list dt_undo_metadata_t) (undo_on : bool) (action : Z)
    (t : list meta_row) : option (list meta_row * list dt_undo_metadata_t) :=
  match imgs with
  | [] => Some (t, undo)
  | imgid :: images =>
      let before := dt_metadata_get_list_id imgid t in
      after ← metadata_after action before metadata;
      let undometadata := mk_undo imgid before after in
      t' ← _pop_undo_execute imgid before after t;
      _metadata_execute images metadata
        (if undo_on then undo ++ [undometadata] else undo) undo_on action t'
  end.

(** The common tail of the setters: open the undo group, run
    [_metadata_execute] with an empty [undo], record and close the group. *)
Definition execute_and_record (imgs : list Z) (metadata : GList) (undo_on : bool)
    (action : Z) (st : state) : option state :=
  let st1 := if undo_on then undo_call_add (dt_undo_start_group DT_UNDO_METADATA) st
             else st in
  '(t, undo) ← _metadata_execute imgs metadata [] undo_on action (main_meta_data st1);
  let st2 := with_main_meta_data t st1 in
  Some (if undo_on
        then undo_call_add dt_undo_end_group
               (undo_call_add (dt_undo_record DT_UNDO_METADATA undo) st2)
        else st2).

(** [dt_metadata_set] *)
Definition dt_metadata_set (imgid : Z) (k value : option string) (undo_on : bool)
    (st : state) : option state :=
  match k with
  | None => Some st
  | Some _ =>
      let keyid := to_int32 (dt_metadata_get_keyid (_metadata_list st) k) in
      if (keyid =? -1)%Z then Some st
      else
        let imgs := if negb (dt_is_valid_imgid imgid) then dt_act_on_get_images
                    else [imgid] in
        if bool_decide (imgs = []) then Some st
        else
          let ckey := print_d keyid in
          let cvalue := _cleanup_metadata_value value in
          execute_and_record imgs [Some ckey; Some cvalue] undo_on DT_MA_ADD st
  end.

(** [dt_metadata_set_import] *)
Definition dt_metadata_set_import (imgid : Z) (k value : option string)
    (st : state) : option state :=
  if bool_decide (k = None) || negb (dt_is_valid_imgid imgid) then Some st
  else
    match dt_metadata_get_metadata_by_tagname (_metadata_list st) k with
    | None => Some st
    | Some md =>
        let imported := negb (dt_image_get_xmp_mode =? DT_WRITE_XMP_NEVER)%Z in
        let imported :=
          if negb imported && (md.internal md =? 0)%Z then
            let setting := flag_setting (dt_metadata_get_tag_subkey (md.tagname md)) in
            negb (Z.land (dt_conf_get_int (conf st) setting)
                         DT_METADATA_FLAG_IMPORTED =? 0)%Z
          else imported in
        if imported then
          let ckey := print_d (to_int32 (md.key md)) in
          let cvalue := _cleanup_metadata_value value in
          '(t, _) ← _metadata_execute [imgid] [Some ckey; Some cvalue] [] false
                       DT_MA_ADD (main_meta_data st);
          Some (with_main_meta_data t st)
        else Some st
    end.

(** The loop of [dt_metadata_set_list] that builds [metadata]: a key that is
    not known is skipped with its value; after a known key the value node is
    dereferenced, and a NULL value is skipped. *)
Fixpoint set_list_payload (l : list dt_metadata_t) (kv : GList) : option GList :=
  match kv with
  | [] => Some []
  | k :: kv1 =>
      let keyid := to_int32 (dt_metadata_get_keyid l k) in
      match kv1 with
      | [] => if (keyid =? -1)%Z then Some [] else None
      | value :: kv2 =>
          tl ← set_list_payload l kv2;
          if (keyid =? -1)%Z then Some tl
          else match value with
               | Some _ =>
                   Some (Some (print_d keyid)
                         :: Some (_cleanup_metadata_value value) :: tl)
               | None => Some tl
               end
      end
  end.

(** [dt_metadata_set_list] *)
Definition dt_metadata_set_list (imgs : list Z) (key_value : GList) (undo_on : bool)
    (st : state) : option state :=
  metadata ← set_list_payload (_metadata_list st) key_value;
  if negb (bool_decide (metadata = [])) && negb (bool_decide (imgs = []))
  then execute_and_record imgs metadata undo_on DT_MA_ADD st
  else Some st.

(** The key list [dt_metadata_clear] builds. *)
Definition clear_payload (l : list dt_metadata_t) : GList :=
  (λ md, Some (print_u (md.key md))) <$>
  List.filter (λ md, (md.internal md =? 0)%Z && negb (md.visible md =? 0)%Z) l.

(** [dt_metadata_clear] *)
Definition dt_metadata_clear (imgs : list Z) (undo_on : bool) (st : state)
  : option state :=
  let metadata := clear_payload (dt_metadata_get_list st) in
  if negb (bool_decide (metadata = []))
  then execute_and_record imgs metadata undo_on DT_MA_REMOVE st
  else Some st.


End externals.

(** An instance of the externals for the examples: ids above 0 are valid,
    the import flag is bit 2, nothing is selected, and side-car files are
    written. *)
Definition example_externals : Externals := {|
  dt_is_valid_imgid := λ n, (0 <? n)%Z;
  DT_METADATA_FLAG_IMPORTED := 4;
  dt_act_on_get_images := [];
  dt_image_get_xmp_mode := 1;
  DT_WRITE_XMP_NEVER := 0
|}.

(** The pairing of a list: an even number of nodes. *)
Definition paired (l : GList) : Prop := Nat.even (length l) = true.

(** The list read for an image, as pairs: what [dt_metadata_get_list_id]
    returns is the layout of these pairs as a list. *)
Definition stored_snapshot `{Externals} (imgid : Z) (t : list meta_row) : snapshot :=
  if dt_is_valid_imgid imgid
  then (λ r : Z * option string, (print_d (to_int32 r.1), default "" r.2))
         <$> Sql.select_id imgid t
  else [].

(** The keys of the rows of an image are in the range of [int]; the rows this
    file writes are, their keys being results of [atoi]. *)
Definition int_keys (imgid : Z) (t : list meta_row) : Prop :=
  ∀ r : meta_row, r ∈ t → r.1.1 = imgid → (- 2 ^ 31 ≤ r.1.2 < 2 ^ 31)%Z.

(** Vocabulary for the cleaning of values: a run of [n] spaces, and whether
    a text begins or ends with a space. *)
Fixpoint spaces (n : nat) : string :=
  match n with
  | O => EmptyString
  | S n' => String " " (spaces n')
  end.

Definition starts_with_space (s : string) : bool :=
  match s with
  | String c _ => Ascii.eqb c " "
  | EmptyString => false
  end.

Fixpoint ends_with_space (s : string) : bool :=
  match s with
  | EmptyString => false
  | String c EmptyString => Ascii.eqb c " "
  | String _ r => ends_with_space r
  end.

(** ** The remaining functions of the file *)

(** An element of the list [dt_metadata_get] returns: an integer stored in
    the pointer ([GINT_TO_POINTER]) or a string. *)
Inductive metadata_item :=
  | item_int (z : Z)
  | item_string (s : option string).

(** The rows that the statements on tables other than [main.meta_data] and
    on the selection answer with, in the order the statement steps through
    them; the tables themselves belong to other modules. *)
Class Queries := {
  (** [SELECT flags FROM main.images WHERE id IN (SELECT imgid FROM
      main.selected_images)] *)
  select_flags_selected : list Z;
  (** [SELECT flags FROM main.images WHERE id = ?1] *)
  select_flags : Z → list Z;
  (** [SELECT name FROM data.tags t JOIN main.tagged_images i ...
      WHERE imgid IN (SELECT imgid FROM main.selected_images)] *)
  select_tag_names_selected : list (option string);
  (** the same [WHERE imgid = ?1] *)
  select_tag_names : Z → list (option string);
  (** [SELECT color FROM main.color_labels WHERE imgid IN (...)] *)
  select_colors_selected : list Z;
  (** [SELECT color FROM main.color_labels WHERE imgid=?1 ORDER BY color] *)
  select_colors : Z → list Z;
  (** [SELECT value FROM main.meta_data WHERE id IN (SELECT imgid FROM
      main.selected_images) AND key = ?1 ORDER BY value] *)
  select_values_selected : list meta_row → Z → list (option string);
  (** [SELECT key, tagname, ... FROM data.meta_data ORDER BY display_order] *)
  select_definitions : list dt_metadata_t → list dt_metadata_t
}.

(** [SELECT value FROM main.meta_data WHERE id = ?1 AND key = ?2], in table
    order. *)
Definition select_value (imgid keyid : Z) (t : list meta_row) : list (option string) :=
  (λ r : meta_row, r.2) <$>
  List.filter (λ r : meta_row, (r.1.1 =? imgid)%Z && (r.1.2 =? keyid)%Z) t.

(** [SELECT COUNT( * ) FROM main.meta_data WHERE value=?1], read with
    [sqlite3_column_int]. *)
Definition count_value (id : string) (t : list meta_row) : Z :=
  to_int32 (Z.of_nat (length
    (List.filter (λ r : meta_row, bool_decide (r.2 = Some id)) t))).

(** A [while(sqlite3_step(stmt) == SQLITE_ROW)] loop of [dt_metadata_get]:
    each row bumps the [uint32_t] count and is prepended; the list is reversed
    at the end. *)
Definition collect_rows {A} (f : A → metadata_item) (rows : list A)
  : list metadata_item * Z :=
  let '(result, local_count) :=
    fold_left (λ (acc : list metadata_item * Z) row,
                 (f row :: acc.1, to_uint32 (acc.2 + 1))) rows ([], 0%Z) in
  (rev result, local_count).

Section more.
Context `{Externals} `{Queries}.

(** [dt_metadata_get_metadata_by_keyid] *)
Fixpoint dt_metadata_get_metadata_by_keyid (l : list dt_metadata_t) (keyid : Z)
  : option dt_metadata_t :=
  match l with
  | [] => None
  | metadata :: iter =>
      if (md.key metadata =? keyid)%Z then Some metadata
      else dt_metadata_get_metadata_by_keyid iter keyid
  end.

(** [dt_metadata_get_key] *)
Fixpoint dt_metadata_get_key (l : list dt_metadata_t) (keyid : Z) : option string :=
  match l with
  | [] => None
  | metadata :: iter =>
      if (md.key metadata =? keyid)%Z then Some (md.tagname metadata)
      else dt_metadata_get_key iter keyid
  end.

(** The loop of [dt_metadata_get_key_by_subkey]. *)
Fixpoint get_key_by_subkey_loop (l : list dt_metadata_t) (subkey : option string)
  : option string :=
  match l with
  | [] => None
  | metadata :: iter =>
      match after_last_dot (md.tagname metadata) with
      | Some t =>
          if (g_strcmp0 (Some t) subkey =? 0)%Z then Some (md.tagname metadata)
          else get_key_by_subkey_loop iter subkey
      | None => get_key_by_subkey_loop iter subkey
      end
  end.

(** [dt_metadata_get_key_by_subkey] *)
Definition dt_metadata_get_key_by_subkey (l : list dt_metadata_t)
    (subkey : option string) : option string :=
  match subkey with
  | Some _ => get_key_by_subkey_loop l subkey
  | None => None
  end.

(** The entry [dt_metadata_init] builds from a row of the statement: the
    integer columns are read with [sqlite3_column_int]; the key goes from the
    [int] to the [uint32_t] field. *)
Definition init_entry (row : dt_metadata_t) : dt_metadata_t :=
  let key := to_int32 (md.key row) in
  let internal := to_int32 (md.internal row) in
  let visible := to_int32 (md.visible row) in
  let private := to_int32 (md.priv row) in
  let display_order := to_int32 (md.display_order row) in
  md.mk (to_uint32 key) (md.tagname row) (md.name row) internal visible private
        display_order.

(** The loop of [dt_metadata_init] over the rows of the statement: the entry
    is prepended and its import flag is primed. *)
Fixpoint init_loop (rows : list dt_metadata_t) (st : state) : state :=
  match rows with
  | [] => st
  | row :: rest =>
      let metadata := init_entry row in
      let st1 := with_metadata_list (metadata :: _metadata_list st) st in
      init_loop rest (_set_default_import_flag metadata st1)
  end.

(** [dt_metadata_init] *)
Definition dt_metadata_init (st : state) : state :=
  let st1 := init_loop (select_definitions (data_meta_data st))
               (with_metadata_list [] st) in
  with_metadata_list (rev (_metadata_list st1)) st1.

(** [dt_metadata_get]: the list and the count; [None] when the NULL key is
    handed to [strncmp]. *)
Definition dt_metadata_get (imgid : Z) (k : option string) (st : state)
  : option (list metadata_item * Z) :=
  let keyid := to_int32 (dt_metadata_get_keyid (_metadata_list st) k) in
  if (keyid =? -1)%Z then
    k' ← k;
    if (strncmp k' "Xmp.xmp.Rating" 14 =? 0)%Z then
      Some (collect_rows (λ flags, let stars := to_int32 flags in
                                   item_int (Z.land stars 7 - 1))
              (if negb (dt_is_valid_imgid imgid) then select_flags_selected
               else select_flags imgid))
    else if (strncmp k' "Xmp.dc.subject" 14 =? 0)%Z then
      Some (collect_rows (λ name, item_string (g_strdup name))
              (if negb (dt_is_valid_imgid imgid) then select_tag_names_selected
               else select_tag_names imgid))
    else if (strncmp k' "Xmp.darktable.colorlabels" 25 =? 0)%Z then
      Some (collect_rows (λ color, item_int (to_int32 color))
              (if negb (dt_is_valid_imgid imgid) then select_colors_selected
               else select_colors imgid))
    else Some ([], 0%Z)
  else
    Some (collect_rows (λ value, item_string (Some (default "" value)))
            (if negb (dt_is_valid_imgid imgid)
             then select_values_selected (main_meta_data st) keyid
             else select_value imgid keyid (main_meta_data st))).

(** [dt_metadata_get_lock]: the same under the mutex. *)
Definition dt_metadata_get_lock (imgid : Z) (k : option string) (st : state)
  : option (list metadata_item * Z) :=
  dt_metadata_get imgid k st.

(** [dt_metadata_set_import_lock]: the same under the mutex. *)
Definition dt_metadata_set_import_lock (imgid : Z) (k value : option string)
    (st : state) : option state :=
  dt_metadata_set_import imgid k value st.

(** [dt_metadata_already_imported] *)
Definition dt_metadata_already_imported (filename datetime : option string)
    (t : list meta_row) : bool :=
  match filename, datetime with
  | Some f, Some d => negb (count_value (f +:+ "-" +:+ d) t =? 0)%Z
  | _, _ => false
  end.

End more.

(** The queries answer with no rows in the examples. *)
Definition example_queries : Queries := {|
  select_flags_selected := [];
  select_flags := λ _, [];
  select_tag_names_selected := [];
  select_tag_names := λ _, [];
  select_colors_selected := [];
  select_colors := λ _, [];
  select_values_selected := λ _ _, [];
  select_definitions := λ t, t
|}.

(** The pairs of a list whose value is not empty: what the table holds of
    it. *)
Definition stored_part (s : snapshot) : snapshot :=
  List.filter (λ p, negb (String.eqb p.2 "")) s.

(** The keys of a list are key ids as "%d" prints an [int]: [atoi] reads
    the number back, and the number printed is the text. *)
Definition printed_keys (s : snapshot) : Prop :=
  ∀ k, k ∈ s.*1 → print_d (atoi k) = k.

(** A table and a list agree for an image: the image's rows read as pairs
    without repetition, every one of them is in the list, and every pair of
    the list with a value is among them. *)
Definition table_agrees `{Externals} (imgid : Z) (t : list meta_row) (s : snapshot)
  : Prop :=
  NoDup (stored_snapshot imgid t) ∧
  (∀ p, p ∈ stored_snapshot imgid t → p ∈ s) ∧
  (∀ p, p ∈ stored_part s → p ∈ stored_snapshot imgid t).

(** Vocabulary for a batch over several images. An undo entry whose lists
    are lists of pairs is written as the triple of the image, the before pairs
    and the after pairs; [diff_step] is the table after the diff of one triple
    has been applied to a valid image: the keys removed, then the rows
    inserted. *)
Abbreviation undo_triple := (Z * snapshot * snapshot)%type.








(** [int_keys] on a table that is written out: row by row. *)
Ltac int_keys_by_rows :=
  unfold int_keys;
  let r := fresh "r" in
  let Hr := fresh "Hr" in
  intros r Hr; apply list_elem_of_In in Hr; simpl in Hr;
  repeat (destruct Hr as [<-|Hr]; [intros _; simpl; lia|]);
  destruct Hr.

(** * Properties *)

(** ** Sample runs *)

Example atoi_ex1 : atoi "  -42abc" = (-42)%Z.
Proof. reflexivity. Qed.

(** [atoi] answers with an [int]. *)
Example atoi_ex2 :
  atoi "4294967297" = 1%Z ∧ atoi "2147483648" = (-2147483648)%Z ∧
  atoi "99999999999999999999" = (-1)%Z.
Proof. repeat split; vm_compute; reflexivity. Qed.

(** A key that does not fit an [int] is read reduced: the row with the key
    4294967297 is read as key "1". *)
Example get_list_id_ex1 :
  @dt_metadata_get_list_id example_externals 7
    [(7, 4294967297, Some "big"); (7, 2, None); (8, 1, Some "x")]%Z
  = flat [("1", "big"); ("2", "")].
Proof. vm_compute. reflexivity. Qed.

Example print_d_ex1 : print_d (-1205) = "-1205" /\ print_u (-1) = "4294967295".
Proof. split; vm_compute; reflexivity. Qed.

Example after_last_dot_ex1 : after_last_dot "Xmp.dc.creator" = Some "creator".
Proof. reflexivity. Qed.

Example removed_ex1 :
  _get_tb_removed_metadata_string_values
    (flat [("1", "Ann"); ("2", "x"); ("3", "")])
    (flat [("1", "Bea"); ("3", "")]) = Some [1; 2; 3]%Z.
Proof. reflexivity. Qed.

Example added_ex1 :
  _get_tb_added_metadata_string_values 7
    (flat [("1", "Ann"); ("2", "x")])
    (flat [("1", "Bea"); ("2", "x"); ("4", ""); ("5", "n")])
  = Some [(7, 1, "Bea"); (7, 5, "n")]%Z.
Proof. reflexivity. Qed.

Example add_to_list_ex1 :
  _metadata_add_metadata_to_list (flat [("1", "a"); ("2", "b")])
    (flat [("2", "c"); ("3", "d"); ("1", "a")])
  = Some (flat [("1", "a"); ("2", "c"); ("3", "d")]).
Proof. reflexivity. Qed.

Example remove_from_list_ex1 :
  _metadata_remove_metadata_from_list (flat [("1", "a"); ("2", "b"); ("3", "c")])
    [Some "2"; Some "9"; None]
  = Some (flat [("1", "a"); ("3", "c")]).
Proof. reflexivity. Qed.

(** The scenarios of the specification, with "creator" registered under the
    id 1: a first value is inserted, a second value replaces it, the empty
    value deletes the key. *)
Example scenario_set_replace_delete :
  let creator := md.mk 1 "Xmp.dc.creator" "creator" 0 1 0 0 in
  let st0 := mk_state [creator] [creator] [] ∅ [] [] in
  let write (v : string) (st : state) : option state :=
    @dt_metadata_set example_externals 7 (Some "Xmp.dc.creator") (Some v) false st in
  main_meta_data <$> write "Ann" st0 = Some [(7, 1, Some "Ann")]%Z ∧
  main_meta_data <$> (write "Ann" st0 ≫= write " Bea ")
    = Some [(7, 1, Some "Bea")]%Z ∧
  main_meta_data <$> ((write "Ann" st0 ≫= write " Bea ") ≫= write "") = Some [].
Proof. repeat split; vm_compute; reflexivity. Qed.

(** ** Facts about the C library functions *)

Lemma strcmp_refl s : strcmp s s = 0%Z.
Proof. induction s as [|c r IH]; simpl; [done|]. by rewrite Ascii.eqb_refl. Qed.

Lemma strcmp_zero s1 s2 : strcmp s1 s2 = 0%Z ↔ s1 = s2.
Proof.
  split; [|intros ->; apply strcmp_refl].
  revert s2; induction s1 as [|c1 r1 IH]; intros [|c2 r2]; simpl; try done.
  destruct (Ascii.eqb c1 c2) eqn:E.
  - apply Ascii.eqb_eq in E as ->. intros H. by rewrite (IH _ H).
  - by destruct (N_of_ascii c1 <? N_of_ascii c2)%N.
Qed.

Lemma strcmp_eqb s1 s2 : (strcmp s1 s2 =? 0)%Z = String.eqb s1 s2.
Proof.
  destruct (String.eqb s1 s2) eqn:E.
  - apply String.eqb_eq in E as ->. by rewrite strcmp_refl.
  - apply String.eqb_neq in E. apply Z.eqb_neq. by rewrite strcmp_zero.
Qed.

Lemma g_strcmp0_zero a b : g_strcmp0 a b = 0%Z ↔ a = b.
Proof.
  destruct a as [x|], b as [y|]; simpl; try done.
  rewrite strcmp_zero. naive_solver.
Qed.

Lemma key_matches_Some k' k : key_matches (Some k') (Some k) = String.eqb k' k.
Proof. apply strcmp_eqb. Qed.

Lemma key_matches_None_r d : key_matches d None = false.
Proof. by destruct d. Qed.

(** ** The search on a list of pairs *)

Section find.
Import DiffSpec.

Lemma flat_app s1 s2 : flat (s1 ++ s2) = flat s1 ++ flat s2.
Proof. induction s1 as [|[k v] r IH]; simpl; [done|]. by rewrite IH. Qed.

Lemma length_flat s : length (flat s) = 2 * length s.
Proof. induction s as [|[k v] r IH]; simpl; [done|]. rewrite IH. lia. Qed.

Lemma find_from_shift i l data :
  _list_find_from i l data = (λ j, i + j) <$> _list_find_from 0 l data.
Proof.
  revert i. induction l as [l IH] using (induction_ltof1 _ (@length _)).
  unfold ltof in IH. intros i. destruct l as [|d tl']; simpl; [done|].
  destruct (key_matches d data); simpl; [f_equal; lia|].
  destruct tl' as [|d2 tl'']; [done|].
  assert (Hlt : length tl'' < length (d :: d2 :: tl'')) by (simpl; lia).
  rewrite (IH tl'' Hlt (S (S i))), (IH tl'' Hlt 2).
  destruct (_list_find_from 0 tl'' data); simpl; [f_equal; lia|done].
Qed.

Lemma find_flat_cons k' v' s k :
  _list_find_custom (flat ((k', v') :: s)) (Some k) =
  if String.eqb k' k then Some 0
  else (λ j, S (S j)) <$> _list_find_custom (flat s) (Some k).
Proof.
  unfold _list_find_custom. cbn [flat _list_find_from]. rewrite key_matches_Some.
  destruct (String.eqb k' k); [done|]. by rewrite find_from_shift.
Qed.

Lemma find_flat_None k s :
  first_value k s = None → _list_find_custom (flat s) (Some k) = None.
Proof.
  induction s as [|[k' v'] r IH]; [done|]. rewrite find_flat_cons. simpl.
  destruct (String.eqb k' k); [done|]. intros H. by rewrite IH.
Qed.

Lemma find_flat_Some k s v :
  first_value k s = Some v →
  ∃ i, _list_find_custom (flat s) (Some k) = Some i ∧
       flat s !! i = Some (Some k) ∧ flat s !! S i = Some (Some v).
Proof.
  induction s as [|[k' v'] r IH]; [done|]. rewrite find_flat_cons. simpl.
  destruct (String.eqb k' k) eqn:E.
  - intros [= ->]. apply String.eqb_eq in E as ->. by exists 0.
  - intros H. destruct (IH H) as (i & -> & ? & ?). by exists (S (S i)).
Qed.

(** The comparison of values the three loops make after the search. *)
Lemma different_value_flat k v s :
  different_value_at (flat s) (_list_find_custom (flat s) (Some k)) (Some v) =
  Some (match first_value k s with
        | Some v' => negb (String.eqb v' v)
        | None => false
        end).
Proof.
  destruct (first_value k s) as [v'|] eqn:E.
  - destruct (find_flat_Some _ _ _ E) as (i & -> & _ & H2). simpl.
    rewrite H2. simpl. by rewrite strcmp_eqb.
  - by rewrite (find_flat_None _ _ E).
Qed.

Lemma find_flat_is_None k s :
  bool_decide (_list_find_custom (flat s) (Some k) = None) =
  bool_decide (first_value k s = None).
Proof.
  destruct (first_value k s) as [v'|] eqn:E.
  - destruct (find_flat_Some _ _ _ E) as (i & -> & _). done.
  - by rewrite (find_flat_None _ _ E).
Qed.
End find.

(** ** The diff computes what the specification describes *)

Section diff.
Import DiffSpec.

Lemma is_empty_value_Some v : is_empty_value (Some v) = Some (String.eqb v "").
Proof. by destruct v. Qed.

Lemma tb_removed_flat before after :
  _get_tb_removed_metadata_string_values (flat before) (flat after) =
  Some (removals before after).
Proof.
  unfold removals. induction before as [|[k v] r IH]; [done|].
  cbn [flat _get_tb_removed_metadata_string_values].
  rewrite different_value_flat, find_flat_is_None, IH, is_empty_value_Some.
  unfold marked_for_removal at 2. cbn [List.filter fst snd].
  destruct (first_value k after) as [v'|] eqn:E; simpl.
  - destruct (String.eqb v' v) eqn:Ev; simpl.
    + apply String.eqb_eq in Ev as ->. by destruct (String.eqb v "").
    + done.
  - done.
Qed.

Lemma tb_added_flat imgid before after :
  _get_tb_added_metadata_string_values imgid (flat before) (flat after) =
  Some (insertions imgid before after).
Proof.
  unfold insertions. induction after as [|[k v] r IH]; [done|].
  cbn [flat _get_tb_added_metadata_string_values].
  rewrite different_value_flat, find_flat_is_None, IH, is_empty_value_Some.
  unfold emits_insertion at 2. cbn [List.filter fst snd].
  destruct (first_value k before) as [v'|] eqn:E; simpl.
  - destruct (String.eqb v' v) eqn:Ev; simpl; [|by destruct (String.eqb v "")].
    by rewrite andb_false_r.
  - by destruct (String.eqb v "").
Qed.
End diff.

(** ** Merging and removing on lists of pairs *)

Section merge.
Import DiffSpec.

Lemma insert_value_flat k v s i :
  _list_find_custom (flat s) (Some k) = Some i →
  <[S i := Some v]> (flat s) = flat (overwrite_first k v s).
Proof.
  revert i. induction s as [|[k' v'] r IH]; intros i; [done|].
  rewrite find_flat_cons. simpl. destruct (String.eqb k' k).
  - by intros [= <-].
  - destruct (_list_find_custom (flat r) (Some k)) as [j|] eqn:E; [|done].
    intros [= <-]. simpl. by rewrite (IH j).
Qed.

Lemma overwrite_first_same k v s :
  first_value k s = Some v → overwrite_first k v s = s.
Proof.
  induction s as [|[k' v'] r IH]; [done|]. simpl.
  destruct (String.eqb k' k); [by intros [= ->]|]. intros Hf. by rewrite IH.
Qed.

Lemma fmap_g_strdup (l : GList) : g_strdup <$> l = l.
Proof. apply list_fmap_id. Qed.

Lemma add_to_list_flat payload before :
  _metadata_add_metadata_to_list (flat before) (flat payload) =
  Some (flat (merge before payload)).
Proof.
  unfold merge. revert before.
  induction payload as [|[k v] r IH]; intros before; [done|].
  cbn [flat _metadata_add_metadata_to_list fold_left].
  rewrite different_value_flat. cbn [mbind option_bind].
  unfold merge_pair at 2. cbn [fst snd].
  destruct (first_value k before) as [v'|] eqn:E.
  - destruct (find_flat_Some _ _ _ E) as (i & Hi & _). rewrite Hi.
    destruct (String.eqb v' v) eqn:Ev; cbn [negb].
    + apply String.eqb_eq in Ev as ->. by rewrite overwrite_first_same, IH.
    + unfold g_strdup. by rewrite (insert_value_flat _ _ _ _ Hi), IH.
  - rewrite (find_flat_None _ _ E). unfold g_strdup.
    change [Some k; Some v] with (flat [(k, v)]). by rewrite <- flat_app, IH.
Qed.

Lemma metadata_after_add_flat before payload :
  metadata_after DT_MA_ADD (flat before) (flat payload) =
  Some (flat (merge before payload)).
Proof.
  unfold metadata_after. simpl. rewrite fmap_g_strdup. apply add_to_list_flat.
Qed.

Lemma delete_pair_flat k s i :
  _list_find_custom (flat s) (Some k) = Some i →
  delete i (delete i (flat s)) = flat (remove_first k s).
Proof.
  revert i. induction s as [|[k' v'] r IH]; intros i; [done|].
  rewrite find_flat_cons. simpl. destruct (String.eqb k' k).
  - by intros [= <-].
  - destruct (_list_find_custom (flat r) (Some k)) as [j|] eqn:E; [|done].
    intros [= <-]. simpl. by rewrite (IH j).
Qed.

Lemma remove_first_absent k s : first_value k s = None → remove_first k s = s.
Proof.
  induction s as [|[k' v'] r IH]; [done|]. simpl.
  destruct (String.eqb k' k); [done|]. intros Hf. by rewrite IH.
Qed.

(** Removing a list of keys from a list of pairs. *)
Lemma remove_from_list_flat (keys : list string) s :
  _metadata_remove_metadata_from_list (flat s) (Some <$> keys) =
  Some (flat (fold_left (λ acc k, remove_first k acc) keys s)).
Proof.
  revert s. induction keys as [|k r IH]; intros s; [done|].
  cbn [fmap list_fmap _metadata_remove_metadata_from_list fold_left].
  destruct (first_value k s) as [v'|] eqn:E.
  - destruct (find_flat_Some _ _ _ E) as (i & Hi & _ & H2). rewrite Hi.
    cbv beta iota. rewrite H2.
    cbn [mbind option_bind]. by rewrite (delete_pair_flat _ _ _ Hi), IH.
  - rewrite (find_flat_None _ _ E). by rewrite remove_first_absent, IH.
Qed.
End merge.

(** C3. Under the add action the after list is the before list with the
    pairs of the payload merged in, one after the other: a key that is
    present gets the new value at its first pair, in place; a key that is
    absent is appended with its value at the end. *)
Theorem merge_add_after (before_s payload : snapshot) :
  _metadata_add_metadata_to_list (flat before_s) (flat payload) =
    Some (flat (fold_left DiffSpec.merge_pair payload before_s)) ∧
  metadata_after DT_MA_ADD (flat before_s) (flat payload) =
    Some (flat (fold_left DiffSpec.merge_pair payload before_s)).
Proof.
  split; [apply add_to_list_flat | apply metadata_after_add_flat].
Qed.

(** ** Pairs that the diff leaves alone *)

Section unchanged.
Import DiffSpec.

Lemma removals_app b1 b2 a :
  removals (b1 ++ b2) a = removals b1 a ++ removals b2 a.
Proof. unfold removals. by rewrite List.filter_app, fmap_app. Qed.

Lemma insertions_app imgid b a1 a2 :
  insertions imgid b (a1 ++ a2) = insertions imgid b a1 ++ insertions imgid b a2.
Proof. unfold insertions. by rewrite List.filter_app, fmap_app. Qed.

Lemma marked_false after p :
  marked_for_removal after p = false ↔
  first_value p.1 after = Some p.2 ∧ p.2 ≠ "".
Proof.
  unfold marked_for_removal. destruct (first_value p.1 after) as [v'|].
  - rewrite orb_false_iff, negb_false_iff, String.eqb_eq, String.eqb_neq.
    split; [intros [-> ?]; done | intros [[= ->] ?]; done].
  - split; [done | by intros [? _]].
Qed.

Lemma emits_false before p :
  emits_insertion before p = false ↔
  p.2 = "" ∨ first_value p.1 before = Some p.2.
Proof.
  unfold emits_insertion. rewrite andb_false_iff, negb_false_iff, String.eqb_eq.
  destruct (first_value p.1 before) as [v'|].
  - rewrite negb_false_iff, String.eqb_eq.
    split; [intros [?|?]; [by left | right; congruence]
           | intros [?|?]; [by left | right; congruence]].
  - split; [intros [?|?]; [by left | done] | intros [?|?]; [by left | done]].
Qed.

(** A pair that is inserted has a key that is removed. *)
Lemma emits_marked s p : emits_insertion s p = true → marked_for_removal s p = true.
Proof.
  unfold emits_insertion, marked_for_removal.
  destruct (first_value p.1 s) as [v'|]; [|done].
  intros [_ ->]%andb_true_iff. done.
Qed.

Lemma filter_nil_iff {A} (f : A → bool) (l : list A) :
  List.filter f l = [] ↔ ∀ x, x ∈ l → f x = false.
Proof.
  induction l as [|a l IH]; simpl.
  - split; [intros _ x Hx; by apply elem_of_nil in Hx | done].
  - destruct (f a) eqn:E.
    + split; [done|]. intros Hall. specialize (Hall a (list_elem_of_here _ _)).
      congruence.
    + rewrite IH. split.
      * intros Hall x [->|Hx]%elem_of_cons; auto.
      * intros Hall x Hx. apply Hall. by apply list_elem_of_further.
Qed.

Lemma fmap_nil_iff {A B} (f : A → B) (l : list A) : f <$> l = [] ↔ l = [].
Proof. split; [apply fmap_nil_inv | by intros ->]. Qed.

Lemma removals_nil_iff b a :
  removals b a = [] ↔ ∀ p, p ∈ b → marked_for_removal a p = false.
Proof. unfold removals. by rewrite fmap_nil_iff, filter_nil_iff. Qed.

Lemma insertions_nil_iff imgid b a :
  insertions imgid b a = [] ↔ ∀ p, p ∈ a → emits_insertion b p = false.
Proof. unfold insertions. by rewrite fmap_nil_iff, filter_nil_iff. Qed.
End unchanged.

(** C4, as the code has it. The diff of a list with itself is empty exactly
    when every value of the list is non-empty and is the value of the first
    pair with its key; a pair of the before list whose value is non-empty and
    is the value of the first pair of the after list with its key adds no
    removal, and a pair of the after list whose value is that of the first
    pair of the before list with its key adds no insertion. *)
Theorem diff_unchanged_pairs :
  (∀ (imgid : Z) (s : snapshot),
     (_get_tb_removed_metadata_string_values (flat s) (flat s) = Some [] ∧
      _get_tb_added_metadata_string_values imgid (flat s) (flat s) = Some []) ↔
     (∀ p, p ∈ s → p.2 ≠ "" ∧ DiffSpec.first_value p.1 s = Some p.2)) ∧
  (∀ (k v : string) (b1 b2 a : snapshot),
     v ≠ "" → DiffSpec.first_value k a = Some v →
     _get_tb_removed_metadata_string_values (flat (b1 ++ (k, v) :: b2)) (flat a) =
     _get_tb_removed_metadata_string_values (flat (b1 ++ b2)) (flat a)) ∧
  (∀ (imgid : Z) (k v : string) (a1 a2 b : snapshot),
     DiffSpec.first_value k b = Some v →
     _get_tb_added_metadata_string_values imgid (flat b) (flat (a1 ++ (k, v) :: a2)) =
     _get_tb_added_metadata_string_values imgid (flat b) (flat (a1 ++ a2))).
Proof.
  split; [|split].
  - intros imgid s. rewrite tb_removed_flat, tb_added_flat. split.
    + intros [[= Hr] _] p Hp. rewrite removals_nil_iff in Hr.
      apply Hr, marked_false in Hp. by destruct Hp.
    + intros Hall. split; f_equal.
      * apply removals_nil_iff. intros p Hp. apply marked_false.
        by destruct (Hall p Hp).
      * apply insertions_nil_iff. intros p Hp. apply emits_false.
        right. by destruct (Hall p Hp).
  - intros k v b1 b2 a Hv Hf. rewrite !tb_removed_flat. f_equal.
    rewrite (removals_app b1 ((k, v) :: b2)), (removals_app b1 b2). f_equal.
    unfold DiffSpec.removals. simpl.
    assert (DiffSpec.marked_for_removal a (k, v) = false) as ->; [|done].
    by apply marked_false.
  - intros imgid k v a1 a2 b Hf. rewrite !tb_added_flat. f_equal.
    rewrite (insertions_app _ _ a1 ((k, v) :: a2)), (insertions_app _ _ a1 a2).
    f_equal. unfold DiffSpec.insertions. simpl.
    assert (DiffSpec.emits_insertion b (k, v) = false) as ->; [|done].
    apply emits_false. by right.
Qed.

Lemma diff_unchanged_pairs_witness :
  _get_tb_removed_metadata_string_values
    (flat ([("1", "a")] ++ ("2", "b") :: [("3", "c")])) (flat [("2", "b")]) =
  _get_tb_removed_metadata_string_values
    (flat ([("1", "a")] ++ [("3", "c")])) (flat [("2", "b")]).
Proof.
  apply (proj1 (proj2 diff_unchanged_pairs) "2" "b" [("1", "a")] [("3", "c")]
           [("2", "b")]); [discriminate | reflexivity].
Defined.

(** C4 as stated fails: a list whose only pair has the empty value, compared
    with itself, yields the removal of that key. *)
Lemma diff_identical_counterexample :
  _get_tb_removed_metadata_string_values (flat [("1", "")]) (flat [("1", "")])
    = Some [1%Z] ∧
  ¬ (∀ s : snapshot,
       _get_tb_removed_metadata_string_values (flat s) (flat s) = Some []).
Proof.
  split; [reflexivity|]. intros Hall. specialize (Hall [("1", "")]). discriminate.
Qed.

(** ** Lists of even length *)

Section pairing.
Context `{Externals}.

Lemma paired_flat s : paired (flat s).
Proof.
  unfold paired. rewrite length_flat. apply Nat.even_spec. by exists (length s).
Qed.

Lemma even_length_ind (P : GList → Prop) :
  P [] → (∀ a b l, paired l → P l → P (a :: b :: l)) → ∀ l, paired l → P l.
Proof.
  intros Hnil Hstep l. induction l as [l IH] using (induction_ltof1 _ (@length _)).
  unfold ltof in IH. destruct l as [|a [|b l]]; [done|done|].
  intros Hp. apply Hstep; [exact Hp|]. apply IH; [simpl; lia | exact Hp].
Qed.

(** The search answers with the index of a key node. *)
Lemma find_from_bound j l d i :
  _list_find_from j l d = Some i → ∃ n, i = j + 2 * n ∧ 2 * n < length l.
Proof.
  revert j. induction l as [l IH] using (induction_ltof1 _ (@length _)).
  unfold ltof in IH. intros j. destruct l as [|a tl]; [done|]. simpl.
  destruct (key_matches a d).
  - intros [= <-]. exists 0. lia.
  - destruct tl as [|b tl']; [done|]. intros Hf.
    apply IH in Hf as (n & -> & Hn); [|simpl; lia]. exists (S n). simpl. lia.
Qed.

Lemma find_value_node l d i :
  paired l → _list_find_custom l d = Some i → is_Some (l !! S i).
Proof.
  intros Hp Hf. apply find_from_bound in Hf as (n & -> & Hn).
  apply lookup_lt_is_Some. apply Nat.even_spec in Hp as [m Hm]. lia.
Qed.

Lemma add_to_list_paired metadata : paired metadata → ∀ list, paired list →
  ∃ l', _metadata_add_metadata_to_list list metadata = Some l' ∧ paired l'.
Proof.
  revert metadata.
  apply (even_length_ind (λ metadata, ∀ list, paired list →
    ∃ l', _metadata_add_metadata_to_list list metadata = Some l' ∧ paired l')).
  - intros list Hl. by exists list.
  - intros k v rest Hrest IH list Hl. cbn [_metadata_add_metadata_to_list].
    destruct (_list_find_custom list k) as [i|] eqn:Hf.
    + destruct (find_value_node _ _ _ Hl Hf) as [x Hx].
      unfold different_value_at. rewrite Hx. cbn [mbind option_bind].
      apply IH. destruct (negb _); [|done].
      unfold paired. by rewrite length_insert.
    + cbn [different_value_at mbind option_bind]. apply IH.
      unfold paired in *. rewrite length_app. simpl.
      rewrite Nat.add_comm. exact Hl.
Qed.

Lemma remove_from_list_paired metadata : ∀ list, paired list →
  ∃ l', _metadata_remove_metadata_from_list list metadata = Some l' ∧ paired l'.
Proof.
  induction metadata as [|k rest IH]; intros list Hl; [by exists list|].
  cbn [_metadata_remove_metadata_from_list].
  destruct (_list_find_custom list k) as [i|] eqn:Hf; [|by apply IH].
  destruct (find_value_node _ _ _ Hl Hf) as [x Hx]. rewrite Hx.
  cbn [mbind option_bind]. apply IH.
  assert (Hi : is_Some (list !! i)).
  { apply lookup_lt_is_Some. apply lookup_lt_Some in Hx. lia. }
  assert (Hi' : is_Some (delete i list !! i)).
  { apply lookup_lt_is_Some. rewrite length_delete by done.
    apply lookup_lt_Some in Hx. lia. }
  unfold paired in *. rewrite !length_delete by done.
  apply lookup_lt_Some in Hx.
  destruct (length list) as [|[|n]]; [lia|lia|]. simpl in *.
  by rewrite Nat.sub_0_r.
Qed.

Lemma get_list_id_flat imgid t :
  dt_metadata_get_list_id imgid t = flat (stored_snapshot imgid t).
Proof.
  unfold dt_metadata_get_list_id, stored_snapshot.
  by destruct (dt_is_valid_imgid imgid).
Qed.
End pairing.

(** C9. The list read for an image has even length; adding a payload of even
    length to a list of even length returns a list of even length; removing
    any list of keys from a list of even length returns a list of even
    length. Neither call stops on a NULL node. *)
Theorem pairing_invariant `{Externals} :
  (∀ imgid t, paired (dt_metadata_get_list_id imgid t)) ∧
  (∀ list metadata, paired list → paired metadata →
     ∃ l', _metadata_add_metadata_to_list list metadata = Some l' ∧ paired l') ∧
  (∀ list metadata, paired list →
     ∃ l', _metadata_remove_metadata_from_list list metadata = Some l' ∧ paired l').
Proof.
  split; [|split].
  - intros imgid t. rewrite get_list_id_flat. apply paired_flat.
  - intros list metadata Hl Hm. by apply add_to_list_paired.
  - intros list metadata Hl. by apply remove_from_list_paired.
Qed.

Lemma pairing_invariant_witness :
  ∃ l', _metadata_add_metadata_to_list [Some "1"; None] [Some "1"; Some "x"; None; None]
        = Some l' ∧ paired l'.
Proof.
  apply (proj1 (proj2 (@pairing_invariant example_externals))); reflexivity.
Defined.

(** ** The registry *)

Section registry.
Context `{Externals}.

Lemma strncmp_prefix q tag :
  (strncmp q tag (strlen tag) =? 0)%Z = String.prefix tag q.
Proof.
  revert q. induction tag as [|c tag IH]; intros q; [by destruct q|].
  destruct q as [|c' q]; [done|]. simpl.
  destruct (ascii_dec c c') as [->|Hne].
  - rewrite Ascii.eqb_refl. apply IH.
  - assert (Ascii.eqb c' c = false) as ->.
    { apply Ascii.eqb_neq. congruence. }
    by destruct (N_of_ascii c' <? N_of_ascii c)%N.
Qed.

Lemma get_keyid_loop_find l q result :
  get_keyid_loop l q result =
  match List.find (λ m, String.prefix (md.tagname m) q) l with
  | Some m => md.key m
  | None => result
  end.
Proof.
  induction l as [|m l IH]; [done|]. simpl. rewrite strncmp_prefix.
  by destruct (String.prefix (md.tagname m) q).
Qed.

Lemma select_key_present tag t :
  Sql.has_tagname tag t = true → is_Some (Sql.select_key tag t).
Proof.
  unfold Sql.has_tagname, Sql.select_key. induction t as [|r t IH]; [done|].
  simpl. destruct (String.eqb (md.tagname r) tag); [by eexists | apply IH].
Qed.
End registry.

(** C6. The lookup by key answers with the id of the first definition of the
    registry, in its order, whose tag name is a prefix of the key, and with
    [(uint32_t)-1] when there is none or when the key is NULL. *)
Theorem keyid_prefix_lookup (l : list dt_metadata_t) :
  dt_metadata_get_keyid l None = 4294967295%Z ∧
  ∀ q : string,
    dt_metadata_get_keyid l (Some q) =
    match List.find (λ m, String.prefix (md.tagname m) q) l with
    | Some m => md.key m
    | None => 4294967295%Z
    end.
Proof. split; [done|]. intros q. apply get_keyid_loop_find. Qed.

(** C5, what the code does. When the table already holds the tag name of the
    definition being registered, the call answers TRUE, gives the definition
    the id of the row that was there, and puts it at the head of the
    registry, which grows by one. *)
Theorem add_metadata_duplicate_tagname `{Externals} (metadata : dt_metadata_t) (st : state) :
  Sql.has_tagname (md.tagname metadata) (data_meta_data st) = true →
  ∃ k, Sql.select_key (md.tagname metadata) (data_meta_data st) = Some k ∧
       (dt_metadata_add_metadata metadata st).2 = true ∧
       (dt_metadata_add_metadata metadata st).1.2 = md.set_key (to_uint32 k) metadata ∧
       _metadata_list (dt_metadata_add_metadata metadata st).1.1 =
         md.set_key (to_uint32 k) metadata :: _metadata_list st ∧
       data_meta_data (dt_metadata_add_metadata metadata st).1.1 = data_meta_data st.
Proof.
  intros Hdup. destruct (select_key_present _ _ Hdup) as [k Hk]. exists k.
  split; [done|]. unfold dt_metadata_add_metadata, Sql.insert_definition.
  rewrite Hdup. cbn [data_meta_data with_data_meta_data]. rewrite Hk.
  unfold _set_default_import_flag. by case_bool_decide.
Qed.

Lemma add_metadata_duplicate_tagname_witness :
  let creator := md.mk 0 "Xmp.dc.creator" "creator" 0 1 0 0 in
  let st := mk_state [md.set_key 1 creator] [md.set_key 1 creator] [] ∅ [] [] in
  ∃ k, Sql.select_key "Xmp.dc.creator" (data_meta_data st) = Some k ∧
       (@dt_metadata_add_metadata example_externals creator st).2 = true ∧
       (@dt_metadata_add_metadata example_externals creator st).1.2 =
         md.set_key (to_uint32 k) creator ∧
       _metadata_list (@dt_metadata_add_metadata example_externals creator st).1.1 =
         md.set_key (to_uint32 k) creator :: _metadata_list st ∧
       data_meta_data (@dt_metadata_add_metadata example_externals creator st).1.1 =
         data_meta_data st.
Proof.
  intros creator st.
  apply (@add_metadata_duplicate_tagname example_externals creator st). reflexivity.
Defined.

(** ** Printing a key and reading it back *)

Section print_atoi.

Lemma digit_char_spec d :
  (d < 10)%N →
  isdigit (digit_char d) = true ∧ digit_value (digit_char d) = Z.of_N d.
Proof.
  intros Hd. unfold isdigit, digit_value, digit_char.
  rewrite N_ascii_embedding by lia. split; [|lia].
  apply andb_true_iff. split; apply N.leb_le; lia.
Qed.

Lemma atoi_digits_print_go fuel : ∀ n acc a,
  (n < 2 ^ N.of_nat fuel)%N →
  ∃ p : Z, atoi_digits (print_N_go fuel n acc) a =
           atoi_digits acc (a * p + Z.of_N n)%Z.
Proof.
  induction fuel as [|f IH]; intros n acc a Hn.
  - exists 1%Z. simpl in *. f_equal. lia.
  - cbn [print_N_go].
    assert (Hd : (n mod 10 < 10)%N) by (apply N.mod_lt; lia).
    destruct (digit_char_spec _ Hd) as [Hd1 Hd2].
    pose proof (N.div_mod n 10 ltac:(lia)) as Hdm.
    destruct (n / 10 =? 0)%N eqn:E.
    + apply N.eqb_eq in E. exists 10%Z. cbn [atoi_digits].
      rewrite Hd1, Hd2. f_equal. lia.
    + assert (Hlt : (n / 10 < 2 ^ N.of_nat f)%N).
      { rewrite Nat2N.inj_succ, N.pow_succ_r' in Hn.
        apply N.Div0.div_lt_upper_bound. lia. }
      destruct (IH (n / 10)%N (String (digit_char (n mod 10)) acc) a Hlt)
        as [p Hp].
      exists (10 * p)%Z. rewrite Hp. cbn [atoi_digits].
      rewrite Hd1, Hd2. f_equal. lia.
Qed.

Lemma atoi_digits_print_N n : atoi_digits (print_N n) 0 = Z.of_N n.
Proof.
  unfold print_N.
  destruct (atoi_digits_print_go (S (N.to_nat (N.log2 n))) n "" 0) as [p Hp].
  - rewrite Nat2N.inj_succ, N2Nat.id. destruct n as [|q]; [done|].
    apply N.log2_spec. lia.
  - rewrite Hp. simpl. lia.
Qed.

Lemma print_N_go_head fuel : ∀ n acc,
  (∃ c r, acc = String c r ∧ isdigit c = true) →
  ∃ c r, print_N_go fuel n acc = String c r ∧ isdigit c = true.
Proof.
  induction fuel as [|f IH]; intros n acc Hacc; [done|]. cbn [print_N_go].
  assert (Hd : (n mod 10 < 10)%N) by (apply N.mod_lt; lia).
  destruct (digit_char_spec _ Hd) as [Hd1 _].
  destruct (n / 10 =? 0)%N; [by eexists _, _ | apply IH; by eexists _, _].
Qed.

Lemma print_N_head n : ∃ c r, print_N n = String c r ∧ isdigit c = true.
Proof.
  unfold print_N. cbn [print_N_go].
  assert (Hd : (n mod 10 < 10)%N) by (apply N.mod_lt; lia).
  destruct (digit_char_spec _ Hd) as [Hd1 _].
  destruct (n / 10 =? 0)%N; [by eexists _, _ | apply print_N_go_head; by eexists _, _].
Qed.

Lemma decimal_digit_head c r :
  isdigit c = true → decimal_value (String c r) = atoi_digits (String c r) 0.
Proof.
  destruct c as [[] [] [] [] [] [] [] []]; intros Hd;
    try (vm_compute in Hd; discriminate Hd); reflexivity.
Qed.

Lemma decimal_print_N n : decimal_value (print_N n) = Z.of_N n.
Proof.
  destruct (print_N_head n) as (c & r & Hs & Hc).
  rewrite <- atoi_digits_print_N, Hs. by apply decimal_digit_head.
Qed.

Lemma decimal_print_d z : decimal_value (print_d z) = z.
Proof.
  destruct z as [|q|q]; [done| |].
  - unfold print_d. by rewrite decimal_print_N.
  - unfold print_d, decimal_value. cbn [skip_spaces].
    change (isspace "-") with false. cbv iota.
    change (Ascii.eqb "-" "-") with true. cbv iota.
    by rewrite atoi_digits_print_N.
Qed.

Lemma to_int32_range z : (- 2 ^ 31 ≤ to_int32 z < 2 ^ 31)%Z.
Proof.
  unfold to_int32. pose proof (Z.mod_pos_bound z (2 ^ 32) ltac:(lia)).
  destruct (z mod 2 ^ 32 <? 2 ^ 31)%Z eqn:E;
    [apply Z.ltb_lt in E | apply Z.ltb_ge in E]; lia.
Qed.

Lemma to_int32_small z : (- 2 ^ 31 ≤ z < 2 ^ 31)%Z → to_int32 z = z.
Proof.
  intros Hz. unfold to_int32. destruct (Z_lt_le_dec z 0) as [Hneg|Hpos].
  - replace (z mod 2 ^ 32)%Z with (z + 2 ^ 32)%Z.
    + destruct (z + 2 ^ 32 <? 2 ^ 31)%Z eqn:E;
        [apply Z.ltb_lt in E | apply Z.ltb_ge in E]; lia.
    + apply (Z.mod_unique_pos _ _ (-1)); lia.
  - rewrite Z.mod_small by lia.
    destruct (z <? 2 ^ 31)%Z eqn:E; [done | apply Z.ltb_ge in E; lia].
Qed.

Lemma to_int32_idemp z : to_int32 (to_int32 z) = to_int32 z.
Proof. apply to_int32_small, to_int32_range. Qed.

(** The result of [atoi] is an [int]. *)
Lemma atoi_range s : (- 2 ^ 31 ≤ atoi s < 2 ^ 31)%Z.
Proof. apply to_int32_range. Qed.

(** A key in the range of [int] printed with "%d" is read back by [atoi]. *)
Lemma atoi_print_d z : (- 2 ^ 31 ≤ z < 2 ^ 31)%Z → atoi (print_d z) = z.
Proof.
  intros Hz. unfold atoi, strtol. rewrite decimal_print_d.
  rewrite Z.min_r, Z.max_r by lia. by apply to_int32_small.
Qed.

Lemma atoi_print_int z : atoi (print_d (to_int32 z)) = to_int32 z.
Proof. apply atoi_print_d, to_int32_range. Qed.

End print_atoi.

(** C1. For all before and after lists of pairs, the removal text lists the
    key of a pair of before exactly when the first pair of after with that
    key does not exist, or has another value, or has the empty value; the
    insertion text lists a pair of after exactly when its value is not empty
    and the first pair of before with that key does not exist or has another
    value. Both texts follow the order of the list they walk. The number
    listed for a key is the [int] that [atoi] reads from the key text: it is
    always in the range of [int], and it is z for the text that "%d" prints for
    an [int] z. *)
Theorem diff_marks_exactly (imgid : Z) (before after : snapshot) :
  _get_tb_removed_metadata_string_values (flat before) (flat after) =
    Some ((λ p, atoi p.1) <$>
          List.filter (DiffSpec.marked_for_removal after) before) ∧
  _get_tb_added_metadata_string_values imgid (flat before) (flat after) =
    Some ((λ p, (imgid, atoi p.1, p.2)) <$>
          List.filter (DiffSpec.emits_insertion before) after) ∧
  (∀ s, (- 2 ^ 31 ≤ atoi s < 2 ^ 31)%Z) ∧
  (∀ z, (- 2 ^ 31 ≤ z < 2 ^ 31)%Z → atoi (print_d z) = z).
Proof.
  split; [apply tb_removed_flat|]. split; [apply tb_added_flat|].
  split; [apply atoi_range | apply atoi_print_d].
Qed.

Lemma diff_marks_exactly_witness : atoi (print_d (-1205)) = (-1205)%Z.
Proof.
  apply (proj2 (proj2 (proj2 (diff_marks_exactly 7 [] [])))). lia.
Defined.

(** ** Applying a diff to the table *)

Section store.
Context `{Externals}.
Import DiffSpec.

Lemma delete_keys_nil imgid t : Sql.delete_keys imgid [] t = t.
Proof.
  unfold Sql.delete_keys. induction t as [|r t IH]; [done|]. cbn [List.filter].
  rewrite bool_decide_eq_false_2 by apply not_elem_of_nil.
  rewrite andb_false_r. cbn [negb]. by rewrite IH.
Qed.



Lemma delete_keys_all imgid keys t :
  (∀ r : meta_row, r ∈ t → r.1.1 = imgid ∧ r.1.2 ∈ keys) →
  Sql.delete_keys imgid keys t = [].
Proof.
  intros Hall. apply filter_nil_iff. intros r Hr.
  destruct (Hall r Hr) as [-> Hk]. rewrite Z.eqb_refl.
  by rewrite bool_decide_eq_true_2.
Qed.

Lemma elem_of_delete_keys imgid keys t (r : meta_row) :
  r ∈ Sql.delete_keys imgid keys t ↔ r ∈ t ∧ ¬ (r.1.1 = imgid ∧ r.1.2 ∈ keys).
Proof.
  unfold Sql.delete_keys. split.
  - intros Hr. apply list_elem_of_In, List.filter_In in Hr as [Hin Hc].
    split; [by apply list_elem_of_In|]. intros [He Hk].
    rewrite He, Z.eqb_refl, bool_decide_eq_true_2 in Hc by done. done.
  - intros [Hin Hn]. apply list_elem_of_In, List.filter_In.
    split; [by apply list_elem_of_In|]. apply negb_true_iff, andb_false_iff.
    destruct (Z.eqb_spec r.1.1 imgid); [right|by left].
    apply bool_decide_eq_false_2. intros ?. by apply Hn.
Qed.

Lemma bulk_remove_valid imgid keys t :
  dt_is_valid_imgid imgid = true →
  _bulk_remove_metadata imgid keys t = Sql.delete_keys imgid keys t.
Proof.
  intros Hv. unfold _bulk_remove_metadata. rewrite Hv.
  case_bool_decide as E; [|done]. subst. by rewrite delete_keys_nil.
Qed.

Lemma bulk_add_rows rows t : _bulk_add_metadata rows t = Sql.insert_rows rows t.
Proof.
  unfold _bulk_add_metadata. case_bool_decide as E; [|done]. subst.
  unfold Sql.insert_rows. simpl. by rewrite app_nil_r.
Qed.

(** The table after the diff of two lists of pairs has been applied. *)
Lemma pop_undo_execute_flat imgid b a t :
  _pop_undo_execute imgid (flat b) (flat a) t =
  Some (_bulk_add_metadata (insertions imgid b a)
          (_bulk_remove_metadata imgid (removals b a) t)).
Proof.
  unfold _pop_undo_execute. by rewrite tb_removed_flat, tb_added_flat.
Qed.

Lemma first_value_elem k v s : first_value k s = Some v → (k, v) ∈ s.
Proof.
  induction s as [|[k' v'] r IH]; [done|]. simpl.
  destruct (String.eqb k' k) eqn:E.
  - apply String.eqb_eq in E as ->. intros [= ->]. left.
  - intros Hf. right. by apply IH.
Qed.

Lemma first_value_is_Some k v s : (k, v) ∈ s → is_Some (first_value k s).
Proof.
  induction s as [|[k' v'] r IH]; [by intros ?%elem_of_nil|]. simpl.
  destruct (String.eqb k' k) eqn:E; [by eexists|].
  intros [[= -> ->]|Hin]%elem_of_cons; [|by apply IH].
  by rewrite String.eqb_refl in E.
Qed.

Lemma first_value_NoDup k v s :
  NoDup s.*1 → (k, v) ∈ s → first_value k s = Some v.
Proof.
  induction s as [|[k' v'] r IH]; [by intros _ ?%elem_of_nil|]. simpl.
  intros [Hnotin Hnd]%NoDup_cons [[= -> ->]|Hin]%elem_of_cons.
  - by rewrite String.eqb_refl.
  - destruct (String.eqb k' k) eqn:E; [|by apply IH].
    apply String.eqb_eq in E as ->. exfalso. apply Hnotin.
    apply list_elem_of_fmap. by exists (k, v).
Qed.

(** Every key of an inserted row is among the keys the opposite diff
    removes. *)
Lemma inserted_rows_removed imgid x y :
  Sql.delete_keys imgid (removals y x)
    ((λ r : Z * Z * string, (r.1.1, r.1.2, Some r.2)) <$> insertions imgid x y) = [].
Proof.
  apply delete_keys_all. intros r (e & -> & He)%list_elem_of_fmap.
  unfold insertions in He. apply list_elem_of_fmap in He as (p & -> & Hp).
  apply list_elem_of_In, List.filter_In in Hp as [Hp Hemit]. simpl.
  split; [done|]. unfold removals. apply list_elem_of_fmap. exists p.
  split; [done|]. apply list_elem_of_In, List.filter_In. split; [done|].
  by apply emits_marked.
Qed.
(** The rows of other images are not touched. *)
Lemma apply_diff_frame imgid rem ins t j :
  j ≠ imgid →
  (∀ r : Z * Z * string, r ∈ ins → r.1.1 = imgid) →
  Sql.select_id j (Sql.insert_rows ins (Sql.delete_keys imgid rem t)) =
  Sql.select_id j t.
Proof.
  intros Hj Hins. unfold Sql.select_id, Sql.insert_rows, Sql.delete_keys.
  rewrite List.filter_app, fmap_app.
  assert (List.filter (λ r : meta_row, (r.1.1 =? j)%Z)
            ((λ r : Z * Z * string, (r.1.1, r.1.2, Some r.2)) <$> ins) = []) as ->.
  { apply filter_nil_iff. intros r (e & -> & He)%list_elem_of_fmap. simpl.
    rewrite (Hins e He). apply Z.eqb_neq. congruence. }
  rewrite app_nil_r. f_equal.
  induction t as [|r t IH]; [done|]. cbn [List.filter].
  destruct (r.1.1 =? imgid)%Z eqn:E; cbn [andb negb].
  - apply Z.eqb_eq in E.
    assert ((r.1.1 =? j)%Z = false) as Hrj by (apply Z.eqb_neq; congruence).
    destruct (bool_decide _); cbn [negb List.filter]; rewrite ?Hrj; exact IH.
  - cbn [List.filter]. destruct (r.1.1 =? j)%Z; [f_equal|]; exact IH.
Qed.

Lemma insertions_imgid imgid b a (r : Z * Z * string) :
  r ∈ insertions imgid b a → r.1.1 = imgid.
Proof. unfold insertions. by intros (p & -> & _)%list_elem_of_fmap. Qed.

End store.

(** ** Rows that a diff does not touch *)

Section frame.
Context `{Externals}.

(** Every row the insertion text holds is for the image and has a value that
    is not empty, whatever the two lists hold. *)
Lemma tb_added_rows i before after : ∀ l,
  _get_tb_added_metadata_string_values i before after = Some l →
  ∀ e : Z * Z * string, e ∈ l → e.1.1 = i ∧ e.2 ≠ "".
Proof.
  induction after as [after IH] using (induction_ltof1 _ (@length _)).
  unfold ltof in IH. intros l.
  destruct after as [|adata [|value rest]];
    cbn [_get_tb_added_metadata_string_values]; [|done|].
  { intros [= <-] e He. by apply elem_of_nil in He. }
  destruct (different_value_at before _ value) as [dv|]; [|done].
  cbn [mbind option_bind].
  assert (Hrest : ∀ tl, _get_tb_added_metadata_string_values i before rest = Some tl →
            ∀ e : Z * Z * string, e ∈ tl → e.1.1 = i ∧ e.2 ≠ "").
  { apply IH. simpl. lia. }
  destruct (_get_tb_added_metadata_string_values i before rest) as [tl|].
  - specialize (Hrest tl eq_refl).
    destruct (bool_decide _ || dv); [|intros [= <-]; exact Hrest].
    destruct value as [[|c v]|]; [intros [= <-]; exact Hrest| |done].
    cbn [is_empty_value fmap option_fmap option_map negb mbind option_bind].
    destruct (atoi_data adata) as [k|]; [|done].
    cbn [mbind option_bind app].
    intros [= <-] e [->|He]%elem_of_cons; [done | by apply Hrest].
  - clear Hrest. intros Hl. exfalso.
    destruct (bool_decide _ || dv); [|done].
    destruct value as [[|c v]|]; [done| |done].
    cbn [is_empty_value fmap option_fmap option_map negb mbind option_bind] in Hl.
    by destruct (atoi_data adata).
Qed.

Lemma bulk_frame i rem ins t j :
  j ≠ i → (∀ r : Z * Z * string, r ∈ ins → r.1.1 = i) →
  Sql.select_id j (_bulk_add_metadata ins (_bulk_remove_metadata i rem t)) =
  Sql.select_id j t.
Proof.
  intros Hj Hins. rewrite bulk_add_rows. unfold _bulk_remove_metadata.
  destruct (dt_is_valid_imgid i && _).
  - by apply apply_diff_frame.
  - rewrite <- (delete_keys_nil i t) at 1. by apply apply_diff_frame.
Qed.

Lemma pop_undo_execute_frame i before after t t' j :
  _pop_undo_execute i before after t = Some t' → j ≠ i →
  Sql.select_id j t' = Sql.select_id j t.
Proof.
  unfold _pop_undo_execute. intros Hex Hj.
  destruct (_get_tb_removed_metadata_string_values before after) as [rem|]; [|done].
  destruct (_get_tb_added_metadata_string_values i before after) as [ins|] eqn:Ei;
    [|done].
  cbn in Hex. injection Hex as <-. apply bulk_frame; [done|].
  intros r Hr. by destruct (tb_added_rows i before after ins Ei r Hr).
Qed.

Lemma metadata_execute_frame imgs metadata action undo_on j : ∀ undo t t' undo',
  _metadata_execute imgs metadata undo undo_on action t = Some (t', undo') →
  j ∉ imgs → Sql.select_id j t' = Sql.select_id j t.
Proof.
  induction imgs as [|i imgs IH]; intros undo t t' undo'; cbn [_metadata_execute].
  { by intros [= <- _]. }
  intros Hex Hj.
  destruct (metadata_after action _ metadata) as [a|]; [|done].
  cbn [mbind option_bind] in Hex.
  destruct (_pop_undo_execute i _ a t) as [t1|] eqn:E1; [|done].
  cbn [mbind option_bind] in Hex.
  rewrite (IH _ _ _ _ Hex) by (intros ?; apply Hj; by right).
  eapply pop_undo_execute_frame; [exact E1|]. intros ->. apply Hj. left.
Qed.

Lemma pop_undo_loop_frame data action j : ∀ t imgs t' imgs',
  _pop_undo_loop data action t imgs = Some (t', imgs') →
  j ∉ imgid <$> data → Sql.select_id j t' = Sql.select_id j t.
Proof.
  induction data as [|e data IH]; intros t imgs t' imgs'; cbn [_pop_undo_loop].
  { by intros [= <- _]. }
  intros Hex Hj.
  destruct (_pop_undo_execute (imgid e) _ _ t) as [t1|] eqn:E1; [|done].
  cbn [mbind option_bind] in Hex. rewrite fmap_cons in Hj.
  rewrite (IH _ _ _ _ Hex) by (intros ?; apply Hj; by right).
  eapply pop_undo_execute_frame; [exact E1|]. intros ->. apply Hj. left.
Qed.

Lemma new_rows i before after t t' (r : meta_row) :
  _pop_undo_execute i before after t = Some t' → r ∈ t' →
  r ∈ t ∨ (r.1.1 = i ∧ ∃ v, r.2 = Some v ∧ v ≠ "").
Proof.
  unfold _pop_undo_execute. intros Hex Hr.
  destruct (_get_tb_removed_metadata_string_values before after) as [rem|]; [|done].
  destruct (_get_tb_added_metadata_string_values i before after) as [ins|] eqn:Ei;
    [|done].
  cbn in Hex. injection Hex as <-. rewrite bulk_add_rows in Hr.
  unfold Sql.insert_rows in Hr. apply elem_of_app in Hr as [Hr|Hr].
  - left. unfold _bulk_remove_metadata in Hr. destruct (_ && _); [|done].
    by apply elem_of_delete_keys in Hr as [? _].
  - right. apply list_elem_of_fmap in Hr as (e & -> & He).
    destruct (tb_added_rows i before after ins Ei e He) as [Hid Hne].
    split; [done|]. by exists e.2.
Qed.

Lemma invalid_id_appends i before after t t' :
  dt_is_valid_imgid i = false →
  _pop_undo_execute i before after t = Some t' → t `prefix_of` t'.
Proof.
  unfold _pop_undo_execute. intros Hv Hex.
  destruct (_get_tb_removed_metadata_string_values before after) as [rem|]; [|done].
  destruct (_get_tb_added_metadata_string_values i before after) as [ins|]; [|done].
  cbn in Hex. injection Hex as <-. rewrite bulk_add_rows.
  unfold _bulk_remove_metadata. rewrite Hv. cbn [andb]. by eexists.
Qed.
End frame.

(** ** One image at a time *)

Section execute.
Context `{Externals}.
Import DiffSpec.

Lemma metadata_execute_single imgid metadata undo undo_on action t (a : snapshot) :
  metadata_after action (flat (stored_snapshot imgid t)) metadata = Some (flat a) →
  _metadata_execute [imgid] metadata undo undo_on action t =
  Some (_bulk_add_metadata (insertions imgid (stored_snapshot imgid t) a)
          (_bulk_remove_metadata imgid (removals (stored_snapshot imgid t) a) t),
        if undo_on
        then undo ++ [mk_undo imgid (flat (stored_snapshot imgid t)) (flat a)]
        else undo).
Proof.
  intros Ha. cbn [_metadata_execute]. rewrite get_list_id_flat, Ha.
  cbn [mbind option_bind]. by rewrite pop_undo_execute_flat.
Qed.

Lemma metadata_execute_undo_off imgs metadata undo action : ∀ t,
  snd <$> _metadata_execute imgs metadata undo false action t =
  (λ _, undo) <$> _metadata_execute imgs metadata undo false action t.
Proof.
  induction imgs as [|i imgs IH]; intros t; [done|]. cbn [_metadata_execute].
  destruct (metadata_after action (dt_metadata_get_list_id i t) metadata)
    as [a|]; [|done]. cbn [mbind option_bind].
  destruct (_pop_undo_execute i (dt_metadata_get_list_id i t) a t) as [t'|];
    [|done]. cbn [mbind option_bind]. apply IH.
Qed.

(** The entries a batch records: one for each image, holding the list read
    for the image from the table as the images before it left it. *)
Lemma metadata_execute_entries imgs metadata action : ∀ undo t t' undo',
  _metadata_execute imgs metadata undo true action t = Some (t', undo') →
  ∃ es, undo' = undo ++ es ∧ imgid <$> es = imgs ∧
        (∀ e, e ∈ es → metadata_after action (before e) metadata = Some (after e) ∧
                      paired (before e)) ∧
        (∀ n e, es !! n = Some e →
           ∃ tn un,
             _metadata_execute (take n imgs) metadata undo true action t
               = Some (tn, un) ∧
             before e = dt_metadata_get_list_id (imgid e) tn).
Proof.
  induction imgs as [|i imgs IH]; intros undo t t' undo'; cbn [_metadata_execute].
  { intros [= <- <-]. exists []. rewrite app_nil_r.
    split; [done|]. split; [done|]. split; [by intros e ?%elem_of_nil|].
    by intros n e. }
  destruct (metadata_after action _ metadata) as [a|] eqn:Ea; [|done].
  cbn [mbind option_bind].
  destruct (_pop_undo_execute i _ a t) as [t1|] eqn:Ep; [|done].
  cbn [mbind option_bind]. intros Hex.
  destruct (IH _ _ _ _ Hex) as (es & -> & Hids & Hes & Hread).
  exists (mk_undo i (dt_metadata_get_list_id i t) a :: es).
  rewrite <- app_assoc. split; [done|]. split; [by rewrite fmap_cons, Hids|].
  split.
  - intros e [->|He]%elem_of_cons; [|by apply Hes]. split; [done|].
    cbn [before]. rewrite get_list_id_flat. apply paired_flat.
  - intros [|n] e.
    + intros [= <-]. by exists t, undo.
    + intros He. cbn [lookup list_lookup] in He.
      destruct (Hread n e He) as (tn & un & Hn & Hb). exists tn, un.
      split; [|done]. cbn [take _metadata_execute]. rewrite Ea.
      cbn [mbind option_bind]. rewrite Ep. cbn [mbind option_bind]. exact Hn.
Qed.

Lemma pop_undo_single e action imgs st :
  _pop_undo DT_UNDO_METADATA [e] action imgs st =
  t ← _pop_undo_execute (imgid e)
        (if bool_decide (action = DT_ACTION_UNDO) then after e else before e)
        (if bool_decide (action = DT_ACTION_UNDO) then before e else after e)
        (main_meta_data st);
  Some (signal_raise DT_SIGNAL_MOUSE_OVER_IMAGE_CHANGE (with_main_meta_data t st),
        imgid e :: imgs).
Proof.
  unfold _pop_undo. cbn [bool_decide decide_rel _pop_undo_loop].
  rewrite bool_decide_eq_true_2 by done.
  by destruct (_pop_undo_execute _ _ _ _).
Qed.
End execute.

(** ** Undo followed by redo *)

Section symmetry.
Context `{Externals}.
Import DiffSpec.

Lemma elem_of_removals k b a :
  k ∈ removals b a ↔ ∃ p, p ∈ b ∧ marked_for_removal a p = true ∧ atoi p.1 = k.
Proof.
  unfold removals. rewrite list_elem_of_fmap. split.
  - intros (p & -> & Hp). apply list_elem_of_In, List.filter_In in Hp as [Hp Hm].
    exists p. by rewrite list_elem_of_In.
  - intros (p & Hp & Hm & <-). exists p. split; [done|].
    apply list_elem_of_In, List.filter_In. by rewrite <- list_elem_of_In.
Qed.

(** The keys of the removal text are results of [atoi]. *)
Lemma removals_range k b a : k ∈ removals b a → (- 2 ^ 31 ≤ k < 2 ^ 31)%Z.
Proof. intros (p & _ & _ & <-)%elem_of_removals. apply atoi_range. Qed.

Lemma stored_snapshot_elem imgid t (r : meta_row) :
  dt_is_valid_imgid imgid = true → r ∈ t → r.1.1 = imgid →
  (print_d (to_int32 r.1.2), default "" r.2) ∈ stored_snapshot imgid t.
Proof.
  intros Hv Hr Hid. unfold stored_snapshot, Sql.select_id. rewrite Hv.
  apply list_elem_of_fmap. exists (r.1.2, r.2). split; [done|].
  apply list_elem_of_fmap. exists r. split; [done|].
  apply list_elem_of_In, List.filter_In. rewrite <- list_elem_of_In.
  split; [done|]. by apply Z.eqb_eq.
Qed.


(** *** The steps of a batch *)

















End symmetry.




(** ** Import *)

Section import.
Context `{Externals}.

Lemma execute_add_pair imgid ks v undo undo_on t :
  ∃ t', _metadata_execute [imgid] [Some ks; Some v] undo undo_on DT_MA_ADD t =
        Some (t', if undo_on
                  then undo ++ [mk_undo imgid (flat (stored_snapshot imgid t))
                                  (flat (DiffSpec.merge (stored_snapshot imgid t)
                                           [(ks, v)]))]
                  else undo).
Proof.
  eexists. apply (metadata_execute_single _ (flat [(ks, v)])).
  apply metadata_after_add_flat.
Qed.
End import.

(** C10. [dt_metadata_set_import] returns, and the calls made to the undo
    module are the same after it as before it; [_metadata_execute] with
    [undo_on] FALSE hands back the [undo] list it was given. *)
Theorem set_import_records_no_undo `{Externals}
    (imgid : Z) (k value : option string) (st : state) :
  (∃ st', dt_metadata_set_import imgid k value st = Some st' ∧
          undo_calls st' = undo_calls st) ∧
  (∀ imgs metadata undo action t,
     snd <$> _metadata_execute imgs metadata undo false action t =
     (λ _, undo) <$> _metadata_execute imgs metadata undo false action t).
Proof.
  split; [|intros; apply metadata_execute_undo_off].
  unfold dt_metadata_set_import.
  destruct (bool_decide (k = None) || negb (dt_is_valid_imgid imgid));
    [by exists st|].
  destruct (dt_metadata_get_metadata_by_tagname (_metadata_list st) k) as [m|];
    [|by exists st].
  match goal with |- context [if ?b then _ ← _; _ else _] => destruct b end;
    [|by exists st].
  destruct (execute_add_pair imgid (print_d (to_int32 (md.key m)))
              (_cleanup_metadata_value value) [] false (main_meta_data st))
    as [t' ->].
  by eexists.
Qed.

(** ** Clearing *)

Section clear.
Context `{Externals}.
Import DiffSpec.

Lemma filter_remove_first (f : string * string → bool) k s :
  (∀ v, f (k, v) = false) → List.filter f (remove_first k s) = List.filter f s.
Proof.
  intros Hk. induction s as [|[k' v'] r IH]; [done|]. simpl.
  destruct (String.eqb k' k) eqn:E.
  - apply String.eqb_eq in E as ->. by rewrite Hk.
  - simpl. by rewrite IH.
Qed.

Lemma filter_remove_keys (f : string * string → bool) keys : ∀ s,
  (∀ k v, k ∈ keys → f (k, v) = false) →
  List.filter f (fold_left (λ acc k, remove_first k acc) keys s) = List.filter f s.
Proof.
  induction keys as [|k ks IH]; intros s Hf; [done|]. simpl.
  rewrite IH.
  - apply filter_remove_first. intros v. apply Hf. left.
  - intros k' v Hk'. apply Hf. by right.
Qed.

Lemma remove_first_sublist k s : sublist (remove_first k s) s.
Proof.
  induction s as [|[k' v'] r IH]; [done|]. simpl.
  destruct (String.eqb k' k); [by apply sublist_cons | by apply sublist_skip].
Qed.

Lemma remove_keys_sublist keys : ∀ s,
  sublist (fold_left (λ acc k, remove_first k acc) keys s) s.
Proof.
  induction keys as [|k ks IH]; intros s; [done|]. simpl.
  etrans; [apply IH | apply remove_first_sublist].
Qed.

Lemma clear_payload_keys l :
  clear_payload l =
  Some <$> ((λ m, print_u (md.key m)) <$>
            List.filter (λ m, (md.internal m =? 0)%Z && negb (md.visible m =? 0)%Z) l).
Proof. unfold clear_payload. by rewrite <- list_fmap_compose. Qed.

Lemma elem_of_clear_payload l d :
  d ∈ clear_payload l ↔
  ∃ m, m ∈ l ∧ md.internal m = 0%Z ∧ md.visible m ≠ 0%Z ∧ d = Some (print_u (md.key m)).
Proof.
  unfold clear_payload. rewrite list_elem_of_fmap. split.
  - intros (m & -> & Hm). apply list_elem_of_In, List.filter_In in Hm as [Hm Hc].
    apply andb_true_iff in Hc as [Hi Hvis]. exists m.
    rewrite list_elem_of_In. split; [done|]. split; [by apply Z.eqb_eq|].
    split; [|done]. by apply Z.eqb_neq, negb_true_iff.
  - intros (m & Hm & Hi & Hvis & ->). exists m. split; [done|].
    apply list_elem_of_In, List.filter_In. rewrite <- list_elem_of_In.
    split; [done|]. apply andb_true_iff.
    split; [by apply Z.eqb_eq | by apply negb_true_iff, Z.eqb_neq].
Qed.
End clear.

(** ** Cleaning a value *)

Section cleanup.
Context `{Externals}.
Import DiffSpec.

Lemma append_cons c s t : String c s +:+ t = String c (s +:+ t).
Proof. reflexivity. Qed.

Lemma append_nil_l t : "" +:+ t = t.
Proof. reflexivity. Qed.


Lemma strip_trailing_spaces_spec s :
  ∃ m, s = strip_trailing_spaces s +:+ spaces m ∧
       ends_with_space (strip_trailing_spaces s) = false.
Proof.
  induction s as [|c r (m & Hr & He)]; [by exists 0|]. cbn [strip_trailing_spaces].
  destruct (strip_trailing_spaces r) as [|c' r'] eqn:E.
  - rewrite append_nil_l in Hr. destruct (Ascii.eqb c " ") eqn:Ec.
    + apply Ascii.eqb_eq in Ec as ->. exists (S m).
      rewrite append_nil_l. cbn [spaces]. by rewrite Hr.
    + exists m. rewrite append_cons, append_nil_l, Hr. split; [done|].
      cbn [ends_with_space]. exact Ec.
  - exists m. split; [by rewrite append_cons, <- Hr | exact He].
Qed.

Lemma skip_leading_spaces_spec s :
  ∃ n, s = spaces n +:+ skip_leading_spaces s ∧
       starts_with_space (skip_leading_spaces s) = false ∧
       (ends_with_space s = false → ends_with_space (skip_leading_spaces s) = false).
Proof.
  induction s as [|c r (n & Hr & Hs & He)]; [by exists 0|]. cbn [skip_leading_spaces].
  destruct (Ascii.eqb c " ") eqn:Ec.
  - apply Ascii.eqb_eq in Ec as ->. exists (S n).
    split; [cbn [spaces]; by rewrite append_cons, <- Hr|].
    split; [exact Hs|]. intros Hend. apply He. by destruct r.
  - exists 0. split; [done|]. split; [cbn [starts_with_space]; exact Ec | done].
Qed.

(** The cleaned value is the value without its leading and trailing spaces. *)
Lemma cleanup_spec v :
  ∃ n m, v = spaces n +:+ _cleanup_metadata_value (Some v) +:+ spaces m ∧
         starts_with_space (_cleanup_metadata_value (Some v)) = false ∧
         ends_with_space (_cleanup_metadata_value (Some v)) = false.
Proof.
  destruct v as [|c r]; [by exists 0, 0|]. unfold _cleanup_metadata_value.
  destruct (strip_trailing_spaces_spec (String c r)) as (m & Hm & Hend).
  destruct (skip_leading_spaces_spec (strip_trailing_spaces (String c r)))
    as (n & Hn & Hs & He).
  exists n, m. split; [|by auto]. rewrite Hm at 1. rewrite Hn at 1.
  generalize (skip_leading_spaces (strip_trailing_spaces (String c r))).
  intros s. clear. induction n as [|n IH]; [done|]. cbn [spaces].
  by rewrite !append_cons, IH.
Qed.



(** What the merge of one pair leaves for its key. *)
Lemma first_value_merge_pair k v s : first_value k (merge_pair s (k, v)) = Some v.
Proof.
  unfold merge_pair. cbn [fst snd].
  destruct (first_value k s) as [v'|] eqn:E.
  - induction s as [|[k' v''] r IH]; [done|]. simpl in *.
    destruct (String.eqb k' k) eqn:Ek; simpl; rewrite Ek; [done | by apply IH].
  - induction s as [|[k' v''] r IH]; simpl in *; [by rewrite String.eqb_refl|].
    destruct (String.eqb k' k); [done | by apply IH].
Qed.

Lemma elem_of_overwrite_first k v s q :
  NoDup s.*1 → q ∈ overwrite_first k v s → q = (k, v) ∨ (q ∈ s ∧ q.1 ≠ k).
Proof.
  induction s as [|[k' v'] r IH]; [by intros _ ?%elem_of_nil|]. simpl.
  intros [Hnotin Hnd]%NoDup_cons. destruct (String.eqb k' k) eqn:E.
  - apply String.eqb_eq in E as ->. intros [->|Hq]%elem_of_cons; [by left|].
    right. split; [by right|]. intros <-. apply Hnotin.
    apply list_elem_of_fmap. by exists q.
  - apply String.eqb_neq in E. intros [->|Hq]%elem_of_cons.
    + right. split; [left | done].
    + destruct (IH Hnd Hq) as [->|[Hin Hne]]; [by left|].
      right. split; [by right | done].
Qed.

Lemma first_value_None_notin k s q : first_value k s = None → q ∈ s → q.1 ≠ k.
Proof.
  intros Hf Hq Hk. destruct q as [q1 q2]. simpl in Hk. subst q1.
  destruct (first_value_is_Some _ _ _ Hq) as [x Hx]. congruence.
Qed.

Lemma elem_of_merge_pair k v s q :
  NoDup s.*1 → q ∈ merge_pair s (k, v) → q = (k, v) ∨ (q ∈ s ∧ q.1 ≠ k).
Proof.
  intros Hnd. unfold merge_pair. cbn [fst snd].
  destruct (first_value k s) as [v'|] eqn:E; [by apply elem_of_overwrite_first|].
  intros [Hq|Hq%list_elem_of_singleton]%elem_of_app; [|by left].
  right. split; [done|]. by eapply first_value_None_notin.
Qed.

Lemma stored_snapshot_canonical imgid t q :
  q ∈ stored_snapshot imgid t → print_d (atoi q.1) = q.1.
Proof.
  unfold stored_snapshot. destruct (dt_is_valid_imgid imgid); [|by intros ?%elem_of_nil].
  intros (r & -> & _)%list_elem_of_fmap. simpl. by rewrite atoi_print_int.
Qed.

(** The table after one pair has been merged into the list of an image. *)
Lemma execute_and_record_add_pair imgid ks v undo_on st :
  ∃ st', execute_and_record [imgid] [Some ks; Some v] undo_on DT_MA_ADD st = Some st' ∧
         main_meta_data st' =
         let b := stored_snapshot imgid (main_meta_data st) in
         let a := merge_pair b (ks, v) in
         _bulk_add_metadata (insertions imgid b a)
           (_bulk_remove_metadata imgid (removals b a) (main_meta_data st)).
Proof.
  unfold execute_and_record.
  assert (Hmain : ∀ c, main_meta_data (undo_call_add c st) = main_meta_data st) by done.
  destruct undo_on; [rewrite Hmain|];
    rewrite (metadata_execute_single _ (flat [(ks, v)]) _ _ _ _
               (merge (stored_snapshot imgid (main_meta_data st)) [(ks, v)]))
      by apply metadata_after_add_flat;
    cbn [mbind option_bind]; by eexists.
Qed.

End cleanup.

Section setters.
Context `{Externals}.

Lemma dt_metadata_set_known imgid k value undo_on st :
  dt_is_valid_imgid imgid = true →
  to_int32 (dt_metadata_get_keyid (_metadata_list st) (Some k)) ≠ (-1)%Z →
  dt_metadata_set imgid (Some k) value undo_on st =
  execute_and_record [imgid]
    (flat [(print_d (to_int32 (dt_metadata_get_keyid (_metadata_list st) (Some k))),
            _cleanup_metadata_value value)])
    undo_on DT_MA_ADD st.
Proof.
  intros Hv Hk. unfold dt_metadata_set. rewrite Hv.
  apply Z.eqb_neq in Hk. by rewrite Hk.
Qed.

End setters.

(** * Further properties *)

(** ** What a diff leaves in the table *)

Section apply.
Context `{Externals}.
Import DiffSpec.

Lemma elem_of_List_filter {A} (f : A → bool) (l : list A) x :
  x ∈ List.filter f l ↔ x ∈ l ∧ f x = true.
Proof. by rewrite !list_elem_of_In, List.filter_In. Qed.

Lemma NoDup_List_filter {A} (f : A → bool) (l : list A) :
  NoDup l → NoDup (List.filter f l).
Proof. rewrite !NoDup_ListNoDup. apply List.NoDup_filter. Qed.

Lemma fmap_fixed {A} (f : A → A) (l : list A) :
  (∀ x, x ∈ l → f x = x) → f <$> l = l.
Proof.
  induction l as [|a l IH]; intros Hf; [done|]. rewrite fmap_cons.
  rewrite Hf by left. rewrite IH; [done|]. intros x Hx. apply Hf. by right.
Qed.

Lemma stored_snapshot_app imgid t1 t2 :
  stored_snapshot imgid (t1 ++ t2) =
  stored_snapshot imgid t1 ++ stored_snapshot imgid t2.
Proof.
  unfold stored_snapshot, Sql.select_id. destruct (dt_is_valid_imgid imgid); [|done].
  by rewrite List.filter_app, !fmap_app.
Qed.

Lemma int_keys_tail imgid r t : int_keys imgid (r :: t) → int_keys imgid t.
Proof. intros Hint r' Hr'. apply Hint. by right. Qed.

(** On rows with keys in the range of [int], deleting keys from the table
    and from the list read agree. *)
Lemma stored_snapshot_delete imgid keys t :
  int_keys imgid t →
  stored_snapshot imgid (Sql.delete_keys imgid keys t) =
  List.filter (λ p, negb (bool_decide (atoi p.1 ∈ keys))) (stored_snapshot imgid t).
Proof.
  unfold stored_snapshot, Sql.select_id, Sql.delete_keys.
  destruct (dt_is_valid_imgid imgid); [|done].
  induction t as [|r t IH]; intros Hint; [done|].
  specialize (IH (int_keys_tail _ _ _ Hint)). cbn [List.filter].
  destruct (r.1.1 =? imgid)%Z eqn:E; cbn [andb negb].
  - assert (Hr : to_int32 r.1.2 = r.1.2).
    { apply to_int32_small, Hint; [left | by apply Z.eqb_eq]. }
    cbn [fmap list_fmap List.filter fst snd]. rewrite atoi_print_int, Hr.
    destruct (bool_decide (r.1.2 ∈ keys)); cbn [negb List.filter].
    + exact IH.
    + rewrite E. cbn [fmap list_fmap fst snd]. rewrite Hr. f_equal. exact IH.
  - cbn [List.filter]. rewrite E. exact IH.
Qed.

(** The rows a diff writes have keys in the range of [int]. *)
Lemma int_keys_step imgid rem b a t :
  int_keys imgid t →
  int_keys imgid (Sql.insert_rows (insertions imgid b a) (Sql.delete_keys imgid rem t)).
Proof.
  intros Hint r. unfold Sql.insert_rows. intros [Hr|Hr]%elem_of_app Hid.
  - apply elem_of_delete_keys in Hr as [Hr _]. by apply Hint.
  - apply list_elem_of_fmap in Hr as (e & -> & He). unfold insertions in He.
    apply list_elem_of_fmap in He as (q & -> & _). apply atoi_range.
Qed.

Lemma stored_snapshot_inserted imgid b a :
  dt_is_valid_imgid imgid = true → printed_keys a →
  stored_snapshot imgid
    ((λ r : Z * Z * string, (r.1.1, r.1.2, Some r.2)) <$> insertions imgid b a) =
  List.filter (emits_insertion b) a.
Proof.
  intros Hv Hcan. unfold stored_snapshot, Sql.select_id, insertions. rewrite Hv.
  rewrite <- !list_fmap_compose.
  assert (Hall : ∀ l : snapshot,
    List.filter (λ r : meta_row, (r.1.1 =? imgid)%Z)
      ((λ p : string * string, (imgid, atoi p.1, Some p.2)) <$> l) =
    (λ p : string * string, (imgid, atoi p.1, Some p.2)) <$> l).
  { induction l as [|p l IH]; [done|]. cbn [fmap list_fmap List.filter fst].
    rewrite Z.eqb_refl. f_equal. exact IH. }
  change (((λ r : Z * Z * string, (r.1.1, r.1.2, Some r.2))
            ∘ (λ p : string * string, (imgid, atoi p.1, p.2))) <$>
          List.filter (emits_insertion b) a)
    with ((λ p : string * string, (imgid, atoi p.1, Some p.2)) <$>
          List.filter (emits_insertion b) a).
  rewrite Hall, <- !list_fmap_compose.
  apply fmap_fixed. intros [k v] [Hin _]%elem_of_List_filter. simpl. f_equal.
  rewrite (to_int32_small _ (atoi_range k)). apply Hcan. apply list_elem_of_fmap. by exists (k, v).
Qed.

Lemma same_key_same_pair (s : snapshot) p q :
  NoDup s.*1 → p ∈ s → q ∈ s → p.1 = q.1 → p = q.
Proof.
  intros Hnd Hp Hq Hk. destruct p as [k v], q as [k' v']. simpl in Hk. subst k'.
  pose proof (first_value_NoDup _ _ _ Hnd Hp).
  pose proof (first_value_NoDup _ _ _ Hnd Hq). congruence.
Qed.

Lemma NoDup_keys_pairs (s : snapshot) : NoDup s.*1 → NoDup s.
Proof. apply NoDup_fmap_1. Qed.

Lemma NoDup_keys_sub (l s : snapshot) :
  NoDup l → (∀ p, p ∈ l → p ∈ s) → NoDup s.*1 → NoDup l.*1.
Proof.
  intros Hl Hsub Hs. apply NoDup_fmap_2_strong; [|done].
  intros p q Hp Hq Hk. apply (same_key_same_pair s); auto.
Qed.

Lemma printed_keys_atoi (s : snapshot) p q :
  printed_keys s → p ∈ s → q ∈ s → atoi p.1 = atoi q.1 → p.1 = q.1.
Proof.
  intros Hcan Hp Hq Hk.
  rewrite <- (Hcan p.1), <- (Hcan q.1), Hk; [done| |];
    apply list_elem_of_fmap; eauto.
Qed.

(** Whether the key of a pair of [b] is among the removed keys. *)
Lemma removed_iff_marked b a p :
  NoDup b.*1 → printed_keys b → p ∈ b →
  atoi p.1 ∈ removals b a ↔ marked_for_removal a p = true.
Proof.
  intros Hnd Hcan Hp. rewrite elem_of_removals. split.
  - intros (q & Hq & Hm & Hk).
    assert (q = p) as ->; [|done].
    apply (same_key_same_pair b); [done..|]. by apply (printed_keys_atoi b).
  - intros Hm. by exists p.
Qed.

Lemma elem_of_stored_part (s : snapshot) p : p ∈ stored_part s ↔ p ∈ s ∧ p.2 ≠ "".
Proof.
  unfold stored_part. rewrite elem_of_List_filter, negb_true_iff, String.eqb_neq.
  done.
Qed.

(** The pairs read back after a diff has been applied. *)
Lemma apply_diff_elements imgid t b a p :
  dt_is_valid_imgid imgid = true →
  NoDup b.*1 → NoDup a.*1 → printed_keys b → printed_keys a →
  int_keys imgid t → table_agrees imgid t b →
  p ∈ stored_snapshot imgid
        (Sql.insert_rows (insertions imgid b a)
           (Sql.delete_keys imgid (removals b a) t)) ↔
  p ∈ stored_part a.
Proof.
  intros Hv Hb Ha Hcb Hca Hint (Hnd & Hsub & Hsup).
  unfold Sql.insert_rows.
  rewrite stored_snapshot_app, stored_snapshot_delete, stored_snapshot_inserted by done.
  rewrite elem_of_app, !elem_of_List_filter, elem_of_stored_part, negb_true_iff,
    bool_decide_eq_false.
  split.
  - intros [[Hp Hk]|[Hp He]].
    + apply Hsub in Hp. rewrite removed_iff_marked in Hk by done.
      apply not_true_is_false, marked_false in Hk as [Hf Hne].
      split; [|done]. destruct p. by apply first_value_elem.
    + split; [done|]. unfold emits_insertion in He.
      apply andb_true_iff in He as [He _]. by apply negb_true_iff, String.eqb_neq in He.
  - intros [Hp Hne]. destruct (emits_insertion b p) eqn:He; [by right|]. left.
    apply emits_false in He as [He|He]; [done|].
    assert (Hpb : p ∈ b) by (destruct p; by apply first_value_elem).
    split.
    + apply Hsup, elem_of_stored_part. done.
    + rewrite removed_iff_marked by done. apply not_true_iff_false, marked_false.
      split; [|done]. destruct p. by apply first_value_NoDup.
Qed.

Lemma apply_diff_NoDup imgid t b a :
  dt_is_valid_imgid imgid = true →
  NoDup b.*1 → NoDup a.*1 → printed_keys a →
  int_keys imgid t → table_agrees imgid t b →
  NoDup (stored_snapshot imgid
           (Sql.insert_rows (insertions imgid b a)
              (Sql.delete_keys imgid (removals b a) t))).
Proof.
  intros Hv Hb Ha Hca Hint (Hnd & Hsub & Hsup).
  unfold Sql.insert_rows.
  rewrite stored_snapshot_app, stored_snapshot_delete, stored_snapshot_inserted by done.
  apply NoDup_app. split; [by apply NoDup_List_filter|]. split.
  - intros p [Hp _]%elem_of_List_filter [Hpa He]%elem_of_List_filter.
    apply Hsub in Hp. destruct p as [k v].
    pose proof (first_value_NoDup _ _ _ Hb Hp) as Hf.
    assert (emits_insertion b (k, v) = false); [|congruence].
    apply emits_false. by right.
  - apply NoDup_List_filter. by apply NoDup_keys_pairs.
Qed.

Lemma table_agrees_stored imgid t :
  NoDup (stored_snapshot imgid t).*1 → table_agrees imgid t (stored_snapshot imgid t).
Proof.
  intros Hnd. split; [by apply NoDup_keys_pairs|]. split; [done|].
  by intros p [Hp _]%elem_of_stored_part.
Qed.

Lemma stored_snapshot_printed imgid t : printed_keys (stored_snapshot imgid t).
Proof.
  intros k (q & -> & Hq)%list_elem_of_fmap.
  by apply (stored_snapshot_canonical imgid t).
Qed.

(** The whole step, for lists of pairs. *)
Lemma apply_diff_agrees imgid t b a :
  dt_is_valid_imgid imgid = true →
  NoDup b.*1 → NoDup a.*1 → printed_keys b → printed_keys a →
  int_keys imgid t → table_agrees imgid t b →
  ∃ t', _pop_undo_execute imgid (flat b) (flat a) t = Some t' ∧
        t' = Sql.insert_rows (insertions imgid b a)
               (Sql.delete_keys imgid (removals b a) t) ∧
        int_keys imgid t' ∧
        table_agrees imgid t' a ∧
        stored_snapshot imgid t' ≡ₚ stored_part a ∧
        ∀ j, j ≠ imgid → Sql.select_id j t' = Sql.select_id j t.
Proof.
  intros Hv Hb Ha Hcb Hca Hint Hag. eexists.
  rewrite pop_undo_execute_flat, bulk_add_rows, bulk_remove_valid by done.
  split; [done|]. split; [done|]. split; [by apply int_keys_step|].
  pose proof (apply_diff_NoDup imgid t b a Hv Hb Ha Hca Hint Hag) as Hnd.
  pose proof (λ p, apply_diff_elements imgid t b a p Hv Hb Ha Hcb Hca Hint Hag) as Hel.
  split; [|split].
  - split; [done|]. split.
    + intros p Hp%Hel. by apply elem_of_stored_part in Hp as [? _].
    + intros p Hp. by apply Hel.
  - apply NoDup_Permutation; [done| |done].
    apply NoDup_List_filter. by apply NoDup_keys_pairs.
  - intros j Hj. apply apply_diff_frame; [done|]. apply insertions_imgid.
Qed.
End apply.

(** X1. Let the image id be valid, let the keys of the before list and of the
    after list be pairwise distinct key ids as "%d" prints an [int], let the
    keys of the image's rows be in the range of [int], and let the table
    agree with the before list. Then applying the diff returns, the image's
    rows read back are, up to order, the pairs of the after list that have a
    value, the keys of the image's rows are still in the range of [int], the
    table agrees with the after list, and the rows of every other image read
    as before. *)
Theorem diff_apply_stores_after `{Externals} (imgid : Z) (t : list meta_row)
    (b a : snapshot) :
  dt_is_valid_imgid imgid = true →
  NoDup b.*1 → NoDup a.*1 → printed_keys b → printed_keys a →
  int_keys imgid t →
  table_agrees imgid t b →
  ∃ t', _pop_undo_execute imgid (flat b) (flat a) t = Some t' ∧
        stored_snapshot imgid t' ≡ₚ stored_part a ∧
        int_keys imgid t' ∧
        table_agrees imgid t' a ∧
        ∀ j, j ≠ imgid → Sql.select_id j t' = Sql.select_id j t.
Proof.
  intros Hv Hb Ha Hcb Hca Hint Hag.
  destruct (apply_diff_agrees imgid t b a Hv Hb Ha Hcb Hca Hint Hag)
    as (t' & Ht' & _ & Hint' & Hagree & Hperm & Hframe).
  by exists t'.
Qed.

Lemma diff_apply_stores_after_witness :
  let t : list meta_row := [(7, 1, Some "Ann"); (8, 1, Some "Cy"); (7, 2, Some "x")]%Z in
  let b := [("1", "Ann"); ("2", "x")] in
  let a := [("1", "Bea"); ("3", "new"); ("4", "")] in
  ∃ t', @_pop_undo_execute example_externals 7 (flat b) (flat a) t = Some t' ∧
        @stored_snapshot example_externals 7 t' ≡ₚ stored_part a ∧
        int_keys 7 t' ∧
        @table_agrees example_externals 7 t' a ∧
        ∀ j, j ≠ 7%Z → Sql.select_id j t' = Sql.select_id j t.
Proof.
  intros t b a.
  apply (@diff_apply_stores_after example_externals 7%Z t b a).
  - reflexivity.
  - apply (bool_decide_unpack _). vm_compute. reflexivity.
  - apply (bool_decide_unpack _). vm_compute. reflexivity.
  - unfold printed_keys. apply Forall_forall. repeat constructor.
  - unfold printed_keys. apply Forall_forall. repeat constructor.
  - int_keys_by_rows.
  - split; [|split].
    + apply (bool_decide_unpack _). vm_compute. reflexivity.
    + apply Forall_forall. vm_compute. repeat constructor.
    + apply Forall_forall. vm_compute. repeat constructor.
Defined.

(** ** Mutations, undo and redo on the table *)

Section mutation.
Context `{Externals} `{Queries}.
Import DiffSpec.

Lemma overwrite_first_keys k v s : (overwrite_first k v s).*1 = s.*1.
Proof.
  induction s as [|[k' v'] r IH]; [done|]. cbn [overwrite_first].
  destruct (String.eqb k' k); rewrite !fmap_cons; [done | by rewrite IH].
Qed.

Lemma merge_pair_keys k v s :
  (merge_pair s (k, v)).*1 =
  if bool_decide (k ∈ s.*1) then s.*1 else s.*1 ++ [k].
Proof.
  unfold merge_pair. cbn [fst snd].
  destruct (first_value k s) as [v'|] eqn:E.
  - rewrite overwrite_first_keys, bool_decide_eq_true_2; [done|].
    apply list_elem_of_fmap. exists (k, v'). split; [done|].
    by apply first_value_elem.
  - rewrite fmap_app, bool_decide_eq_false_2; [done|].
    intros (q & Hk & Hq)%list_elem_of_fmap.
    by apply (first_value_None_notin k s q).
Qed.

Lemma merge_pair_NoDup k v s : NoDup s.*1 → NoDup (merge_pair s (k, v)).*1.
Proof.
  intros Hnd. rewrite merge_pair_keys. case_bool_decide as Hk; [done|].
  apply NoDup_app. split; [done|]. split; [|apply NoDup_singleton].
  intros x Hx ->%list_elem_of_singleton. done.
Qed.

Lemma merge_pair_printed k v s :
  printed_keys s → print_d (atoi k) = k → printed_keys (merge_pair s (k, v)).
Proof.
  intros Hs Hk x. rewrite merge_pair_keys. case_bool_decide; [apply Hs|].
  intros [Hx| ->%list_elem_of_singleton]%elem_of_app; [by apply Hs | done].
Qed.

Lemma first_value_overwrite_ne k v s k' :
  k' ≠ k → first_value k' (overwrite_first k v s) = first_value k' s.
Proof.
  intros Hne. induction s as [|[k0 v0] r IH]; [done|]. simpl.
  destruct (String.eqb k0 k) eqn:E; simpl.
  - apply String.eqb_eq in E as ->.
    assert (String.eqb k k' = false) as -> by (apply String.eqb_neq; congruence).
    done.
  - by rewrite IH.
Qed.

Lemma first_value_app_ne k v s k' :
  k' ≠ k → first_value k' (s ++ [(k, v)]) = first_value k' s.
Proof.
  intros Hne. induction s as [|[k0 v0] r IH]; simpl.
  - assert (String.eqb k k' = false) as -> by (apply String.eqb_neq; congruence).
    done.
  - by rewrite IH.
Qed.

Lemma first_value_merge_pair_ne k v s k' :
  k' ≠ k → first_value k' (merge_pair s (k, v)) = first_value k' s.
Proof.
  intros Hne. unfold merge_pair. cbn [fst snd].
  destruct (first_value k s);
    [by apply first_value_overwrite_ne | by apply first_value_app_ne].
Qed.

Lemma metadata_after_set_flat before payload :
  metadata_after DT_MA_SET before (flat payload) = Some (flat payload).
Proof. unfold metadata_after. simpl. by rewrite fmap_g_strdup. Qed.

Lemma metadata_after_remove_flat before (keys : list string) :
  metadata_after DT_MA_REMOVE (flat before) (Some <$> keys) =
  Some (flat (fold_left (λ acc k, remove_first k acc) keys before)).
Proof.
  unfold metadata_after. simpl. rewrite fmap_g_strdup. apply remove_from_list_flat.
Qed.


(** What [execute_and_record] leaves of the state. *)
Lemma execute_and_record_single imgid metadata undo_on action st (a : snapshot) :
  metadata_after action (flat (stored_snapshot imgid (main_meta_data st))) metadata
    = Some (flat a) →
  ∃ st', execute_and_record [imgid] metadata undo_on action st = Some st' ∧
         _metadata_list st' = _metadata_list st ∧
         data_meta_data st' = data_meta_data st ∧
         conf st' = conf st ∧
         _pop_undo_execute imgid (flat (stored_snapshot imgid (main_meta_data st)))
           (flat a) (main_meta_data st) = Some (main_meta_data st') ∧
         undo_calls st' =
           if undo_on
           then undo_calls st ++
                [dt_undo_start_group DT_UNDO_METADATA;
                 dt_undo_record DT_UNDO_METADATA
                   [mk_undo imgid (flat (stored_snapshot imgid (main_meta_data st)))
                      (flat a)];
                 dt_undo_end_group]
           else undo_calls st.
Proof.
  intros Ha. unfold execute_and_record.
  assert (Hmain : ∀ c, main_meta_data (undo_call_add c st) = main_meta_data st) by done.
  destruct undo_on; [rewrite Hmain|];
    rewrite (metadata_execute_single _ _ _ _ _ _ a Ha);
    cbn [mbind option_bind]; eexists; (split; [done|]);
    rewrite pop_undo_execute_flat; cbn; rewrite <- ?app_assoc; done.
Qed.

Lemma select_value_stored imgid keyid t :
  dt_is_valid_imgid imgid = true →
  int_keys imgid t → (- 2 ^ 31 ≤ keyid < 2 ^ 31)%Z →
  default "" <$> select_value imgid keyid t =
  snd <$> List.filter (λ p, String.eqb p.1 (print_d keyid)) (stored_snapshot imgid t).
Proof.
  intros Hv Hint Hkey. unfold select_value, stored_snapshot, Sql.select_id. rewrite Hv.
  induction t as [|r t IH]; [done|].
  specialize (IH (int_keys_tail _ _ _ Hint)). cbn [List.filter].
  destruct (r.1.1 =? imgid)%Z eqn:Eid; cbn [andb]; [|exact IH].
  assert (Hr : (- 2 ^ 31 ≤ r.1.2 < 2 ^ 31)%Z).
  { apply Hint; [left | by apply Z.eqb_eq]. }
  cbn [fmap list_fmap List.filter fst snd]. rewrite (to_int32_small _ Hr).
  destruct (r.1.2 =? keyid)%Z eqn:E.
  - apply Z.eqb_eq in E. rewrite E, String.eqb_refl.
    cbn [fmap list_fmap snd]. f_equal. exact IH.
  - assert (String.eqb (print_d r.1.2) (print_d keyid) = false) as ->; [|exact IH].
    apply String.eqb_neq. intros Heq. apply Z.eqb_neq in E. apply E.
    by rewrite <- (atoi_print_d r.1.2), Heq, atoi_print_d.
Qed.

Lemma filter_singleton {A} (f : A → bool) (l : list A) y :
  NoDup l → y ∈ l → f y = true → (∀ x, x ∈ l → f x = true → x = y) →
  List.filter f l = [y].
Proof.
  induction l as [|a l IH]; [by intros _ ?%elem_of_nil|].
  intros [Hnotin Hnd]%NoDup_cons Hy Hfy Huniq. cbn [List.filter].
  destruct (f a) eqn:Hfa.
  - assert (a = y) as -> by (apply Huniq; [left | done]). f_equal.
    apply filter_nil_iff. intros x Hx. destruct (f x) eqn:Hfx; [|done].
    assert (x = y) as -> by (apply Huniq; [by right | done]). done.
  - apply IH; [done| |done|].
    + apply elem_of_cons in Hy as [->|Hy]; [congruence | done].
    + intros x Hx. apply Huniq. by right.
Qed.

Lemma collect_rows_spec {A} (f : A → metadata_item) (rows : list A) :
  collect_rows f rows = (f <$> rows, to_uint32 (Z.of_nat (length rows))).
Proof.
  unfold collect_rows.
  assert (Hgen : ∀ acc n,
    fold_left (λ (acc : list metadata_item * Z) row,
                 (f row :: acc.1, to_uint32 (acc.2 + 1))) rows (acc, to_uint32 n) =
    (rev (f <$> rows) ++ acc, to_uint32 (n + Z.of_nat (length rows)))).
  { induction rows as [|r rows IH]; intros acc n.
    - simpl. by rewrite Z.add_0_r.
    - cbn [fold_left fst snd].
      assert (to_uint32 (to_uint32 n + 1) = to_uint32 (n + 1)) as ->.
      { unfold to_uint32. apply Zplus_mod_idemp_l. }
      rewrite IH.
      rewrite fmap_cons. cbn [rev length]. rewrite <- app_assoc. cbn [app].
      do 2 f_equal. lia. }
  change (0%Z) with (to_uint32 0) at 1. rewrite Hgen.
  by rewrite app_nil_r, rev_involutive, Z.add_0_l.
Qed.
End mutation.



Section set_get.
Context `{Externals} `{Queries}.
Import DiffSpec.

(** The state after [dt_metadata_set] on a valid image and a known key. *)
Lemma dt_metadata_set_table i k value undo_on st :
  dt_is_valid_imgid i = true →
  to_int32 (dt_metadata_get_keyid (_metadata_list st) (Some k)) ≠ (-1)%Z →
  int_keys i (main_meta_data st) →
  NoDup (stored_snapshot i (main_meta_data st)).*1 →
  let a := merge_pair (stored_snapshot i (main_meta_data st))
             (print_d (to_int32 (dt_metadata_get_keyid (_metadata_list st) (Some k))),
              _cleanup_metadata_value value) in
  NoDup a.*1 ∧ printed_keys a ∧
  ∃ st', dt_metadata_set i (Some k) value undo_on st = Some st' ∧
         _metadata_list st' = _metadata_list st ∧
         main_meta_data st' =
           Sql.insert_rows (insertions i (stored_snapshot i (main_meta_data st)) a)
             (Sql.delete_keys i
                (removals (stored_snapshot i (main_meta_data st)) a)
                (main_meta_data st)) ∧
         int_keys i (main_meta_data st') ∧
         table_agrees i (main_meta_data st') a ∧
         stored_snapshot i (main_meta_data st') ≡ₚ stored_part a ∧
         ∀ j, j ≠ i → Sql.select_id j (main_meta_data st') =
                      Sql.select_id j (main_meta_data st).
Proof.
  intros Hv Hk Hint Hb a.
  pose proof (stored_snapshot_printed i (main_meta_data st)) as Hcb.
  assert (Ha : NoDup a.*1) by by apply merge_pair_NoDup.
  assert (Hca : printed_keys a).
  { apply merge_pair_printed; [done|]. by rewrite atoi_print_int. }
  split; [done|]. split; [done|].
  rewrite dt_metadata_set_known by done.
  destruct (execute_and_record_single i
              (flat [(print_d (to_int32
                        (dt_metadata_get_keyid (_metadata_list st) (Some k))),
                      _cleanup_metadata_value value)])
              undo_on DT_MA_ADD st a (metadata_after_add_flat _ _))
    as (st' & -> & Hreg & _ & _ & Hex & _).
  destruct (apply_diff_agrees i (main_meta_data st) _ a Hv Hb Ha Hcb Hca Hint
              (table_agrees_stored _ _ Hb))
    as (t' & Ht' & Hform & Hint' & Hag & Hperm & Hframe).
  rewrite Hex in Ht'. injection Ht' as Ht'. rewrite <- Ht' in *.
  exists st'. done.
Qed.

Lemma merge_pair_has k v s : (k, v) ∈ merge_pair s (k, v).
Proof. apply first_value_elem, first_value_merge_pair. Qed.

(** The values read for the key just written. *)
Lemma values_after_set i ks c t (b : snapshot) :
  dt_is_valid_imgid i = true →
  int_keys i t → (- 2 ^ 31 ≤ ks < 2 ^ 31)%Z →
  NoDup (merge_pair b (print_d ks, c)).*1 →
  table_agrees i t (merge_pair b (print_d ks, c)) →
  stored_snapshot i t ≡ₚ stored_part (merge_pair b (print_d ks, c)) →
  default "" <$> select_value i ks t = if String.eqb c "" then [] else [c].
Proof.
  intros Hv Hint Hks Ha (Hnd & Hsub & Hsup) Hperm.
  rewrite select_value_stored by done.
  set (a := merge_pair b (print_d ks, c)) in *.
  assert (Hkey : ∀ x, x ∈ stored_snapshot i t →
            String.eqb x.1 (print_d ks) = true → x = (print_d ks, c)).
  { intros x Hx Hk. apply String.eqb_eq in Hk.
    apply (same_key_same_pair a); [done|by apply Hsub|apply merge_pair_has|done]. }
  destruct (String.eqb c "") eqn:Ec.
  - apply String.eqb_eq in Ec.
    assert (List.filter (λ p, String.eqb p.1 (print_d ks)) (stored_snapshot i t) = [])
      as ->; [|done].
    apply filter_nil_iff. intros x Hx.
    destruct (String.eqb x.1 (print_d ks)) eqn:Hk; [|done].
    pose proof (Hkey x Hx Hk) as ->. rewrite Hperm in Hx.
    apply elem_of_stored_part in Hx as [_ Hne]. done.
  - apply String.eqb_neq in Ec.
    rewrite (filter_singleton _ _ (print_d ks, c)); [done|done| | |].
    + apply Hsup, elem_of_stored_part. split; [apply merge_pair_has | done].
    + apply String.eqb_refl.
    + exact Hkey.
Qed.
End set_get.

(** X3. On a valid image whose rows have keys in the range of [int] that
    read as pairwise distinct keys, writing a value for a registered key with
    [dt_metadata_set] and reading the key with [dt_metadata_get] gives back
    the cleaned value alone, with count 1; when the cleaned value is empty the
    read gives the empty list and count 0. *)
Theorem set_then_get `{Externals} `{Queries} (i : Z) (k : string)
    (value : option string) (undo_on : bool) (st : state) :
  dt_is_valid_imgid i = true →
  to_int32 (dt_metadata_get_keyid (_metadata_list st) (Some k)) ≠ (-1)%Z →
  int_keys i (main_meta_data st) →
  NoDup (stored_snapshot i (main_meta_data st)).*1 →
  ∃ st', dt_metadata_set i (Some k) value undo_on st = Some st' ∧
         dt_metadata_get i (Some k) st' =
         Some (if String.eqb (_cleanup_metadata_value value) "" then ([], 0%Z)
               else ([item_string (Some (_cleanup_metadata_value value))], 1%Z)).
Proof.
  intros Hv Hk Hint Hb.
  destruct (dt_metadata_set_table i k value undo_on st Hv Hk Hint Hb)
    as (Ha & Hca & st' & Hset & Hreg & _ & Hint' & Hag & Hperm & _).
  exists st'. split; [done|]. unfold dt_metadata_get. rewrite Hreg.
  apply Z.eqb_neq in Hk. rewrite Hk, Hv. cbn [negb].
  rewrite collect_rows_spec. f_equal.
  pose proof (values_after_set i _ _ _ _ Hv Hint' (to_int32_range _) Ha Hag Hperm)
    as Hval.
  set (sel := select_value i _ (main_meta_data st')) in *.
  assert ((λ value, item_string (Some (default "" value))) <$> sel =
          (λ s, item_string (Some s)) <$> (default "" <$> sel)) as ->.
  { by rewrite <- list_fmap_compose. }
  assert (length sel = length (default "" <$> sel)) as -> by by rewrite length_fmap.
  rewrite Hval. by destruct (String.eqb _ "").
Qed.

Lemma set_then_get_witness :
  let creator := md.mk 1 "Xmp.dc.creator" "creator" 0 1 0 0 in
  let st := mk_state [creator] [creator] [(7, 1, Some "Ann"); (7, 2, Some "x")]%Z
              ∅ [] [] in
  ∃ st', @dt_metadata_set example_externals 7 (Some "Xmp.dc.creator")
           (Some " Bea ") true st = Some st' ∧
         @dt_metadata_get example_externals example_queries 7
           (Some "Xmp.dc.creator") st' =
         Some (if String.eqb (_cleanup_metadata_value (Some " Bea ")) ""
               then ([], 0%Z)
               else ([item_string (Some (_cleanup_metadata_value (Some " Bea ")))],
                     1%Z)).
Proof.
  intros creator st.
  apply (@set_then_get example_externals example_queries 7%Z "Xmp.dc.creator"
           (Some " Bea ") true st).
  - reflexivity.
  - vm_compute. discriminate.
  - int_keys_by_rows.
  - apply (bool_decide_unpack _). vm_compute. reflexivity.
Defined.

Section idempotent.
Context `{Externals}.
Import DiffSpec.

(** Merging a pair that the table already reflects changes nothing. *)
Lemma second_merge_is_empty i ks c t (b0 : snapshot) :
  NoDup (merge_pair b0 (ks, c)).*1 →
  table_agrees i t (merge_pair b0 (ks, c)) →
  stored_snapshot i t ≡ₚ stored_part (merge_pair b0 (ks, c)) →
  let b := stored_snapshot i t in
  removals b (merge_pair b (ks, c)) = [] ∧
  insertions i b (merge_pair b (ks, c)) = [].
Proof.
  intros Ha (Hnd & Hsub & Hsup) Hperm b.
  set (a := merge_pair b0 (ks, c)) in *.
  assert (Hb : NoDup b.*1) by by apply (NoDup_keys_sub b a).
  split.
  - apply removals_nil_iff. intros p Hp. apply marked_false.
    assert (Hpa : p ∈ stored_part a) by by rewrite <- Hperm.
    apply elem_of_stored_part in Hpa as [Hpa Hne]. split; [|done].
    destruct (decide (p.1 = ks)) as [Hk|Hk].
    + assert (p = (ks, c)) as ->.
      { apply (same_key_same_pair a); [done|done|apply merge_pair_has|done]. }
      apply first_value_merge_pair.
    + rewrite first_value_merge_pair_ne by done.
      destruct p. by apply first_value_NoDup.
  - apply insertions_nil_iff. intros q Hq. apply emits_false.
    apply (elem_of_merge_pair _ _ _ _ Hb) in Hq as [->|[Hq _]].
    + destruct (decide (c = "")) as [->|Hc]; [by left|]. right.
      apply first_value_NoDup; [done|]. apply Hsup, elem_of_stored_part.
      split; [apply merge_pair_has | done].
    + right. destruct q. by apply first_value_NoDup.
Qed.
End idempotent.

(** X4. On a valid image whose rows have keys in the range of [int] that
    read as pairwise distinct keys, a second [dt_metadata_set] with the same
    registered key and value leaves the table exactly as the first one left
    it. *)
Theorem set_twice_same_table `{Externals} (i : Z) (k : string)
    (value : option string) (undo_on : bool) (st : state) :
  dt_is_valid_imgid i = true →
  to_int32 (dt_metadata_get_keyid (_metadata_list st) (Some k)) ≠ (-1)%Z →
  int_keys i (main_meta_data st) →
  NoDup (stored_snapshot i (main_meta_data st)).*1 →
  ∃ st1 st2,
    dt_metadata_set i (Some k) value undo_on st = Some st1 ∧
    dt_metadata_set i (Some k) value undo_on st1 = Some st2 ∧
    main_meta_data st2 = main_meta_data st1.
Proof.
  intros Hv Hk Hint Hb.
  destruct (dt_metadata_set_table i k value undo_on st Hv Hk Hint Hb)
    as (Ha & Hca & st1 & Hset1 & Hreg1 & _ & Hint1 & Hag1 & Hperm1 & _).
  assert (Hb1 : NoDup (stored_snapshot i (main_meta_data st1)).*1).
  { destruct Hag1 as (Hnd & Hsub & _). by eapply NoDup_keys_sub. }
  assert (Hk1 : to_int32 (dt_metadata_get_keyid (_metadata_list st1) (Some k))
                ≠ (-1)%Z) by by rewrite Hreg1.
  destruct (dt_metadata_set_table i k value undo_on st1 Hv Hk1 Hint1 Hb1)
    as (_ & _ & st2 & Hset2 & _ & Hmain2 & _).
  exists st1, st2. split; [done|]. split; [done|].
  rewrite Hmain2, Hreg1.
  destruct (second_merge_is_empty i _ _ _ _ Ha Hag1 Hperm1) as [-> ->].
  unfold Sql.insert_rows. rewrite delete_keys_nil. apply app_nil_r.
Qed.

Lemma set_twice_same_table_witness :
  let creator := md.mk 1 "Xmp.dc.creator" "creator" 0 1 0 0 in
  let st := mk_state [creator] [creator] [(7, 1, Some "Ann"); (7, 2, Some "x")]%Z
              ∅ [] [] in
  ∃ st1 st2,
    @dt_metadata_set example_externals 7 (Some "Xmp.dc.creator") (Some "Bea") true st
      = Some st1 ∧
    @dt_metadata_set example_externals 7 (Some "Xmp.dc.creator") (Some "Bea") true st1
      = Some st2 ∧
    main_meta_data st2 = main_meta_data st1.
Proof.
  intros creator st.
  apply (@set_twice_same_table example_externals 7%Z "Xmp.dc.creator" (Some "Bea")
           true st).
  - reflexivity.
  - vm_compute. discriminate.
  - int_keys_by_rows.
  - apply (bool_decide_unpack _). vm_compute. reflexivity.
Defined.

Section clear_table.
Context `{Externals}.
Import DiffSpec.

Lemma remove_first_keys_sublist k s : sublist (remove_first k s).*1 s.*1.
Proof. apply fmap_sublist, remove_first_sublist. Qed.

Lemma remove_first_notin k s : NoDup s.*1 → k ∉ (remove_first k s).*1.
Proof.
  induction s as [|[k' v'] r IH]; [by intros _ ?%elem_of_nil|]. cbn [remove_first].
  rewrite fmap_cons. intros [Hnotin Hnd]%NoDup_cons.
  destruct (String.eqb k' k) eqn:E.
  - apply String.eqb_eq in E as ->. done.
  - apply String.eqb_neq in E. rewrite fmap_cons.
    intros [Hk|Hk]%elem_of_cons; [by simpl in Hk | by apply IH].
Qed.

Lemma remove_keys_notin keys : ∀ s k,
  NoDup s.*1 → k ∈ keys →
  k ∉ (fold_left (λ acc k, remove_first k acc) keys s).*1.
Proof.
  induction keys as [|k0 ks IH]; intros s k Hnd Hk; [by apply elem_of_nil in Hk|].
  cbn [fold_left].
  assert (Hnd' : NoDup (remove_first k0 s).*1).
  { eapply sublist_NoDup; [done | apply remove_first_keys_sublist]. }
  apply elem_of_cons in Hk as [->|Hk]; [|by apply IH].
  intros Hin. apply (remove_first_notin k0 s Hnd).
  eapply elem_of_sublist; [exact Hin|].
  apply fmap_sublist, remove_keys_sublist.
Qed.

Lemma print_u_print_d z : (0 ≤ z < 2 ^ 31)%Z → print_u z = print_d z.
Proof.
  intros Hz. unfold print_u. rewrite Z.mod_small by lia.
  destruct z as [|q|q]; [by vm_compute | done | lia].
Qed.

Lemma List_filter_sublist {A} (f : A → bool) (l : list A) :
  sublist (List.filter f l) l.
Proof.
  induction l as [|x l IH]; [done|]. cbn [List.filter].
  destruct (f x); [by apply sublist_skip | by apply sublist_cons].
Qed.

Lemma List_filter_sublist_mono {A} (f : A → bool) (l1 l2 : list A) :
  sublist l1 l2 → sublist (List.filter f l1) (List.filter f l2).
Proof.
  induction 1 as [|x l1 l2 Hs IH|x l1 l2 Hs IH]; [done| |]; cbn [List.filter].
  - destruct (f x); [by apply sublist_skip | done].
  - destruct (f x); [by apply sublist_cons | done].
Qed.

Lemma stored_snapshot_sublist j t1 t :
  sublist t1 t → sublist (stored_snapshot j t1) (stored_snapshot j t).
Proof.
  intros Hs. unfold stored_snapshot, Sql.select_id.
  destruct (dt_is_valid_imgid j); [|done].
  by apply fmap_sublist, fmap_sublist, List_filter_sublist_mono.
Qed.

Lemma stored_keys_sublist j t1 t :
  sublist t1 t → NoDup (stored_snapshot j t).*1 → NoDup (stored_snapshot j t1).*1.
Proof.
  intros Hs Hnd. eapply sublist_NoDup; [exact Hnd|].
  by apply fmap_sublist, stored_snapshot_sublist.
Qed.

Lemma bulk_remove_sublist i rem t : sublist (_bulk_remove_metadata i rem t) t.
Proof.
  unfold _bulk_remove_metadata. destruct (_ && _); [|done].
  apply List_filter_sublist.
Qed.

Lemma bulk_remove_keeps i rem t (r : meta_row) :
  r ∈ t → (r.1.1 = i → r.1.2 ∉ rem) → r ∈ _bulk_remove_metadata i rem t.
Proof.
  intros Hr Hkeep. unfold _bulk_remove_metadata. destruct (_ && _); [|done].
  apply elem_of_delete_keys. split; [done|]. intros [Hid Hk]. by apply Hkeep.
Qed.

(** Removing keys from a list with distinct keys inserts nothing. *)
Lemma insertions_sublist_nil i (b a : snapshot) :
  NoDup b.*1 → sublist a b → insertions i b a = [].
Proof.
  intros Hb Hs. apply insertions_nil_iff. intros [k v] Hp. apply emits_false.
  right. apply first_value_NoDup; [done|]. by eapply elem_of_sublist.
Qed.

(** A row with a value whose key, as it is read, is not among the keys to
    remove is not deleted. *)
Lemma remove_keeps_row i (keys : list string) t (r : meta_row) v :
  NoDup (stored_snapshot i t).*1 →
  r ∈ t → r.1.1 = i → r.2 = Some v → v ≠ "" →
  print_d (to_int32 r.1.2) ∉ keys →
  r.1.2 ∉ removals (stored_snapshot i t)
            (fold_left (λ acc k, remove_first k acc) keys (stored_snapshot i t)).
Proof.
  intros Hb Hr Hid Hval Hne Hunlisted Hin.
  pose proof (removals_range _ _ _ Hin) as Hrange.
  destruct (dt_is_valid_imgid i) eqn:Hv.
  2:{ unfold stored_snapshot in Hin. rewrite Hv in Hin.
      apply elem_of_removals in Hin as (p & Hp & _). by apply elem_of_nil in Hp. }
  rewrite (to_int32_small _ Hrange) in Hunlisted.
  set (b := stored_snapshot i t) in *.
  set (p := (print_d r.1.2, v)).
  assert (Hp : p ∈ b).
  { unfold p. replace v with (default "" r.2) by by rewrite Hval.
    rewrite <- (to_int32_small _ Hrange) at 1. by apply stored_snapshot_elem. }
  assert (Hatoi : atoi p.1 = r.1.2) by by apply atoi_print_d.
  rewrite <- Hatoi in Hin.
  rewrite removed_iff_marked in Hin by (done || apply stored_snapshot_printed).
  assert (marked_for_removal
            (fold_left (λ acc k, remove_first k acc) keys b) p = false);
    [|congruence].
  apply marked_false. split; [|done].
  apply first_value_NoDup.
  { eapply sublist_NoDup; [exact Hb|]. apply fmap_sublist, remove_keys_sublist. }
  set (f := λ q : string * string, bool_decide (q.1 ∉ keys)).
  assert (Hfp : f p = true) by by apply bool_decide_eq_true_2.
  assert (Hpf : p ∈ List.filter f b) by by apply elem_of_List_filter.
  rewrite <- (filter_remove_keys f keys b) in Hpf.
  - by apply elem_of_List_filter in Hpf as [? _].
  - intros k' v' Hk'. by apply bool_decide_eq_false_2; intros Hn.
Qed.

(** A row of a valid image whose key is in the range of [int] and is among
    the keys to remove is deleted. *)
Lemma remove_deletes_row i (keys : list string) t (r : meta_row) :
  dt_is_valid_imgid i = true →
  NoDup (stored_snapshot i t).*1 →
  r ∈ t → r.1.1 = i → (- 2 ^ 31 ≤ r.1.2 < 2 ^ 31)%Z →
  print_d r.1.2 ∈ keys →
  r.1.2 ∈ removals (stored_snapshot i t)
            (fold_left (λ acc k, remove_first k acc) keys (stored_snapshot i t)).
Proof.
  intros Hv Hb Hr Hid Hrange Hk.
  pose proof (stored_snapshot_elem i t r Hv Hr Hid) as Hp.
  rewrite (to_int32_small _ Hrange) in Hp.
  apply elem_of_removals. eexists. split; [exact Hp|].
  split; [|by apply atoi_print_d]. unfold marked_for_removal. cbn [fst snd].
  destruct (first_value _ _) as [v'|] eqn:E; [|done]. exfalso.
  apply first_value_elem in E.
  apply (remove_keys_notin keys _ _ Hb Hk).
  apply list_elem_of_fmap. by eexists (_, _).
Qed.

(** A row of a valid image whose key is in the range of [int] and whose
    value is NULL or empty is deleted, whatever the keys to remove are. *)
Lemma remove_deletes_empty i (keys : list string) t (r : meta_row) :
  dt_is_valid_imgid i = true →
  r ∈ t → r.1.1 = i → (- 2 ^ 31 ≤ r.1.2 < 2 ^ 31)%Z →
  default "" r.2 = "" →
  r.1.2 ∈ removals (stored_snapshot i t)
            (fold_left (λ acc k, remove_first k acc) keys (stored_snapshot i t)).
Proof.
  intros Hv Hr Hid Hrange Hempty.
  pose proof (stored_snapshot_elem i t r Hv Hr Hid) as Hp.
  rewrite (to_int32_small _ Hrange), Hempty in Hp.
  apply elem_of_removals. eexists. split; [exact Hp|].
  split; [|by apply atoi_print_d].
  destruct (marked_for_removal _ _) eqn:Hm; [done|].
  by apply marked_false in Hm as [_ Hne].
Qed.

(** One image under the remove action. *)
Lemma remove_step i (keys : list string) t :
  NoDup (stored_snapshot i t).*1 →
  let b := stored_snapshot i t in
  let a := fold_left (λ acc k, remove_first k acc) keys b in
  ∃ t1, _pop_undo_execute i (flat b) (flat a) t = Some t1 ∧
        sublist t1 t ∧
        (∀ (r : meta_row) v, r ∈ t → r.2 = Some v → v ≠ "" →
           print_d (to_int32 r.1.2) ∉ keys → r ∈ t1) ∧
        (dt_is_valid_imgid i = true →
         ∀ r : meta_row, r ∈ t1 → r.1.1 = i → (- 2 ^ 31 ≤ r.1.2 < 2 ^ 31)%Z →
           (print_d r.1.2 ∉ keys) ∧ default "" r.2 ≠ "").
Proof.
  intros Hb b a. eexists. rewrite pop_undo_execute_flat.
  rewrite (insertions_sublist_nil i b a Hb) by apply remove_keys_sublist.
  rewrite bulk_add_rows. unfold Sql.insert_rows. cbn [fmap list_fmap].
  rewrite app_nil_r. split; [done|]. split; [apply bulk_remove_sublist|]. split.
  - intros r v Hr Hval Hne Hunl. apply bulk_remove_keeps; [done|].
    intros Hid. by apply (remove_keeps_row i keys t r v).
  - intros Hv r Hr Hid Hrange. rewrite bulk_remove_valid in Hr by done.
    apply elem_of_delete_keys in Hr as [Hr Hn]. split.
    + intros Hk. apply Hn. split; [done|]. by apply remove_deletes_row.
    + intros Hempty. apply Hn. split; [done|].
      by apply remove_deletes_empty.
Qed.

(** A batch under the remove action. *)
Lemma remove_batch (keys : list string) imgs : ∀ undo undo_on t,
  (∀ i, i ∈ imgs → NoDup (stored_snapshot i t).*1) →
  ∃ t' undo',
    _metadata_execute imgs (Some <$> keys) undo undo_on DT_MA_REMOVE t
      = Some (t', undo') ∧
    sublist t' t ∧
    (∀ (r : meta_row) v, r ∈ t → r.2 = Some v → v ≠ "" →
       print_d (to_int32 r.1.2) ∉ keys → r ∈ t') ∧
    (∀ r : meta_row, r ∈ t' → r.1.1 ∈ imgs → dt_is_valid_imgid r.1.1 = true →
       (- 2 ^ 31 ≤ r.1.2 < 2 ^ 31)%Z →
       (print_d r.1.2 ∉ keys) ∧ default "" r.2 ≠ "").
Proof.
  induction imgs as [|i imgs IH]; intros undo undo_on t Hnd.
  { exists t, undo. split; [done|]. split; [done|]. split; [done|].
    by intros r _ ?%elem_of_nil. }
  cbn [_metadata_execute]. rewrite get_list_id_flat, metadata_after_remove_flat.
  cbn [mbind option_bind].
  destruct (remove_step i keys t (Hnd i (list_elem_of_here _ _)))
    as (t1 & -> & Hs1 & Hkept1 & Hdel1).
  cbn [mbind option_bind].
  assert (Hnd1 : ∀ j, j ∈ imgs → NoDup (stored_snapshot j t1).*1).
  { intros j Hj. apply (stored_keys_sublist j t1 t Hs1). apply Hnd. by right. }
  match goal with
  | |- context [_metadata_execute imgs _ ?u undo_on _ t1] =>
      destruct (IH u undo_on t1 Hnd1) as (t' & undo' & -> & Hs & Hkept & Hdel)
  end.
  exists t', undo'. split; [done|]. split; [by etrans|]. split.
  - intros r v Hr Hval Hne Hunl. apply (Hkept r v); try done.
    by apply (Hkept1 r v).
  - intros r Hr Hin Hv Hrange. destruct (decide (r.1.1 = i)) as [Hid|Hid].
    + rewrite Hid in Hv. apply (Hdel1 Hv r); [|done..].
      by eapply elem_of_sublist.
    + apply Hdel; try done. apply elem_of_cons in Hin as [?|?]; done.
Qed.

(** The table [execute_and_record] leaves is the table of the batch. *)
Lemma execute_and_record_table imgs metadata undo_on action st t undo :
  _metadata_execute imgs metadata [] undo_on action (main_meta_data st)
    = Some (t, undo) →
  ∃ st', execute_and_record imgs metadata undo_on action st = Some st' ∧
         main_meta_data st' = t ∧ _metadata_list st' = _metadata_list st.
Proof.
  intros Hex. unfold execute_and_record.
  assert (Hmain : ∀ c, main_meta_data (undo_call_add c st) = main_meta_data st) by done.
  destruct undo_on; [rewrite Hmain|]; rewrite Hex; cbn [mbind option_bind];
    by eexists.
Qed.

(** [dt_metadata_clear] on the table. *)
Lemma clear_table imgs undo_on st :
  (∀ i, i ∈ imgs → NoDup (stored_snapshot i (main_meta_data st)).*1) →
  ∃ st', dt_metadata_clear imgs undo_on st = Some st' ∧
    sublist (main_meta_data st') (main_meta_data st) ∧
    (∀ (r : meta_row) v,
       r ∈ main_meta_data st → r.2 = Some v → v ≠ "" →
       Some (print_d (to_int32 r.1.2)) ∉ clear_payload (_metadata_list st) →
       r ∈ main_meta_data st') ∧
    (∀ r : meta_row, r ∈ main_meta_data st' → r.1.1 ∈ imgs →
       dt_is_valid_imgid r.1.1 = true → (- 2 ^ 31 ≤ r.1.2 < 2 ^ 31)%Z →
       (Some (print_d r.1.2) ∉ clear_payload (_metadata_list st)) ∧
       (clear_payload (_metadata_list st) ≠ [] → default "" r.2 ≠ "")) ∧
    (∀ j, j ∉ imgs → Sql.select_id j (main_meta_data st') =
                     Sql.select_id j (main_meta_data st)).
Proof.
  intros Hnd. unfold dt_metadata_clear, dt_metadata_get_list.
  case_bool_decide as Hempty; cbn [negb].
  { exists st. split; [done|]. split; [done|]. split; [done|]. split; [|done].
    intros r _ _ _ _. rewrite Hempty. split; [apply not_elem_of_nil | done]. }
  rewrite clear_payload_keys.
  set (keys := (λ m, print_u (md.key m)) <$> _).
  destruct (remove_batch keys imgs [] undo_on (main_meta_data st) Hnd)
    as (t' & undo' & Hex & Hs & Hkept & Hdel).
  destruct (execute_and_record_table _ _ _ _ _ _ _ Hex) as (st' & -> & Hmain & _).
  exists st'. rewrite Hmain. split; [done|]. split; [done|].
  split; [|split].
  - intros r v Hr Hval Hne Hunl. apply (Hkept r v); try done.
    intros Hin. apply Hunl. by apply list_elem_of_fmap_2.
  - intros r Hr Hin Hv Hrange. destruct (Hdel r Hr Hin Hv Hrange) as [Hk Hval].
    split; [|done]. intros (k & [= <-] & Hk')%list_elem_of_fmap. done.
  - intros j Hj. by eapply metadata_execute_frame.
Qed.
End clear_table.

(** X5. [dt_metadata_clear] on a valid image whose rows read as pairwise
    distinct keys returns; afterwards the table holds no row of that image for
    any registered definition that is not internal, is visible and has an id
    below 2^31; a row of the image whose key, as it is read, is not on the
    clear list and whose value is not empty is still there; the rows of other
    images read as before. *)
Theorem clear_table_rows `{Externals} (i : Z) (undo_on : bool) (st : state) :
  dt_is_valid_imgid i = true →
  NoDup (stored_snapshot i (main_meta_data st)).*1 →
  ∃ st', dt_metadata_clear [i] undo_on st = Some st' ∧
    (∀ m (r : meta_row),
       m ∈ _metadata_list st → md.internal m = 0%Z → md.visible m ≠ 0%Z →
       (0 ≤ md.key m < 2 ^ 31)%Z →
       r ∈ main_meta_data st' → ¬ (r.1.1 = i ∧ r.1.2 = md.key m)) ∧
    (∀ (r : meta_row) v,
       r ∈ main_meta_data st → r.1.1 = i → r.2 = Some v → v ≠ "" →
       Some (print_d (to_int32 r.1.2)) ∉ clear_payload (_metadata_list st) →
       r ∈ main_meta_data st') ∧
    (∀ j, j ≠ i → Sql.select_id j (main_meta_data st') =
                  Sql.select_id j (main_meta_data st)).
Proof.
  intros Hv Hb.
  destruct (clear_table [i] undo_on st) as (st' & Hst' & _ & Hkept & Hdel & Hframe).
  { by intros j ->%list_elem_of_singleton. }
  exists st'. split; [done|]. split; [|split].
  - intros m r Hm Hi Hvis Hrange Hr [Hid Hkey].
    destruct (Hdel r Hr) as [Hgone _];
      [by rewrite Hid; left | by rewrite Hid | lia |].
    apply Hgone. apply elem_of_clear_payload. exists m. split; [done|]. split; [done|].
    split; [done|]. by rewrite Hkey, print_u_print_d.
  - intros r v Hr _ Hval Hne Hunl. by apply (Hkept r v).
  - intros j Hj. apply Hframe. by intros ->%list_elem_of_singleton.
Qed.

Lemma clear_table_rows_witness :
  let creator := md.mk 1 "Xmp.dc.creator" "creator" 0 1 0 0 in
  let version := md.mk 2 "Xmp.darktable.version_name" "version name" 1 1 0 1 in
  let st := mk_state [creator; version] [creator; version]
              [(7, 1, Some "Ann"); (7, 2, Some "v1"); (8, 1, Some "Cy")]%Z ∅ [] [] in
  ∃ st', @dt_metadata_clear example_externals [7%Z] true st = Some st' ∧
    (∀ m (r : meta_row),
       m ∈ _metadata_list st → md.internal m = 0%Z → md.visible m ≠ 0%Z →
       (0 ≤ md.key m < 2 ^ 31)%Z →
       r ∈ main_meta_data st' → ¬ (r.1.1 = 7%Z ∧ r.1.2 = md.key m)) ∧
    (∀ (r : meta_row) v,
       r ∈ main_meta_data st → r.1.1 = 7%Z → r.2 = Some v → v ≠ "" →
       Some (print_d (to_int32 r.1.2)) ∉ clear_payload (_metadata_list st) →
       r ∈ main_meta_data st') ∧
    (∀ j, j ≠ 7%Z → Sql.select_id j (main_meta_data st') =
                    Sql.select_id j (main_meta_data st)).
Proof.
  intros creator version st.
  apply (@clear_table_rows example_externals 7%Z true st).
  - reflexivity.
  - apply (bool_decide_unpack _). vm_compute. reflexivity.
Defined.




(** ** Cleaned values and the empty value *)

Section deletion.
Context `{Externals}.
Import DiffSpec.
















Lemma flat_nil_iff (s : snapshot) : flat s = [] ↔ s = [].
Proof. by destruct s as [|[k v] s]. Qed.



End deletion.




(** ** What the writes never do *)


(** X6. Whatever the before and after lists hold, when the diff is applied
    every row of the new table is a row of the old table or a row of the
    image with a value that is not NULL and not empty: no empty value is ever
    written. For an image id that is not valid nothing is deleted, the new
    rows are only appended. *)
Theorem writes_no_empty_value `{Externals} (i : Z) (before after : GList)
    (t t' : list meta_row) :
  _pop_undo_execute i before after t = Some t' →
  (∀ r : meta_row, r ∈ t' →
     r ∈ t ∨ (r.1.1 = i ∧ ∃ v, r.2 = Some v ∧ v ≠ "")) ∧
  (dt_is_valid_imgid i = false → t `prefix_of` t').
Proof.
  intros Hex. split.
  - intros r Hr. by eapply new_rows.
  - intros Hv. by eapply invalid_id_appends.
Qed.

Lemma writes_no_empty_value_witness :
  let t : list meta_row := [(7, 1, Some "Ann")]%Z in
  let t' : list meta_row := [(7, 2, Some "x")]%Z in
  (∀ r : meta_row, r ∈ t' →
     r ∈ t ∨ (r.1.1 = 7%Z ∧ ∃ v, r.2 = Some v ∧ v ≠ "")) ∧
  (@dt_is_valid_imgid example_externals 7 = false → t `prefix_of` t').
Proof.
  intros t t'.
  apply (@writes_no_empty_value example_externals 7%Z
           (flat [("1", "Ann")]) (flat [("1", ""); ("2", "x"); ("3", "")]) t t').
  vm_compute. reflexivity.
Defined.

(** X7. A batch over a list of images, and a replay of a list of undo
    entries, leave the rows of every image that is not in the list as they
    were, whatever the payload and the entries hold. *)
Theorem other_images_untouched `{Externals} (j : Z) :
  (∀ imgs metadata undo undo_on action t t' undo',
     _metadata_execute imgs metadata undo undo_on action t = Some (t', undo') →
     j ∉ imgs → Sql.select_id j t' = Sql.select_id j t) ∧
  (∀ data action t imgs t' imgs',
     _pop_undo_loop data action t imgs = Some (t', imgs') →
     j ∉ imgid <$> data → Sql.select_id j t' = Sql.select_id j t).
Proof.
  split.
  - intros. by eapply metadata_execute_frame.
  - intros. by eapply pop_undo_loop_frame.
Qed.

Lemma other_images_untouched_witness :
  let t : list meta_row := [(7, 1, Some "Ann"); (8, 1, Some "Cy")]%Z in
  let t' : list meta_row := [(8, 1, Some "Cy"); (7, 1, Some "Bea")]%Z in
  Sql.select_id 8 t' = Sql.select_id 8 t.
Proof.
  intros t t'.
  apply (proj1 (@other_images_untouched example_externals 8%Z)
           [7%Z] (flat [("1", "Bea")]) [] false DT_MA_ADD t t' []).
  - vm_compute. reflexivity.
  - apply (bool_decide_unpack _). vm_compute. reflexivity.
Defined.

(** ** Undo entries and replays *)

Section bookkeeping.
Context `{Externals}.

(** The table a batch has reached after its first images does not depend on
    the [undo] list it was given. *)
Lemma metadata_execute_read imgs metadata action j : ∀ undo t tn un,
  _metadata_execute imgs metadata undo true action t = Some (tn, un) →
  j ∉ imgs →
  dt_metadata_get_list_id j tn = dt_metadata_get_list_id j t.
Proof.
  intros undo t tn un Hex Hj. unfold dt_metadata_get_list_id.
  by rewrite (metadata_execute_frame _ _ _ _ _ _ _ _ _ Hex Hj).
Qed.

Lemma pop_undo_loop_imgs data action : ∀ t imgs t' imgs',
  _pop_undo_loop data action t imgs = Some (t', imgs') →
  imgs' = rev (imgid <$> data) ++ imgs.
Proof.
  induction data as [|e data IH]; intros t imgs t' imgs'; cbn [_pop_undo_loop].
  { by intros [= _ <-]. }
  destruct (_pop_undo_execute (imgid e) _ _ t) as [t1|]; [|done].
  cbn [mbind option_bind]. intros Hex. rewrite (IH _ _ _ _ Hex).
  rewrite fmap_cons. cbn [rev]. by rewrite <- app_assoc.
Qed.
End bookkeeping.

(** X8. A batch with undo recording appends one entry per image, in the
    order of the images. The entry of an image holds as its before list the
    list [dt_metadata_get_list_id] reads for the image from the table as the
    images in front of it left it, which is the table the batch started from
    when the image does not occur earlier in the batch; the before list has
    even length and the after list is computed from it. A replay of undo data
    of the metadata type reports the images of the entries, the last one
    first, in front of the images already reported, raises the signal once
    and changes nothing but the value table; a replay of another type changes
    nothing. *)
Theorem undo_bookkeeping `{Externals} :
  (∀ imgs metadata action undo t t' undo',
     _metadata_execute imgs metadata undo true action t = Some (t', undo') →
     ∃ es, undo' = undo ++ es ∧ imgid <$> es = imgs ∧
           (∀ e, e ∈ es →
              metadata_after action (before e) metadata = Some (after e) ∧
              paired (before e)) ∧
           (∀ n e, es !! n = Some e →
              ∃ tn un,
                _metadata_execute (take n imgs) metadata undo true action t
                  = Some (tn, un) ∧
                before e = dt_metadata_get_list_id (imgid e) tn) ∧
           (∀ n e, es !! n = Some e → imgid e ∉ take n imgs →
              before e = dt_metadata_get_list_id (imgid e) t)) ∧
  (∀ data action imgs st st' imgs',
     _pop_undo DT_UNDO_METADATA data action imgs st = Some (st', imgs') →
     imgs' = rev (imgid <$> data) ++ imgs ∧
     signals st' = signals st ++ [DT_SIGNAL_MOUSE_OVER_IMAGE_CHANGE] ∧
     _metadata_list st' = _metadata_list st ∧
     data_meta_data st' = data_meta_data st ∧
     conf st' = conf st ∧
     undo_calls st' = undo_calls st) ∧
  (∀ n data action imgs st,
     _pop_undo (DT_UNDO_OTHER n) data action imgs st = Some (st, imgs)).
Proof.
  split; [|split].
  - intros imgs metadata action undo t t' undo' Hex.
    destruct (metadata_execute_entries _ _ _ _ _ _ _ Hex)
      as (es & Hu & Hids & Hes & Hread).
    exists es. split; [done|]. split; [done|]. split; [done|]. split; [done|].
    intros n e He Hnotin. destruct (Hread n e He) as (tn & un & Hn & ->).
    by eapply metadata_execute_read.
  - intros data action imgs st st' imgs'. unfold _pop_undo.
    rewrite bool_decide_eq_true_2 by done.
    destruct (_pop_undo_loop data action (main_meta_data st) imgs)
      as [[t i']|] eqn:E; [|done].
    cbn [mbind option_bind]. intros [= <- <-].
    split; [by eapply pop_undo_loop_imgs | done].
  - done.
Qed.

Lemma undo_bookkeeping_witness :
  let t : list meta_row := [(7, 1, Some "Ann"); (8, 1, Some "Cy")]%Z in
  let e7 := mk_undo 7 (flat [("1", "Ann")]) (flat [("1", "Bea")]) in
  let e8 := mk_undo 8 (flat [("1", "Cy")]) (flat [("1", "Bea")]) in
  before e8 = @dt_metadata_get_list_id example_externals 8 t.
Proof.
  intros t e7 e8.
  destruct (proj1 (@undo_bookkeeping example_externals) [7; 8]%Z (flat [("1", "Bea")])
              DT_MA_ADD [] t [(7, 1, Some "Bea"); (8, 1, Some "Bea")]%Z [e7; e8])
    as (es & Hes & _ & _ & _ & Hfirst).
  - vm_compute. reflexivity.
  - cbn [app] in Hes. subst es. apply (Hfirst 1%nat e8).
    + reflexivity.
    + apply (bool_decide_unpack _). vm_compute. reflexivity.
Defined.

(** ** The registry lookups *)

Section lookups.
Context `{Externals}.

Lemma prefix_refl s : String.prefix s s = true.
Proof.
  induction s as [|c s IH]; [done|]. simpl. by destruct (ascii_dec c c).
Qed.

Lemma get_by_keyid_spec l keyid :
  match dt_metadata_get_metadata_by_keyid l keyid with
  | Some m => ∃ l1 l2, l = l1 ++ m :: l2 ∧ md.key m = keyid ∧
                       ∀ m', m' ∈ l1 → md.key m' ≠ keyid
  | None => ∀ m', m' ∈ l → md.key m' ≠ keyid
  end.
Proof.
  induction l as [|m l IH]; [by intros m' ?%elem_of_nil|].
  cbn [dt_metadata_get_metadata_by_keyid].
  destruct (md.key m =? keyid)%Z eqn:E.
  - apply Z.eqb_eq in E. exists [], l. split; [done|]. split; [done|].
    by intros m' ?%elem_of_nil.
  - apply Z.eqb_neq in E.
    destruct (dt_metadata_get_metadata_by_keyid l keyid) as [m0|].
    + destruct IH as (l1 & l2 & -> & Hk & Hfirst). exists (m :: l1), l2.
      split; [done|]. split; [done|].
      intros m' [->|Hm']%elem_of_cons; [done | by apply Hfirst].
    + intros m' [->|Hm']%elem_of_cons; [done | by apply IH].
Qed.

Lemma get_key_by_keyid l keyid :
  dt_metadata_get_key l keyid =
  md.tagname <$> dt_metadata_get_metadata_by_keyid l keyid.
Proof.
  induction l as [|m l IH]; [done|].
  cbn [dt_metadata_get_key dt_metadata_get_metadata_by_keyid].
  by destruct (md.key m =? keyid)%Z.
Qed.

Lemma get_by_tagname_spec l tag :
  match dt_metadata_get_metadata_by_tagname l tag with
  | Some m => ∃ l1 l2, l = l1 ++ m :: l2 ∧ tag = Some (md.tagname m) ∧
                       ∀ m', m' ∈ l1 → Some (md.tagname m') ≠ tag
  | None => ∀ m', m' ∈ l → Some (md.tagname m') ≠ tag
  end.
Proof.
  induction l as [|m l IH]; [by intros m' ?%elem_of_nil|].
  cbn [dt_metadata_get_metadata_by_tagname].
  destruct (g_strcmp0 (Some (md.tagname m)) tag =? 0)%Z eqn:E.
  - apply Z.eqb_eq, g_strcmp0_zero in E. exists [], l. split; [done|].
    split; [done|]. by intros m' ?%elem_of_nil.
  - assert (Hne : Some (md.tagname m) ≠ tag).
    { intros Heq. apply Z.eqb_neq in E. apply E. by apply g_strcmp0_zero. }
    destruct (dt_metadata_get_metadata_by_tagname l tag) as [m0|].
    + destruct IH as (l1 & l2 & -> & Hk & Hfirst). exists (m :: l1), l2.
      split; [done|]. split; [done|].
      intros m' [->|Hm']%elem_of_cons; [done | by apply Hfirst].
    + intros m' [->|Hm']%elem_of_cons; [done | by apply IH].
Qed.

Lemma get_key_by_subkey_spec l sub :
  match get_key_by_subkey_loop l (Some sub) with
  | Some tag => ∃ l1 m l2, l = l1 ++ m :: l2 ∧ md.tagname m = tag ∧
                  dt_metadata_get_tag_subkey tag = Some sub ∧
                  ∀ m', m' ∈ l1 → dt_metadata_get_tag_subkey (md.tagname m') ≠ Some sub
  | None => ∀ m', m' ∈ l → dt_metadata_get_tag_subkey (md.tagname m') ≠ Some sub
  end.
Proof.
  unfold dt_metadata_get_tag_subkey.
  induction l as [|m l IH]; [by intros m' ?%elem_of_nil|].
  cbn [get_key_by_subkey_loop].
  assert (Hstep : after_last_dot (md.tagname m) ≠ Some sub →
    match get_key_by_subkey_loop l (Some sub) with
    | Some tag => ∃ l1 m0 l2, m :: l = l1 ++ m0 :: l2 ∧ md.tagname m0 = tag ∧
                    after_last_dot tag = Some sub ∧
                    ∀ m', m' ∈ l1 → after_last_dot (md.tagname m') ≠ Some sub
    | None => ∀ m', m' ∈ m :: l → after_last_dot (md.tagname m') ≠ Some sub
    end).
  { intros Hne. destruct (get_key_by_subkey_loop l (Some sub)) as [tag|].
    - destruct IH as (l1 & m0 & l2 & -> & Ht & Hs & Hfirst).
      exists (m :: l1), m0, l2. split; [done|]. split; [done|]. split; [done|].
      intros m' [->|Hm']%elem_of_cons; [done | by apply Hfirst].
    - intros m' [->|Hm']%elem_of_cons; [done | by apply IH]. }
  destruct (after_last_dot (md.tagname m)) as [t|] eqn:Et; [|by apply Hstep].
  destruct (g_strcmp0 (Some t) (Some sub) =? 0)%Z eqn:E.
  - apply Z.eqb_eq, g_strcmp0_zero in E as [= ->].
    exists [], m, l. split; [done|]. split; [done|]. split; [done|].
    by intros m' ?%elem_of_nil.
  - apply Hstep. intros [= ->]. apply Z.eqb_neq in E. apply E.
    by apply g_strcmp0_zero.
Qed.

Lemma after_last_dot_no_dot s t :
  after_last_dot s = Some t → after_last_dot t = None.
Proof.
  revert t. induction s as [|c r IH]; intros t; [done|]. cbn [after_last_dot].
  destruct (after_last_dot r) as [t'|] eqn:E.
  - intros [= <-]. by apply IH.
  - destruct (Ascii.eqb c "."); [by intros [= <-] | done].
Qed.
End lookups.

(** X9. The lookup of a definition by id returns the first entry of the
    registry with that id, and nothing only when no entry has it; the lookup
    of the tag name of an id is the tag name of that entry; the lookup by tag
    name returns the first entry with that tag name, and nothing when there
    is none or the name is NULL. *)
Theorem registry_lookups (l : list dt_metadata_t) :
  (∀ keyid,
     match dt_metadata_get_metadata_by_keyid l keyid with
     | Some m => ∃ l1 l2, l = l1 ++ m :: l2 ∧ md.key m = keyid ∧
                          ∀ m', m' ∈ l1 → md.key m' ≠ keyid
     | None => ∀ m', m' ∈ l → md.key m' ≠ keyid
     end) ∧
  (∀ keyid, dt_metadata_get_key l keyid =
            md.tagname <$> dt_metadata_get_metadata_by_keyid l keyid) ∧
  (∀ tag,
     match dt_metadata_get_metadata_by_tagname l tag with
     | Some m => ∃ l1 l2, l = l1 ++ m :: l2 ∧ tag = Some (md.tagname m) ∧
                          ∀ m', m' ∈ l1 → Some (md.tagname m') ≠ tag
     | None => ∀ m', m' ∈ l → Some (md.tagname m') ≠ tag
     end) ∧
  dt_metadata_get_metadata_by_tagname l None = None.
Proof.
  split; [apply get_by_keyid_spec|]. split; [apply get_key_by_keyid|].
  split; [apply get_by_tagname_spec|].
  pose proof (get_by_tagname_spec l None) as Hs.
  destruct (dt_metadata_get_metadata_by_tagname l None); [|done].
  by destruct Hs as (? & ? & _ & ? & _).
Qed.

Lemma registry_lookups_witness :
  let creator := md.mk 1 "Xmp.dc.creator" "creator" 0 1 0 0 in
  let title := md.mk 2 "Xmp.dc.title" "title" 0 1 0 0 in
  title ∈ [creator; title] ∧ md.key title ≠ 5%Z.
Proof.
  intros creator title.
  assert (Hin : title ∈ [creator; title]) by (right; left).
  split; [exact Hin|].
  exact (proj1 (registry_lookups [creator; title]) 5%Z title Hin).
Defined.

(** X10. The lookup by subkey returns the tag name of the first entry whose
    text after the last dot is the subkey, so the subkey of the answer is the
    subkey asked for; it returns nothing only when no entry has that subkey,
    or when the subkey is NULL. A subkey never holds a dot. *)
Theorem subkey_lookup (l : list dt_metadata_t) :
  (∀ sub,
     match dt_metadata_get_key_by_subkey l (Some sub) with
     | Some tag => ∃ l1 m l2, l = l1 ++ m :: l2 ∧ md.tagname m = tag ∧
                     dt_metadata_get_tag_subkey tag = Some sub ∧
                     ∀ m', m' ∈ l1 →
                           dt_metadata_get_tag_subkey (md.tagname m') ≠ Some sub
     | None => ∀ m', m' ∈ l → dt_metadata_get_tag_subkey (md.tagname m') ≠ Some sub
     end) ∧
  dt_metadata_get_key_by_subkey l None = None ∧
  (∀ tag sub, dt_metadata_get_tag_subkey tag = Some sub →
              dt_metadata_get_tag_subkey sub = None).
Proof.
  split; [apply get_key_by_subkey_spec|]. split; [done|].
  intros tag sub. apply after_last_dot_no_dot.
Qed.

Lemma subkey_lookup_witness :
  dt_metadata_get_tag_subkey "creator" = None.
Proof.
  apply (proj2 (proj2 (subkey_lookup [])) "Xmp.dc.creator" "creator").
  reflexivity.
Defined.

(** ** The search, on any list *)

Section search.

Lemma key_matches_iff d data : key_matches d data = true ↔ d = data ∧ d ≠ None.
Proof.
  destruct d as [x|]; simpl; [|by split; [|intros [_ ?]]].
  rewrite Z.eqb_eq. destruct data as [y|]; simpl.
  - rewrite strcmp_zero. split; [by intros -> | by intros [[= ->] _]].
  - split; [done | by intros [? _]].
Qed.

Lemma find_from_spec j l data :
  match _list_find_from j l data with
  | Some i => ∃ n, i = j + 2 * n ∧ l !! (2 * n) = Some data ∧ data ≠ None ∧
                   ∀ m, m < n → l !! (2 * m) ≠ Some data
  | None => data ≠ None → ∀ n, l !! (2 * n) ≠ Some data
  end.
Proof.
  revert j. induction l as [l IH] using (induction_ltof1 _ (@length _)).
  unfold ltof in IH. intros j. destruct l as [|d tl]; cbn [_list_find_from].
  { by intros _ n. }
  destruct (key_matches d data) eqn:E.
  - apply key_matches_iff in E as [-> Hne]. exists 0.
    split; [lia|]. split; [done|]. split; [done|]. lia.
  - assert (Hd : data ≠ None → d ≠ data).
    { intros Hne ->. apply not_true_iff_false in E. apply E.
      by apply key_matches_iff. }
    destruct tl as [|v tl'].
    { intros Hne [|n]; [simpl; intros [= ?]; by apply Hd | done]. }
    specialize (IH tl' ltac:(simpl; lia) (S (S j))).
    destruct (_list_find_from (S (S j)) tl' data) as [i|].
    + destruct IH as (n & -> & Hn & Hne & Hfirst). exists (S n).
      split; [lia|]. split; [|split; [done|]].
      * by replace (2 * S n) with (S (S (2 * n))) by lia.
      * intros [|m] Hm; [simpl; intros [= ?]; by apply Hd|].
        replace (2 * S m) with (S (S (2 * m))) by lia. apply Hfirst. lia.
    + intros Hne [|n]; [simpl; intros [= ?]; by apply Hd|].
      replace (2 * S n) with (S (S (2 * n))) by lia. by apply IH.
Qed.
End search.

(** X11. On any list, the search answers with the first even position that
    holds the searched string, and answers NULL when the searched pointer is
    NULL or no even position holds the string; what stands at the odd
    positions, the values, is never compared. *)
Theorem list_find_custom_spec (l : GList) (data : gpointer) :
  match _list_find_custom l data with
  | Some i => ∃ n, i = 2 * n ∧ l !! (2 * n) = Some data ∧ data ≠ None ∧
                   ∀ m, m < n → l !! (2 * m) ≠ Some data
  | None => data ≠ None → ∀ n, l !! (2 * n) ≠ Some data
  end.
Proof. apply (find_from_spec 0). Qed.

(** ** Cleaning twice *)

Section clean_twice.

Lemma skip_leading_spaces_id s :
  starts_with_space s = false → skip_leading_spaces s = s.
Proof. destruct s as [|c r]; [done|]. simpl. by intros ->. Qed.

Lemma strip_trailing_spaces_id s :
  ends_with_space s = false → strip_trailing_spaces s = s.
Proof.
  induction s as [|c r IH]; [done|]. cbn [ends_with_space strip_trailing_spaces].
  destruct r as [|c' r'].
  - cbn [strip_trailing_spaces]. by intros ->.
  - intros He. rewrite IH by done. done.
Qed.

Lemma list_find_custom_spec_witness :
  [Some "1"; Some "a"; Some "2"; Some "b"] !! (2 * 1) ≠ Some (Some "a").
Proof.
  apply (list_find_custom_spec [Some "1"; Some "a"; Some "2"; Some "b"] (Some "a")).
  discriminate.
Defined.

Lemma cleanup_clean s :
  starts_with_space s = false → ends_with_space s = false →
  _cleanup_metadata_value (Some s) = s.
Proof.
  intros Hs He. destruct s as [|c r]; [done|]. unfold _cleanup_metadata_value.
  by rewrite strip_trailing_spaces_id, skip_leading_spaces_id.
Qed.
End clean_twice.

(** X12. Cleaning a cleaned value changes nothing, and a value that neither
    begins nor ends with a space is its own cleaned value. *)
Theorem cleanup_twice :
  (∀ value, _cleanup_metadata_value (Some (_cleanup_metadata_value value)) =
            _cleanup_metadata_value value) ∧
  (∀ s, starts_with_space s = false → ends_with_space s = false →
        _cleanup_metadata_value (Some s) = s).
Proof.
  split; [|apply cleanup_clean].
  intros [v|]; [|done].
  destruct (cleanup_spec v) as (n & m & _ & Hs & He). by apply cleanup_clean.
Qed.

Lemma cleanup_twice_witness : _cleanup_metadata_value (Some "a  b") = "a  b".
Proof. apply (proj2 cleanup_twice "a  b"); reflexivity. Defined.

(** ** When a batch returns and when it stops *)

Section total.
Context `{Externals}.
Import DiffSpec.

Lemma bind_none {A B} (o : option A) (f : A → option B) :
  (∀ x, f x = None) → o ≫= f = None.
Proof. intros Hf. destruct o; [apply Hf | done]. Qed.

Lemma find_null l : _list_find_custom l None = None.
Proof.
  pose proof (find_from_spec 0 l None) as Hs. unfold _list_find_custom.
  destruct (_list_find_from 0 l None); [|done].
  by destruct Hs as (? & _ & _ & ? & _).
Qed.

(** Removing any list of pointers from a list of pairs: the NULL ones are
    passed over. *)
Lemma remove_from_list_any (metadata : GList) : ∀ s,
  _metadata_remove_metadata_from_list (flat s) metadata =
  Some (flat (fold_left (λ acc k, remove_first k acc) (omap id metadata) s)).
Proof.
  induction metadata as [|[k|] r IH]; intros s; [done| |].
  - cbn [_metadata_remove_metadata_from_list omap list_omap id fold_left].
    destruct (first_value k s) as [v'|] eqn:E.
    + destruct (find_flat_Some _ _ _ E) as (i & Hi & _ & H2). rewrite Hi.
      cbv beta iota. rewrite H2. cbn [mbind option_bind].
      by rewrite (delete_pair_flat _ _ _ Hi), IH.
    + rewrite (find_flat_None _ _ E). by rewrite remove_first_absent, IH.
  - cbn [_metadata_remove_metadata_from_list omap list_omap id].
    by rewrite find_null, IH.
Qed.

Lemma metadata_after_flat action metadata (b : snapshot) :
  (action = DT_MA_REMOVE ∨ ∃ s : snapshot, metadata = flat s) →
  ∃ a : snapshot, metadata_after action (flat b) metadata = Some (flat a).
Proof.
  intros Hm. unfold metadata_after. rewrite !fmap_g_strdup.
  destruct (action =? DT_MA_SET)%Z eqn:E1.
  { destruct Hm as [->|[s ->]]; [done | by exists s]. }
  destruct (action =? DT_MA_ADD)%Z eqn:E2.
  { destruct Hm as [->|[s ->]]; [done|]. eexists. apply add_to_list_flat. }
  destruct (action =? DT_MA_REMOVE)%Z; [|by exists b].
  eexists. apply remove_from_list_any.
Qed.

Lemma metadata_execute_total imgs metadata action undo_on :
  (action = DT_MA_REMOVE ∨ ∃ s : snapshot, metadata = flat s) →
  ∀ undo t, is_Some (_metadata_execute imgs metadata undo undo_on action t).
Proof.
  intros Hm. induction imgs as [|i imgs IH]; intros undo t; [by eexists|].
  cbn [_metadata_execute]. rewrite get_list_id_flat.
  destruct (metadata_after_flat action metadata (stored_snapshot i t) Hm) as [a ->].
  cbn [mbind option_bind]. rewrite pop_undo_execute_flat.
  cbn [mbind option_bind]. apply IH.
Qed.

Lemma tb_added_odd i before after :
  Nat.odd (length after) = true →
  _get_tb_added_metadata_string_values i before after = None.
Proof.
  induction after as [after IH] using (induction_ltof1 _ (@length _)).
  unfold ltof in IH. destruct after as [|adata [|value rest]]; [done|done|].
  intros Hodd. cbn [_get_tb_added_metadata_string_values].
  rewrite (IH rest) by (simpl; lia || exact Hodd).
  apply bind_none. intros dv. apply bind_none. intros add.
  apply bind_none. intros entry. done.
Qed.

Lemma add_to_list_odd metadata : ∀ list,
  Nat.odd (length metadata) = true →
  _metadata_add_metadata_to_list list metadata = None.
Proof.
  induction metadata as [metadata IH] using (induction_ltof1 _ (@length _)).
  unfold ltof in IH. destruct metadata as [|mdata [|m2data rest]]; [done|done|].
  intros list Hodd. cbn [_metadata_add_metadata_to_list].
  apply bind_none. intros dv.
  destruct (_list_find_custom list mdata); apply IH; (simpl; lia) || exact Hodd.
Qed.

Lemma metadata_execute_odd i imgs metadata undo undo_on action t :
  action = DT_MA_SET ∨ action = DT_MA_ADD →
  Nat.odd (length metadata) = true →
  _metadata_execute (i :: imgs) metadata undo undo_on action t = None.
Proof.
  intros Hact Hodd. cbn [_metadata_execute].
  destruct Hact as [-> | ->]; unfold metadata_after; simpl; rewrite !fmap_g_strdup.
  - cbn [mbind option_bind]. unfold _pop_undo_execute.
    rewrite (tb_added_odd _ _ _ Hodd).
    by destruct (_get_tb_removed_metadata_string_values _ _).
  - by rewrite (add_to_list_odd _ _ Hodd).
Qed.
End total.

(** X13. A batch returns for every list of images when the payload is a
    list of pairs of strings, under every action, and under the remove action
    for every payload, NULL pointers included. Under the set and the add
    action a payload with an odd number of nodes makes the batch stop on a
    NULL node as soon as there is an image to work on. *)
Theorem batch_returns_or_stops `{Externals} :
  (∀ imgs (s : snapshot) undo undo_on action t,
     is_Some (_metadata_execute imgs (flat s) undo undo_on action t)) ∧
  (∀ imgs metadata undo undo_on t,
     is_Some (_metadata_execute imgs metadata undo undo_on DT_MA_REMOVE t)) ∧
  (∀ i imgs metadata undo undo_on action t,
     action = DT_MA_SET ∨ action = DT_MA_ADD →
     Nat.odd (length metadata) = true →
     _metadata_execute (i :: imgs) metadata undo undo_on action t = None).
Proof.
  split; [|split].
  - intros. apply metadata_execute_total. right. by eexists.
  - intros. apply metadata_execute_total. by left.
  - intros. by apply metadata_execute_odd.
Qed.

Lemma batch_returns_or_stops_witness :
  @_metadata_execute example_externals [7%Z] [Some "1"; Some "a"; Some "2"] [] true
    DT_MA_SET [] = None.
Proof.
  apply (proj2 (proj2 (@batch_returns_or_stops example_externals))).
  - by left.
  - reflexivity.
Defined.

(** ** Reading values *)

Section get.
Context `{Externals} `{Queries}.

Lemma strncmp_literal k lit :
  (strncmp k lit (String.length lit) =? 0)%Z = String.prefix lit k.
Proof. apply strncmp_prefix. Qed.

Lemma land_7_range z : (0 ≤ Z.land z 7 ≤ 7)%Z.
Proof.
  change 7%Z with (Z.ones 3). rewrite Z.land_ones by lia.
  pose proof (Z.mod_pos_bound z (2 ^ 3) ltac:(lia)). change (Z.ones 3) with 7%Z. lia.
Qed.
End get.

(** X14. [dt_metadata_get] hands back a count that is the length of the
    list (as a [uint32_t]). With the NULL key it stops on a NULL pointer. For
    a key that is not registered and begins with "Xmp.xmp.Rating" every item
    of the answer is an integer from -1 to 6; for a key that is not registered
    and begins with none of the three special names the answer is the empty
    list with count 0. *)
Theorem metadata_get_answers `{Externals} `{Queries} (i : Z) (st : state) :
  (∀ k r n, dt_metadata_get i k st = Some (r, n) →
            n = to_uint32 (Z.of_nat (length r))) ∧
  dt_metadata_get i None st = None ∧
  (∀ k r n,
     to_int32 (dt_metadata_get_keyid (_metadata_list st) (Some k)) = (-1)%Z →
     String.prefix "Xmp.xmp.Rating" k = true →
     dt_metadata_get i (Some k) st = Some (r, n) →
     ∀ it, it ∈ r → ∃ z, it = item_int z ∧ (-1 ≤ z ≤ 6)%Z) ∧
  (∀ k,
     to_int32 (dt_metadata_get_keyid (_metadata_list st) (Some k)) = (-1)%Z →
     String.prefix "Xmp.xmp.Rating" k = false →
     String.prefix "Xmp.dc.subject" k = false →
     String.prefix "Xmp.darktable.colorlabels" k = false →
     dt_metadata_get i (Some k) st = Some ([], 0%Z)).
Proof.
  split; [|split; [|split]].
  - intros k r n. unfold dt_metadata_get.
    destruct (_ =? -1)%Z.
    + destruct k as [k|]; [|done]. cbn [mbind option_bind].
      repeat (match goal with
              | |- context [if (strncmp ?a ?b ?c =? 0)%Z then _ else _] =>
                  destruct (strncmp a b c =? 0)%Z
              end);
        rewrite ?collect_rows_spec; intros [= <- <-]; by rewrite ?length_fmap.
    + rewrite collect_rows_spec. intros [= <- <-]. by rewrite length_fmap.
  - done.
  - intros k r n Hk Hp. unfold dt_metadata_get. rewrite Hk.
    change ((-1 =? -1)%Z) with true. cbn [mbind option_bind].
    change 14 with (String.length "Xmp.xmp.Rating"). rewrite strncmp_literal, Hp.
    rewrite collect_rows_spec. intros [= <- _] it (z & -> & _)%list_elem_of_fmap.
    eexists. split; [done|]. pose proof (land_7_range (to_int32 z)). lia.
  - intros k Hk H1 H2 H3. unfold dt_metadata_get. rewrite Hk.
    change ((-1 =? -1)%Z) with true. cbn [mbind option_bind].
    change 14 with (String.length "Xmp.xmp.Rating") at 1. rewrite strncmp_literal, H1.
    change 14 with (String.length "Xmp.dc.subject"). rewrite strncmp_literal, H2.
    change 25 with (String.length "Xmp.darktable.colorlabels").
    by rewrite strncmp_literal, H3.
Qed.

Lemma metadata_get_answers_witness :
  @dt_metadata_get example_externals example_queries 7 (Some "Exif.Image.Make")
    (mk_state [] [] [] ∅ [] []) = Some ([], 0%Z).
Proof.
  apply (proj2 (proj2 (proj2 (@metadata_get_answers example_externals example_queries
           7%Z (mk_state [] [] [] ∅ [] []))))); reflexivity.
Defined.

(** ** Registering and loading definitions *)

Section register.
Context `{Externals} `{Queries}.

Lemma set_default_import_flag_conf m st :
  let setting := flag_setting (dt_metadata_get_tag_subkey (md.tagname m)) in
  let st' := _set_default_import_flag m st in
  _metadata_list st' = _metadata_list st ∧ data_meta_data st' = data_meta_data st ∧
  main_meta_data st' = main_meta_data st ∧ undo_calls st' = undo_calls st ∧
  signals st' = signals st ∧
  is_Some (conf st' !! setting) ∧
  (∀ s, is_Some (conf st !! s) → conf st' !! s = conf st !! s) ∧
  (is_Some (conf st !! setting) → st' = st).
Proof.
  intros setting st'. unfold st', _set_default_import_flag. fold setting.
  case_bool_decide as E; [done|]. cbn.
  repeat (split; [done|]). split; [by rewrite lookup_insert_eq|]. split; [|done].
  intros s Hs. rewrite lookup_insert_ne; [done|]. by intros <-.
Qed.

Lemma init_loop_spec rows : ∀ st,
  let st' := init_loop rows st in
  _metadata_list st' =
    rev (init_entry <$> rows) ++ _metadata_list st ∧
  data_meta_data st' = data_meta_data st ∧
  main_meta_data st' = main_meta_data st ∧ undo_calls st' = undo_calls st ∧
  signals st' = signals st ∧
  (∀ s, is_Some (conf st !! s) → conf st' !! s = conf st !! s) ∧
  (∀ row, row ∈ rows →
     is_Some (conf st' !! flag_setting (dt_metadata_get_tag_subkey (md.tagname row)))) ∧
  ((∀ row, row ∈ rows →
     is_Some (conf st !! flag_setting (dt_metadata_get_tag_subkey (md.tagname row)))) →
   conf st' = conf st).
Proof.
  induction rows as [|row rows IH]; intros st.
  { cbn. repeat (split; [done|]). split; [|done]. by intros row ?%elem_of_nil. }
  cbn [init_loop].
  set (m := init_entry row).
  set (st1 := with_metadata_list (m :: _metadata_list st) st).
  destruct (set_default_import_flag_conf m st1)
    as (Hl & Hd & Hm & Hu & Hs & Hset & Hkeep & Hsame).
  destruct (IH (_set_default_import_flag m st1))
    as (Il & Id & Im & Iu & Is & Ikeep & Iall & Isame).
  split. { rewrite Il, Hl, fmap_cons. cbn [rev]. by rewrite <- app_assoc. }
  split; [by rewrite Id, Hd|]. split; [by rewrite Im, Hm|].
  split; [by rewrite Iu, Hu|]. split; [by rewrite Is, Hs|].
  split; [|split].
  - intros s Hsome. rewrite Ikeep; [by apply Hkeep|]. by rewrite Hkeep.
  - intros r [->|Hr]%elem_of_cons; [|by apply Iall].
    rewrite Ikeep; exact Hset.
  - intros Hall. rewrite Isame.
    + rewrite Hsame; [done|]. apply (Hall row). left.
    + intros r Hr. rewrite Hkeep; apply Hall; by right.
Qed.

Lemma to_uint32_to_int32 z : to_uint32 (to_int32 z) = to_uint32 z.
Proof.
  unfold to_uint32, to_int32.
  destruct (z mod 2 ^ 32 <? 2 ^ 31)%Z; [by rewrite Z.mod_mod|].
  rewrite <- (Z.mod_add _ 1) by lia. rewrite Z.mul_1_l.
  replace (z mod 2 ^ 32 - 2 ^ 32 + 2 ^ 32)%Z with (z mod 2 ^ 32)%Z by lia.
  by rewrite Z.mod_mod.
Qed.

Lemma state_eq st1 st2 :
  _metadata_list st1 = _metadata_list st2 → data_meta_data st1 = data_meta_data st2 →
  main_meta_data st1 = main_meta_data st2 → conf st1 = conf st2 →
  undo_calls st1 = undo_calls st2 → signals st1 = signals st2 → st1 = st2.
Proof. destruct st1, st2. simpl. by intros -> -> -> -> -> ->. Qed.

Lemma dt_metadata_init_spec st :
  let st' := dt_metadata_init st in
  _metadata_list st' =
    init_entry <$> select_definitions (data_meta_data st) ∧
  data_meta_data st' = data_meta_data st ∧
  main_meta_data st' = main_meta_data st ∧ undo_calls st' = undo_calls st ∧
  signals st' = signals st ∧
  (∀ s, is_Some (conf st !! s) → conf st' !! s = conf st !! s) ∧
  (∀ m, m ∈ _metadata_list st' →
     is_Some (conf st' !! flag_setting (dt_metadata_get_tag_subkey (md.tagname m)))) ∧
  ((∀ row, row ∈ select_definitions (data_meta_data st) →
     is_Some (conf st !! flag_setting (dt_metadata_get_tag_subkey (md.tagname row)))) →
   conf st' = conf st).
Proof.
  intros st'. unfold st', dt_metadata_init.
  destruct (init_loop_spec (select_definitions (data_meta_data st))
              (with_metadata_list [] st))
    as (Il & Id & Im & Iu & Is & Ikeep & Iall & Isame).
  cbn [_metadata_list data_meta_data main_meta_data conf undo_calls signals
       with_metadata_list] in *.
  rewrite Il, app_nil_r, rev_involutive.
  repeat (split; [done|]). split; [|done].
  intros m (row & -> & Hrow)%list_elem_of_fmap. exact (Iall row Hrow).
Qed.
End register.

(** X15. [dt_metadata_init] replaces the registry, whatever it held, by
    the rows of the statement in their order, each as the code reads it: the
    four integer columns internal, visible, private and display_order reduced
    to an [int], the id reduced to a [uint32_t], the two texts as they are.
    It leaves both tables, the undo calls and the signals alone; afterwards
    every loaded definition has its import flag setting, and a setting that
    was there keeps its value. Running it a second time changes nothing. *)
Theorem init_loads_registry `{Externals} `{Queries} (st : state) :
  _metadata_list (dt_metadata_init st) =
    (λ row, md.mk (to_uint32 (md.key row)) (md.tagname row) (md.name row)
              (to_int32 (md.internal row)) (to_int32 (md.visible row))
              (to_int32 (md.priv row)) (to_int32 (md.display_order row)))
      <$> select_definitions (data_meta_data st) ∧
  data_meta_data (dt_metadata_init st) = data_meta_data st ∧
  main_meta_data (dt_metadata_init st) = main_meta_data st ∧
  undo_calls (dt_metadata_init st) = undo_calls st ∧
  signals (dt_metadata_init st) = signals st ∧
  (∀ s, is_Some (conf st !! s) → conf (dt_metadata_init st) !! s = conf st !! s) ∧
  (∀ m, m ∈ _metadata_list (dt_metadata_init st) →
     is_Some (conf (dt_metadata_init st)
                !! flag_setting (dt_metadata_get_tag_subkey (md.tagname m)))) ∧
  dt_metadata_init (dt_metadata_init st) = dt_metadata_init st.
Proof.
  destruct (dt_metadata_init_spec st) as (Hl & Hd & Hm & Hu & Hs & Hkeep & Hall & _).
  split.
  { rewrite Hl. apply list_fmap_ext. intros _ row _. unfold init_entry.
    f_equal. apply to_uint32_to_int32. }
  repeat (split; [done|]).
  destruct (dt_metadata_init_spec (dt_metadata_init st))
    as (Hl2 & Hd2 & Hm2 & Hu2 & Hs2 & _ & _ & Hsame).
  apply state_eq; try done.
  - by rewrite Hl2, Hd, Hl.
  - apply Hsame. intros row Hrow. rewrite Hd in Hrow.
    refine (Hall (init_entry row) _). rewrite Hl.
    by apply (list_elem_of_fmap_2 init_entry).
Qed.

Lemma init_loads_registry_witness :
  let creator := md.mk 1 "Xmp.dc.creator" "creator" 0 1 0 0 in
  let st := mk_state [] [creator] [] {[ "other" := 3%Z ]} [] [] in
  conf (@dt_metadata_init example_externals example_queries st) !! "other"
  = conf st !! "other".
Proof.
  intros creator st.
  apply (proj1 (proj2 (proj2 (proj2 (proj2 (proj2
           (@init_loads_registry example_externals example_queries st))))))).
  vm_compute. by eexists.
Defined.

(** X16. When [dt_metadata_add_metadata] answers TRUE, the definition, with
    the id read from the table, is the head of the registry and every lookup
    finds it: by its tag name, by its id, the tag name of its id, and the id
    for its tag name as a key; its import flag setting exists. *)
Theorem add_then_lookup `{Externals} (metadata : dt_metadata_t) (st : state) :
  let st' := (dt_metadata_add_metadata metadata st).1.1 in
  let m' := (dt_metadata_add_metadata metadata st).1.2 in
  (dt_metadata_add_metadata metadata st).2 = true →
  ∃ k, Sql.select_key (md.tagname metadata) (data_meta_data st') = Some k ∧
       m' = md.set_key (to_uint32 k) metadata ∧
       _metadata_list st' = m' :: _metadata_list st ∧
       dt_metadata_get_metadata_by_tagname (_metadata_list st')
         (Some (md.tagname metadata)) = Some m' ∧
       dt_metadata_get_metadata_by_keyid (_metadata_list st') (md.key m') = Some m' ∧
       dt_metadata_get_key (_metadata_list st') (md.key m') =
         Some (md.tagname metadata) ∧
       dt_metadata_get_keyid (_metadata_list st') (Some (md.tagname metadata)) =
         md.key m' ∧
       is_Some (conf st' !! flag_setting
                             (dt_metadata_get_tag_subkey (md.tagname metadata))).
Proof.
  intros st' m'. unfold st', m', dt_metadata_add_metadata.
  destruct (Sql.select_key _ _) as [k|] eqn:Ek; cbn [fst snd]; [|done].
  intros _. exists k.
  set (m := md.set_key (to_uint32 k) metadata).
  set (st2 := with_metadata_list _ _).
  destruct (set_default_import_flag_conf m st2)
    as (Hl & Hd & _ & _ & _ & Hset & _ & _).
  rewrite Hl, Hd. split; [exact Ek|]. split; [done|]. split; [done|].
  cbn [st2 _metadata_list with_metadata_list
       dt_metadata_get_metadata_by_tagname dt_metadata_get_metadata_by_keyid
       dt_metadata_get_key dt_metadata_get_keyid get_keyid_loop g_strcmp0].
  assert (Htag : md.tagname m = md.tagname metadata) by done.
  rewrite Htag, strcmp_refl, !Z.eqb_refl, strncmp_prefix, prefix_refl.
  repeat (split; [done|]). exact Hset.
Qed.

Lemma add_then_lookup_witness :
  let creator := md.mk 0 "Xmp.dc.creator" "creator" 0 1 0 0 in
  let st := mk_state [] [] [] ∅ [] [] in
  let st' := (@dt_metadata_add_metadata example_externals creator st).1.1 in
  let m' := (@dt_metadata_add_metadata example_externals creator st).1.2 in
  ∃ k, Sql.select_key "Xmp.dc.creator" (data_meta_data st') = Some k ∧
       m' = md.set_key (to_uint32 k) creator ∧
       _metadata_list st' = m' :: _metadata_list st ∧
       dt_metadata_get_metadata_by_tagname (_metadata_list st')
         (Some "Xmp.dc.creator") = Some m' ∧
       dt_metadata_get_metadata_by_keyid (_metadata_list st') (md.key m') = Some m' ∧
       dt_metadata_get_key (_metadata_list st') (md.key m') = Some "Xmp.dc.creator" ∧
       dt_metadata_get_keyid (_metadata_list st') (Some "Xmp.dc.creator") = md.key m' ∧
       is_Some (conf st' !! flag_setting (dt_metadata_get_tag_subkey "Xmp.dc.creator")).
Proof.
  intros creator st.
  apply (@add_then_lookup example_externals creator st). reflexivity.
Defined.

(** ** Already imported *)

Section imported.
Context `{Externals} `{Queries}.

Lemma append_assoc_string a b c : (a +:+ b) +:+ c = a +:+ (b +:+ c).
Proof.
  induction a as [|x a IH]; [done|]. by rewrite !append_cons, IH.
Qed.

Lemma count_value_nonzero id t :
  count_value id t ≠ 0%Z → ∃ r : meta_row, r ∈ t ∧ r.2 = Some id.
Proof.
  unfold count_value. intros Hc.
  destruct (List.filter (λ r : meta_row, bool_decide (r.2 = Some id)) t)
    as [|r l] eqn:E; [done|].
  assert (Hr : r ∈ List.filter (λ r : meta_row, bool_decide (r.2 = Some id)) t).
  { rewrite E. left. }
  apply elem_of_List_filter in Hr as [Hr Hv]. exists r.
  split; [done|]. by apply bool_decide_eq_true in Hv.
Qed.

Lemma count_value_found id t (r : meta_row) :
  (Z.of_nat (length t) < 2 ^ 31)%Z → r ∈ t → r.2 = Some id →
  count_value id t ≠ 0%Z.
Proof.
  intros Hlen Hr Hv. unfold count_value.
  set (l := List.filter _ t).
  assert (Hin : r ∈ l).
  { apply elem_of_List_filter. split; [done|]. by apply bool_decide_eq_true. }
  assert (Hle : (length l <= length t)%nat) by apply List.filter_length_le.
  assert ((0 < length l)%nat)
    by (destruct l; [by apply elem_of_nil in Hin | simpl; lia]).
  unfold to_int32. rewrite Z.mod_small by lia.
  destruct (_ <? _)%Z eqn:E; [lia|]. apply Z.ltb_ge in E. lia.
Qed.
End imported.

(** X17. [dt_metadata_already_imported] answers FALSE when the file name or
    the date is NULL. When it answers TRUE some row of the value table, of any
    image and any key, has the value "file name-date"; on a table of fewer
    than 2^31 rows it answers TRUE whenever there is such a row. The pair of a
    file name and a date is not told apart from another pair that joins to
    the same text. *)
Theorem already_imported_rows `{Externals} `{Queries} (t : list meta_row) :
  (∀ d, dt_metadata_already_imported None d t = false) ∧
  (∀ f, dt_metadata_already_imported f None t = false) ∧
  (∀ f d, dt_metadata_already_imported (Some f) (Some d) t = true →
          ∃ r : meta_row, r ∈ t ∧ r.2 = Some (f +:+ "-" +:+ d)) ∧
  (∀ f d (r : meta_row),
     (Z.of_nat (length t) < 2 ^ 31)%Z → r ∈ t → r.2 = Some (f +:+ "-" +:+ d) →
     dt_metadata_already_imported (Some f) (Some d) t = true) ∧
  (∀ f g d, dt_metadata_already_imported (Some (f +:+ "-" +:+ g)) (Some d) t =
            dt_metadata_already_imported (Some f) (Some (g +:+ "-" +:+ d)) t).
Proof.
  split; [done|]. split; [by intros [f|]|]. split; [|split].
  - intros f d Ht. unfold dt_metadata_already_imported in Ht.
    apply negb_true_iff, Z.eqb_neq in Ht. by apply count_value_nonzero.
  - intros f d r Hlen Hr Hv. unfold dt_metadata_already_imported.
    apply negb_true_iff, Z.eqb_neq. by eapply count_value_found.
  - intros f g d. unfold dt_metadata_already_imported.
    by rewrite append_assoc_string, (append_assoc_string "-" g).
Qed.

Lemma already_imported_rows_witness :
  dt_metadata_already_imported (Some "img_0001.raw") (Some "2024:01:02")
    [(7, 3, Some "img_0001.raw-2024:01:02")]%Z = true.
Proof.
  apply (proj1 (proj2 (proj2 (proj2
           (@already_imported_rows example_externals example_queries
              [(7, 3, Some "img_0001.raw-2024:01:02")]%Z))))
           "img_0001.raw" "2024:01:02" (7, 3, Some "img_0001.raw-2024:01:02")%Z).
  - vm_compute. reflexivity.
  - left.
  - reflexivity.
Defined.

(** ** Keys that are not known *)

Section unknown.
Context `{Externals}.

Lemma get_keyid_unknown l k :
  (∀ m, m ∈ l → String.prefix (md.tagname m) k = false) →
  to_int32 (dt_metadata_get_keyid l (Some k)) = (-1)%Z.
Proof.
  intros Hall. cbn [dt_metadata_get_keyid]. rewrite get_keyid_loop_find.
  assert (List.find (λ m, String.prefix (md.tagname m) k) l = None) as ->; [|done].
  induction l as [|m l IH]; [done|]. simpl. rewrite (Hall m) by left.
  apply IH. intros m' Hm'. apply Hall. by right.
Qed.

Lemma set_list_payload_unknown l (kv : GList) :
  (∀ k, k ∈ kv → to_int32 (dt_metadata_get_keyid l k) = (-1)%Z) →
  set_list_payload l kv = Some [].
Proof.
  induction kv as [kv IH] using (induction_ltof1 _ (@length _)).
  unfold ltof in IH. intros Hall.
  destruct kv as [|k [|value kv2]]; cbn [set_list_payload]; [done| |].
  - by rewrite (Hall k) by left.
  - rewrite IH; [|simpl; lia|intros k' Hk'; apply Hall; by do 2 right].
    cbn [mbind option_bind]. by rewrite (Hall k) by left.
Qed.
End unknown.

(** X18. A key of which no registered tag name is a prefix, and the NULL
    key, make [dt_metadata_set] return with the state as it was; so does
    [dt_metadata_set_import] for a tag name that is not registered or an
    image id that is not valid, and [dt_metadata_set_list] for a list in
    which no node is a known key. *)
Theorem unknown_keys_change_nothing `{Externals} (st : state) :
  (∀ i k value undo_on,
     (∀ m, m ∈ _metadata_list st → String.prefix (md.tagname m) k = false) →
     dt_metadata_set i (Some k) value undo_on st = Some st) ∧
  (∀ i value undo_on, dt_metadata_set i None value undo_on st = Some st) ∧
  (∀ i k value,
     (∀ m, m ∈ _metadata_list st → Some (md.tagname m) ≠ k) →
     dt_metadata_set_import i k value st = Some st) ∧
  (∀ i k value,
     dt_is_valid_imgid i = false → dt_metadata_set_import i k value st = Some st) ∧
  (∀ imgs kv undo_on,
     (∀ k, k ∈ kv →
        to_int32 (dt_metadata_get_keyid (_metadata_list st) k) = (-1)%Z) →
     dt_metadata_set_list imgs kv undo_on st = Some st).
Proof.
  split; [|split; [done|split; [|split]]].
  - intros i k value undo_on Hall. unfold dt_metadata_set.
    by rewrite get_keyid_unknown.
  - intros i k value Hall. unfold dt_metadata_set_import.
    destruct (_ || _); [done|].
    pose proof (get_by_tagname_spec (_metadata_list st) k) as Hs.
    destruct (dt_metadata_get_metadata_by_tagname (_metadata_list st) k) as [m|];
      [|done].
    destruct Hs as (l1 & l2 & Hl & -> & _). exfalso. apply (Hall m); [|done].
    rewrite Hl. apply elem_of_app. right. left.
  - intros i k value Hv. unfold dt_metadata_set_import. rewrite Hv.
    by rewrite orb_true_r.
  - intros imgs kv undo_on Hall. unfold dt_metadata_set_list.
    by rewrite set_list_payload_unknown.
Qed.

Lemma unknown_keys_change_nothing_witness :
  let creator := md.mk 1 "Xmp.dc.creator" "creator" 0 1 0 0 in
  let st := mk_state [creator] [creator] [(7, 1, Some "Ann")]%Z ∅ [] [] in
  @dt_metadata_set example_externals 7 (Some "Xmp.dc.title") (Some "x") true st
  = Some st.
Proof.
  intros creator st.
  apply (proj1 (@unknown_keys_change_nothing example_externals st)).
  intros m Hm. apply list_elem_of_singleton in Hm as ->. reflexivity.
Defined.

(** ** The import gate *)

(** X19. For a valid image and a registered tag name, [dt_metadata_set_import]
    leaves the state as it was when side-car files are never written and the
    definition is internal or its import flag is not set in the
    configuration. When side-car files are written, or the definition is not
    internal and its flag is set, and the prefix lookup of the tag name gives
    the id of the definition, the call does what [dt_metadata_set] does
    without undo recording. *)
Theorem import_gate `{Externals} (i : Z) (k : string) (value : option string)
    (m : dt_metadata_t) (st : state) :
  dt_is_valid_imgid i = true →
  dt_metadata_get_metadata_by_tagname (_metadata_list st) (Some k) = Some m →
  let flag := Z.land (dt_conf_get_int (conf st)
                        (flag_setting (dt_metadata_get_tag_subkey (md.tagname m))))
                     DT_METADATA_FLAG_IMPORTED in
  (dt_image_get_xmp_mode = DT_WRITE_XMP_NEVER →
   md.internal m ≠ 0%Z ∨ flag = 0%Z →
   dt_metadata_set_import i (Some k) value st = Some st) ∧
  (dt_image_get_xmp_mode ≠ DT_WRITE_XMP_NEVER ∨ (md.internal m = 0%Z ∧ flag ≠ 0%Z) →
   dt_metadata_get_keyid (_metadata_list st) (Some k) = md.key m →
   to_int32 (md.key m) ≠ (-1)%Z →
   dt_metadata_set_import i (Some k) value st =
   dt_metadata_set i (Some k) value false st).
Proof.
  intros Hv Hm flag. split.
  - intros Hmode Hgate. unfold dt_metadata_set_import.
    rewrite Hv, Hm. cbn [negb orb]. rewrite bool_decide_eq_false_2 by done.
    cbn [orb]. rewrite Hmode, Z.eqb_refl. cbn [negb andb].
    destruct Hgate as [Hint|Hflag].
    + apply Z.eqb_neq in Hint. by rewrite Hint.
    + fold flag. rewrite Hflag. by destruct (md.internal m =? 0)%Z.
  - intros Hgate Hkey Hne. unfold dt_metadata_set_import, dt_metadata_set.
    rewrite Hv, Hm, Hkey. cbn [negb orb]. rewrite bool_decide_eq_false_2 by done.
    cbn [orb]. apply Z.eqb_neq in Hne. rewrite Hne.
    rewrite bool_decide_eq_false_2 by done. fold flag.
    assert ((if negb (negb (dt_image_get_xmp_mode =? DT_WRITE_XMP_NEVER)%Z)
                  && (md.internal m =? 0)%Z
             then negb (flag =? 0)%Z
             else negb (dt_image_get_xmp_mode =? DT_WRITE_XMP_NEVER)%Z) = true) as ->.
    { destruct Hgate as [Hmode|[Hint Hflag]].
      - apply Z.eqb_neq in Hmode. by rewrite Hmode.
      - apply Z.eqb_neq in Hflag. rewrite Hint, Hflag. cbn.
        by destruct (dt_image_get_xmp_mode =? DT_WRITE_XMP_NEVER)%Z. }
    unfold execute_and_record.
    by destruct (_metadata_execute _ _ _ _ _ _) as [[t u]|].
Qed.

Lemma import_gate_witness :
  let never : Externals := {|
    dt_is_valid_imgid := λ n, (0 <? n)%Z;
    DT_METADATA_FLAG_IMPORTED := 4;
    dt_act_on_get_images := [];
    dt_image_get_xmp_mode := 0;
    DT_WRITE_XMP_NEVER := 0 |} in
  let creator := md.mk 1 "Xmp.dc.creator" "creator" 0 1 0 0 in
  let st := mk_state [creator] [creator] []
              {[ "plugins/lighttable/metadata/creator_flag" := 3%Z ]} [] [] in
  @dt_metadata_set_import never 7 (Some "Xmp.dc.creator") (Some "Ann") st = Some st.
Proof.
  intros never creator st.
  apply (proj1 (@import_gate never 7 "Xmp.dc.creator" (Some "Ann") creator st
                  eq_refl eq_refl)).
  - reflexivity.
  - right. vm_compute. reflexivity.
Defined.
